(** * Federated data fusion backend: simulation engine, admin controls, stream reader

    A shallow embedding of [backend/app/generators.py], [routes/admin.py]
    and [routes/stream.py], with the pieces of [models.py] and [config.py]
    they use.

    - Python floats are IEEE binary64: they are Rocq's primitive floats, and
      comparisons, sums and quotients are the primitive operations.
    - The Redis store is a map from string keys to values with an optional
      expiry instant, next to the lists the program keeps; the clock is a
      number of milliseconds.
    - JSON texts are kept decoded (an asset, an event, an alert, an update
      payload), and timestamps are the clock reading they were taken at.
    - [random] and [uuid] are an oracle: a table giving the result of the
      k-th call, threaded through the code with a call counter.
    - Python exceptions are an [outcome]; code runs in a state and
      exception monad over the store and the oracle. *)

From Stdlib Require Import ZArith Floats Bool Lia.
From stdpp Require Import base option list gmap strings pretty.

Set Warnings "-inexact-float".
Local Open Scope Z_scope.

(** ** Python floats *)

Abbreviation float := PrimFloat.float.

Module Py.

(** [x < y], [x <= y], [x > y], [x >= y], [x == y] on floats. *)
Definition lt (x y : float) : bool := PrimFloat.ltb x y.
Definition le (x y : float) : bool := PrimFloat.leb x y.
Definition gt (x y : float) : bool := PrimFloat.ltb y x.
Definition ge (x y : float) : bool := PrimFloat.leb y x.
Definition eq (x y : float) : bool := PrimFloat.eqb x y.

(** The builtins [min(a, b)] and [max(a, b)]: the first argument is
    kept unless the second one compares strictly below (above) it. *)
Definition min (a b : float) : float := if lt b a then b else a.
Definition max (a b : float) : float := if gt b a then b else a.

End Py.

(** [clamp(v, lo, hi)] *)
Definition clamp (v lo hi : float) : float := Py.max lo (Py.min hi v).

(** The operating region, the bounds written in [random_route],
    [bootstrap_assets] and [update_assets]. *)
Definition in_range (lo hi x : float) : bool := Py.le lo x && Py.le x hi.
Definition lat_ok (x : float) : bool := in_range 35%float 60%float x.
Definition lon_ok (x : float) : bool := in_range (-10)%float 30%float x.

(** ** Exceptions *)

Inductive exn : Type :=
| ZeroDivisionError
| IndexError
| TypeError
| ValidationError
| ResponseError
| HTTPException (status_code : Z) (detail : string).

Inductive outcome (A : Type) : Type :=
| Ok (a : A)
| Raise (e : exn).
Arguments Ok {A} a.
Arguments Raise {A} e.

(** Float division: Python raises on a zero divisor (of either sign). *)
Definition py_div (x y : float) : outcome float :=
  if Py.eq y 0%float then Raise ZeroDivisionError else Ok (PrimFloat.div x y).

(** ** models.py *)

Inductive Severity : Type := low | medium | high | critical.
Inductive AssetStatus : Type := active | degraded | offline.
Inductive AlertPriority : Type := p3 | p2 | p1.

Definition Severity_str (s : Severity) : string :=
  match s with
  | low => "low" | medium => "medium" | high => "high" | critical => "critical"
  end.

Definition AlertPriority_str (p : AlertPriority) : string :=
  match p with p3 => "p3" | p2 => "p2" | p1 => "p1" end.

(** A waypoint is a pair [(lat, lon)]. *)
Abbreviation Waypoint := (float * float)%type.

(** Timestamps are kept as the clock reading they were taken at. *)
Record Asset : Type := mkAsset {
  asset_id : string;
  name : string;
  asset_type : string;
  lat : float;
  lon : float;
  status : AssetStatus;
  last_update : Z;
  owner_team : string;
  route : list Waypoint;
  route_idx : Z;
  speed_kmh : float
}.

Record EventMeta : Type := mkMeta {
  meta_asset_id : option string;
  meta_owner_team : string
}.

Record Event : Type := mkEvent {
  event_id : string;
  ev_created_at : Z;
  ev_lat : float;
  ev_lon : float;
  ev_type : string;
  severity : Severity;
  source : string;
  confidence : float;
  meta : EventMeta
}.

Record Alert : Type := mkAlert {
  alert_id : string;
  al_created_at : Z;
  priority : AlertPriority;
  message : string;
  related_event_id : option string;
  related_asset_id : option string;
  fingerprint : string;
  expires_at : option Z
}.

(** ** Risk, severity, priority *)

Definition _asset_risk (asset : Asset) : float :=
  let st := status asset in
  let base := 0.20%float in
  let base :=
    match st with
    | degraded => (base + 0.30)%float
    | offline => (base + 0.55)%float
    | active => base
    end in
  clamp base 0%float 1%float.

Definition _risk_to_severity (risk : float) : Severity :=
  if Py.ge risk 0.80%float then critical
  else if Py.ge risk 0.60%float then high
  else if Py.ge risk 0.35%float then medium
  else low.

Definition _event_to_priority (evt : Event) : option AlertPriority :=
  let sev := severity evt in
  match sev with
  | critical => Some p1
  | high => Some p2
  | _ => None
  end.

(** ** Movement towards a waypoint *)

Section Movement.

(** [x ** 0.5] is libm's [pow]; it is a parameter of the development. *)
Variable pow_half : float -> float.

(** The distance [move_towards] computes before it compares it to the step. *)
Definition distance (a_lat a_lon b_lat b_lon : float) : float :=
  let d_lat := (b_lat - a_lat)%float in
  let d_lon := (b_lon - a_lon)%float in
  pow_half (d_lat * d_lat + d_lon * d_lon)%float.

Definition move_towards (a_lat a_lon b_lat b_lon step_deg : float)
  : outcome (float * float * bool) :=
  let d_lat := (b_lat - a_lat)%float in
  let d_lon := (b_lon - a_lon)%float in
  let dist := pow_half (d_lat * d_lat + d_lon * d_lon)%float in
  if Py.le dist step_deg then Ok (b_lat, b_lon, true)
  else
    match py_div d_lat dist with
    | Raise e => Raise e
    | Ok q_lat =>
        match py_div d_lon dist with
        | Raise e => Raise e
        | Ok q_lon =>
            Ok ((a_lat + q_lat * step_deg)%float,
                (a_lon + q_lon * step_deg)%float, false)
        end
    end.

End Movement.

(** ** The store *)

(** What an entry of the update log carries under ["data"]. *)
Inductive UpdateData : Type :=
| DBootstrap (assets : Z)
| DAsset (a : Asset)
| DEvent (e : Event)
| DAlert (a : Alert)
| DAdmin (kind actor : string) (ts cooldown_sec : Z) (scenario : string)
         (rates : Z * Z * Z).

(** [{"type": ..., "data": ...}] *)
Record Update : Type := mkUpdate {
  u_type : string;
  u_data : UpdateData
}.

(** A string value of the store, kept decoded: a plain text, the decimal
    text of an integer (what [r.set(key, 6)] and [str(n)] store and [int]
    reads back), or the JSON text of an asset, an event or an alert. *)
Inductive rval : Type :=
| RText (s : string)
| RInt (n : Z)
| RAsset (a : Asset)
| REvent (e : Event)
| RAlert (a : Alert).

(** A value with the instant (ms) at which it expires, if it has a TTL. *)
Record entry : Type := mkEntry {
  e_val : rval;
  e_expire : option Z
}.

(** String keys, the lists of ids ([events:list], [assets:list],
    [alerts:list]) and the list of payloads at [updates:stream]. *)
Record Redis : Type := mkRedis {
  strs : gmap string entry;
  lists : gmap string (list string);
  updates : list Update
}.

Definition redis_empty : Redis := mkRedis ∅ ∅ [].

Definition K_EVENTS : string := "events:list".
Definition K_ASSETS : string := "assets:list".
Definition K_ALERTS : string := "alerts:list".

Module R.

(** A key with an expiry instant is still there in the millisecond of
    that instant, and gone once the clock has passed it. *)
Definition live (now : Z) (e : entry) : bool :=
  match e_expire e with
  | None => true
  | Some t => now <=? t
  end.

(** GET *)
Definition get (now : Z) (r : Redis) (key : string) : option rval :=
  match strs r !! key with
  | Some e => if live now e then Some (e_val e) else None
  | None => None
  end.

(** EXISTS *)
Definition exists_ (now : Z) (r : Redis) (key : string) : bool :=
  match get now r key with Some _ => true | None => false end.

(** SET key value: any TTL the key had is dropped. *)
Definition set (r : Redis) (key : string) (v : rval) : Redis :=
  mkRedis (<[key := mkEntry v None]> (strs r)) (lists r) (updates r).

(** SETEX key seconds value; the program calls it with 60 seconds. *)
Definition setex (now : Z) (r : Redis) (key : string) (sec : Z) (v : rval) : Redis :=
  mkRedis (<[key := mkEntry v (Some (now + 1000 * sec))]> (strs r))
          (lists r) (updates r).

(** EXPIRE key seconds; the program calls it with a positive TTL only. *)
Definition expire (now : Z) (r : Redis) (key : string) (sec : Z) : Redis :=
  match get now r key with
  | Some v => setex now r key sec v
  | None => r
  end.

(** SET key value NX EX seconds: the reply says whether the key was set.
    The server refuses an expire time that is not positive, before it looks
    at the key, and the client raises. *)
Definition set_nx_ex (now : Z) (r : Redis) (key : string) (v : rval) (sec : Z)
  : outcome (bool * Redis) :=
  if sec <=? 0 then Raise ResponseError
  else if exists_ now r key then Ok (false, r)
  else Ok (true, setex now r key sec v).

(** Indices of LRANGE, LTRIM and LINDEX: a negative one counts from the tail. *)
Definition norm (len i : Z) : Z := if i <? 0 then len + i else i.

Definition range {A : Type} (l : list A) (start stop : Z) : list A :=
  let len := Z.of_nat (length l) in
  let s := Z.max 0 (norm len start) in
  let e := Z.min (len - 1) (norm len stop) in
  if e <? s then [] else take (Z.to_nat (e - s + 1)) (drop (Z.to_nat s) l).

Definition index {A : Type} (l : list A) (i : Z) : option A :=
  let j := norm (Z.of_nat (length l)) i in
  if j <? 0 then None else l !! Z.to_nat j.

Definition items (r : Redis) (key : string) : list string :=
  default [] (lists r !! key).

Definition llen (r : Redis) (key : string) : Z := Z.of_nat (length (items r key)).

Definition lrange (r : Redis) (key : string) (start stop : Z) : list string :=
  range (items r key) start stop.

Definition lindex (r : Redis) (key : string) (i : Z) : option string :=
  index (items r key) i.

Definition rpush (r : Redis) (key : string) (x : string) : Redis :=
  mkRedis (strs r) (<[key := items r key ++ [x]]> (lists r)) (updates r).

(** A list left empty is removed from the store. *)
Definition ltrim (r : Redis) (key : string) (start stop : Z) : Redis :=
  let kept := range (items r key) start stop in
  mkRedis (strs r)
          (match kept with
           | [] => delete key (lists r)
           | _ => <[key := kept]> (lists r)
           end)
          (updates r).

(** RPUSH and LTRIM on [updates:stream]. *)
Definition rpush_updates (r : Redis) (payload : Update) : Redis :=
  mkRedis (strs r) (lists r) (updates r ++ [payload]).

Definition ltrim_updates (r : Redis) (start stop : Z) : Redis :=
  mkRedis (strs r) (lists r) (range (updates r) start stop).

End R.

(** ** Randomness *)

(** The results of the calls to [random] and [uuid]: [rnd_uniform k a b] is
    what the k-th call returns when it is [random.uniform(a, b)], and so
    on; [rnd_pick k len] is the position taken by [random.choice] or
    [random.choices] in a sequence of [len] items. *)
Record Rng : Type := mkRng {
  rnd_uniform : nat -> float -> float -> float;
  rnd_random : nat -> float;
  rnd_randint : nat -> Z -> Z -> Z;
  rnd_pick : nat -> nat -> nat;
  rnd_sample : nat -> list string -> Z -> list string;
  rnd_hex : nat -> string;
  rnd_calls : nat
}.

Definition tick_rng (g : Rng) : Rng :=
  mkRng (rnd_uniform g) (rnd_random g) (rnd_randint g) (rnd_pick g)
        (rnd_sample g) (rnd_hex g) (S (rnd_calls g)).

(** What the library promises of [random.uniform]: a <= N <= b. *)
Definition uniform_ok (g : Rng) : Prop :=
  forall k a b, Py.le a b = true ->
    Py.le a (rnd_uniform g k a b) = true /\ Py.le (rnd_uniform g k a b) b = true.

(** ** The monad *)

Record World : Type := mkWorld {
  redis : Redis;
  rng : Rng
}.

Definition M (A : Type) : Type := World -> outcome A * World.

Definition ret {A : Type} (a : A) : M A := fun w => (Ok a, w).

Definition raise {A : Type} (e : exn) : M A := fun w => (Raise e, w).

Definition bind {A B : Type} (m : M A) (f : A -> M B) : M B :=
  fun w =>
    match m w with
    | (Ok a, w') => f a w'
    | (Raise e, w') => (Raise e, w')
    end.

Notation "x <- m ;; k" := (bind m (fun x => k))
  (at level 100, m at next level, right associativity).
Notation "m ;;; k" := (bind m (fun _ => k))
  (at level 100, right associativity).

Definition lift {A : Type} (o : outcome A) : M A := fun w => (o, w).

(** A read of the store, and a command that changes it. *)
Definition query {A : Type} (f : Redis -> A) : M A :=
  fun w => (Ok (f (redis w)), w).

Definition command (f : Redis -> Redis) : M unit :=
  fun w => (Ok tt, mkWorld (f (redis w)) (rng w)).

(** A draw: the oracle is read at the call counter, which then advances. *)
Definition draw {A : Type} (f : Rng -> nat -> A) : M A :=
  fun w => (Ok (f (rng w) (rnd_calls (rng w))), mkWorld (redis w) (tick_rng (rng w))).

Fixpoint for_each {A : Type} (l : list A) (body : A -> M unit) : M unit :=
  match l with
  | [] => ret tt
  | x :: l' => body x ;;; for_each l' body
  end.

Module Random.

Definition uniform (a b : float) : M float := draw (fun g k => rnd_uniform g k a b).
Definition random : M float := draw rnd_random.
Definition randint (a b : Z) : M Z := draw (fun g k => rnd_randint g k a b).

(** [random.choice(seq)] *)
Definition choice (seq : list string) : M string :=
  i <- draw (fun g k => rnd_pick g k (length seq)) ;;
  match seq !! i with
  | Some x => ret x
  | None => raise IndexError
  end.

(** [random.choices(population, weights=...)[0]]: the weights, all positive
    here, bear on how likely an item is, not on which ones can come. *)
Definition choices (population : list string) (weights : list float) : M string :=
  choice population.

(** [random.sample(population, k=k)] *)
Definition sample (population : list string) (k : Z) : M (list string) :=
  draw (fun g c => rnd_sample g c population k).

End Random.

(** [uid(prefix)]: the prefix, an underscore and ten hex digits of a UUID. *)
Definition uid (prefix : string) : M string :=
  h <- draw rnd_hex ;;
  ret (prefix +:+ "_" +:+ String.substring 0 10 h).

(** ** generators.py *)

(** [f"{i:03d}"] for the indices of [range(n)], which are not negative. *)
Definition fmt_03d (i : Z) : string :=
  let s := pretty i in
  String.concat "" (replicate (3 - String.length s)%nat "0") +:+ s.

(** [f"{x}"] for a value that may be [None]. *)
Definition str_opt (x : option string) : string := default "None" x.

(** [seq[i]]: a negative index counts from the end. *)
Definition py_index {A : Type} (seq : list A) (i : Z) : outcome A :=
  let len := Z.of_nat (length seq) in
  let j := if i <? 0 then len + i else i in
  if j <? 0 then Raise IndexError
  else match seq !! Z.to_nat j with
       | Some x => Ok x
       | None => Raise IndexError
       end.

(** [if not raw]: a missing key and an empty text are both false. *)
Definition truthy (raw : option rval) : option rval :=
  match raw with
  | Some (RText "") => None
  | _ => raw
  end.

(** [json.loads(raw)] read as an asset (an event): the program stores
    nothing else under the keys it reads them from. *)
Definition loads_asset (raw : rval) : outcome Asset :=
  match raw with RAsset a => Ok a | _ => Raise TypeError end.

Definition loads_event (raw : rval) : outcome Event :=
  match raw with REvent e => Ok e | _ => Raise TypeError end.

Definition _push_update (payload : Update) : M unit :=
  command (fun r => R.rpush_updates r payload) ;;;
  command (fun r => R.ltrim_updates r (-500) (-1)).

Definition _store_json (now : Z) (key : string) (obj : rval) (ttl : Z) : M unit :=
  command (fun r => R.set r key obj) ;;;
  if negb (ttl =? 0) && (0 <? ttl)
  then command (fun r => R.expire now r key ttl)
  else ret tt.

Fixpoint route_hops (hops : nat) (cur_lat cur_lon : float) : M (list Waypoint) :=
  match hops with
  | O => ret []
  | S hops' =>
      d_lat <- Random.uniform (-1.2)%float 1.2%float ;;
      d_lon <- Random.uniform (-1.8)%float 1.8%float ;;
      let cur_lat := clamp (cur_lat + d_lat)%float 35%float 60%float in
      let cur_lon := clamp (cur_lon + d_lon)%float (-10)%float 30%float in
      rest <- route_hops hops' cur_lat cur_lon ;;
      ret ((cur_lat, cur_lon) :: rest)
  end.

(** [for _ in range(max(1, n - 1))] after the starting point. *)
Definition random_route (lat lon : float) (n : Z) : M (list Waypoint) :=
  rest <- route_hops (Z.to_nat (Z.max 1 (n - 1))) lat lon ;;
  ret ((lat, lon) :: rest).

Section Generators.

Variable pow_half : float -> float.

(** The builtin [round(x, ndigits)]. *)
Variable py_round : float -> Z -> float.

(** The builtin [hash] on strings, as the interpreter process that runs
    the tick has it: Python salts the hash of a string per process, so two
    processes need not agree on it. *)
Variable py_hash : string -> Z.

Definition bootstrap_asset (now : Z) (i : Z) : M unit :=
  lat <- Random.uniform 35%float 60%float ;;
  lon <- Random.uniform (-10)%float 30%float ;;
  a_type <- Random.choice ["sensor"; "vehicle"; "relay"; "drone"] ;;
  team <- Random.choice ["blue"; "green"; "white"] ;;
  aid <- uid "ast" ;;
  n <- Random.randint 3 6 ;;
  rt <- random_route lat lon n ;;
  speed <- Random.uniform 40%float 90%float ;;
  let a := mkAsset aid ("Asset-" +:+ fmt_03d i) a_type lat lon active now team
                   rt 0 (py_round speed 1) in
  _store_json now ("asset:" +:+ asset_id a) (RAsset a) 0 ;;;
  command (fun r => R.rpush r K_ASSETS (asset_id a)).

Definition bootstrap_assets (now : Z) (n : Z) : M unit :=
  len <- query (fun r => R.llen r K_ASSETS) ;;
  if 0 <? len then ret tt
  else
    for_each (seqZ 0 n) (bootstrap_asset now) ;;;
    _push_update (mkUpdate "bootstrap" (DBootstrap n)).

(** The body of the loop of [update_assets]. *)
Definition update_asset (now : Z) (aid : string) : M unit :=
  raw <- query (fun r => R.get now r ("asset:" +:+ aid)) ;;
  match truthy raw with
  | None => ret tt
  | Some raw =>
      asset <- lift (loads_asset raw) ;;
      let rt := route asset in
      let idx := route_idx asset in
      cur <- (if Z.of_nat (length rt) <=? idx
              then n <- Random.randint 3 6 ;;
                   rt' <- random_route (lat asset) (lon asset) n ;;
                   ret (rt', 0)
              else ret (rt, idx)) ;;
      let '(rt, idx) := cur in
      target <- lift (py_index rt idx) ;;
      let '(target_lat, target_lon) := target in
      let step_deg :=
        if bool_decide (asset_type asset ∈ ["drone"; "vehicle"])
        then 0.03%float else 0.02%float in
      moved <- lift (move_towards pow_half (lat asset) (lon asset)
                                  target_lat target_lon step_deg) ;;
      let '(new_lat, new_lon, arrived) := moved in
      j_lat <- Random.uniform (-0.004)%float 0.004%float ;;
      let new_lat := (new_lat + j_lat)%float in
      j_lon <- Random.uniform (-0.004)%float 0.004%float ;;
      let new_lon := (new_lon + j_lon)%float in
      let lat' := clamp new_lat 35%float 60%float in
      let lon' := clamp new_lon (-10)%float 30%float in
      let idx := if arrived then idx + 1 else idx in
      roll <- Random.random ;;
      st <- (if Py.lt roll 0.015%float then ret degraded
             else if Py.lt roll 0.020%float then ret offline
             else match status asset with
                  | active => ret active
                  | st =>
                      again <- Random.random ;;
                      ret (if Py.lt again 0.03%float then active else st)
                  end) ;;
      let asset := mkAsset (asset_id asset) (name asset) (asset_type asset)
                           lat' lon' st now (owner_team asset) rt idx
                           (speed_kmh asset) in
      _store_json now ("asset:" +:+ aid) (RAsset asset) 0 ;;;
      _push_update (mkUpdate "asset_updated" (DAsset asset))
  end.

Definition update_assets (now : Z) : M unit :=
  ids <- query (fun r => R.lrange r K_ASSETS 0 (-1)) ;;
  match ids with
  | [] => ret tt
  | _ =>
      n <- Random.randint 2 5 ;;
      let k := Z.min (Z.of_nat (length ids)) n in
      chosen <- Random.sample ids k ;;
      for_each chosen (update_asset now)
  end.

Definition generate_event (now : Z) : M unit :=
  len <- query (fun r => R.llen r K_ASSETS) ;;
  if len =? 0 then ret tt
  else
    len <- query (fun r => R.llen r K_ASSETS) ;;
    i <- Random.randint 0 (len - 1) ;;
    aid <- query (fun r => R.lindex r K_ASSETS i) ;;
    raw_a <- query (fun r => R.get now r ("asset:" +:+ str_opt aid)) ;;
    match truthy raw_a with
    | None => ret tt
    | Some raw_a =>
        asset <- lift (loads_asset raw_a) ;;
        let risk := _asset_risk asset in
        let a_type := asset_type asset in
        etype <-
          (if String.eqb a_type "relay"
           then Random.choices ["comms"; "anomaly"; "movement"]
                               [0.5%float; 0.3%float; 0.2%float]
           else if String.eqb a_type "vehicle"
           then Random.choices ["movement"; "incident"; "anomaly"]
                               [0.55%float; 0.25%float; 0.20%float]
           else if String.eqb a_type "drone"
           then Random.choices ["movement"; "anomaly"; "weather"]
                               [0.45%float; 0.35%float; 0.20%float]
           else Random.choice ["incident"; "movement"; "anomaly"; "weather"]) ;;
        cur <- (match status asset with
                | offline =>
                    etype' <- Random.choices ["comms"; "anomaly"; "incident"]
                                             [0.55%float; 0.30%float; 0.15%float] ;;
                    ret (etype', clamp (risk + 0.10)%float 0%float 1%float)
                | _ => ret (etype, risk)
                end) ;;
        let '(etype, risk) := cur in
        let sev := _risk_to_severity risk in
        o_lat <- Random.uniform (-0.25)%float 0.25%float ;;
        o_lon <- Random.uniform (-0.25)%float 0.25%float ;;
        c <- Random.uniform 0.60%float 0.95%float ;;
        let conf := py_round c 2 in
        (* Event(...): the id comes from the default factory, then
           confidence is validated against ge=0.0, le=1.0 *)
        eid <- uid "evt" ;;
        if negb (Py.ge conf 0%float && Py.le conf 1%float) then raise ValidationError
        else
          let evt := mkEvent eid now (lat asset + o_lat)%float (lon asset + o_lon)%float
                             etype sev "synthetic" conf
                             (mkMeta aid (owner_team asset)) in
          _store_json now ("event:" +:+ event_id evt) (REvent evt) 0 ;;;
          command (fun r => R.rpush r K_EVENTS (event_id evt)) ;;;
          command (fun r => R.ltrim r K_EVENTS (-300) (-1)) ;;;
          _push_update (mkUpdate "event_created" (DEvent evt))
    end.

Definition generate_alert (now : Z) : M unit :=
  len <- query (fun r => R.llen r K_EVENTS) ;;
  if len =? 0 then ret tt
  else
    eid <- query (fun r => R.lindex r K_EVENTS (-1)) ;;
    raw_evt <- query (fun r => R.get now r ("event:" +:+ str_opt eid)) ;;
    match truthy raw_evt with
    | None => ret tt
    | Some raw_evt =>
        evt <- lift (loads_event raw_evt) ;;
        match _event_to_priority evt with
        | None => ret tt
        | Some prio =>
            let related := meta_asset_id (meta evt) in
            let et := ev_type evt in
            let sev := Severity_str (severity evt) in
            let msg :=
              if String.eqb et "comms" then "Communications anomaly detected"
              else if String.eqb et "movement" then "Unusual movement pattern near asset"
              else if String.eqb et "incident"
              then "Incident reported near monitored corridor"
              else if String.eqb et "weather"
              then "Weather risk impacting operational area"
              else "Correlation rule triggered" in
            let fp := AlertPriority_str prio +:+ ":" +:+ event_id evt +:+ ":"
                      +:+ str_opt related +:+ ":" +:+ msg in
            let dedup_key := "dedup:alert:" +:+ pretty (py_hash fp) in
            seen <- query (fun r => R.exists_ now r dedup_key) ;;
            if (seen : bool) then ret tt
            else
              command (fun r => R.setex now r dedup_key 60 (RText "1")) ;;;
              alid <- uid "alr" ;;
              let alr := mkAlert alid now prio (msg +:+ " (sev=" +:+ sev +:+ ")")
                                 (Some (event_id evt)) related fp
                                 (Some (now + 5 * 60 * 1000)) in
              _store_json now ("alert:" +:+ alert_id alr) (RAlert alr) 600 ;;;
              command (fun r => R.rpush r K_ALERTS (alert_id alr)) ;;;
              command (fun r => R.ltrim r K_ALERTS (-300) (-1)) ;;;
              _push_update (mkUpdate "alert_raised" (DAlert alr))
        end
    end.

End Generators.

(** ** routes/admin.py *)

(** The two fields of [config.Settings] the admin routes read. *)
Record Settings : Type := mkSettings {
  admin_cooldown_sec : Z;
  admin_lock_sec : Z
}.

(** The defaults of [config.py]. *)
Definition settings_default : Settings := mkSettings 300 10.

Inductive ScenarioName : Type := normal | stress | incident.

Definition ScenarioName_str (s : ScenarioName) : string :=
  match s with normal => "normal" | stress => "stress" | incident => "incident" end.

Record Preset : Type := mkPreset {
  p_event : Z;
  p_asset : Z;
  p_alert : Z
}.

Definition SCENARIO_PRESETS (s : ScenarioName) : Preset :=
  match s with
  | normal => mkPreset 6 2 3
  | stress => mkPreset 2 1 1
  | incident => mkPreset 3 1 1
  end.

Definition K_SCENARIO : string := "sim:scenario".
Definition K_RATE_EVENT : string := "sim:rate:event_sec".
Definition K_RATE_ASSET : string := "sim:rate:asset_sec".
Definition K_RATE_ALERT : string := "sim:rate:alert_sec".
Definition K_ADMIN_COOLDOWN_UNTIL : string := "admin:cooldown_until".
Definition K_ADMIN_LOCK : string := "admin:lock".

(** What [set_scenario] returns when it goes through. *)
Record ScenarioReply : Type := mkReply {
  rp_ok : bool;
  rp_scenario : ScenarioName;
  rp_rates : Preset;
  rp_cooldown_sec : Z
}.

Section Admin.

Variable settings : Settings.

(** [int(time.time())]: whole seconds of a clock read in milliseconds. *)
Definition _now (now : Z) : Z := Z.quot now 1000.

Definition _acquire_lock (now : Z) : M bool :=
  fun w =>
    match R.set_nx_ex now (redis w) K_ADMIN_LOCK (RText "1")
                      (admin_lock_sec settings) with
    | Ok (reply, r) => (Ok reply, mkWorld r (rng w))
    | Raise e => (Raise e, w)
    end.

Definition _set_cooldown (now : Z) : M unit :=
  command (fun r => R.set r K_ADMIN_COOLDOWN_UNTIL
                          (RInt (_now now + admin_cooldown_sec settings))).

Definition _announce (now : Z) (kind : string) (scenario : ScenarioName)
                     (actor : string) : M unit :=
  let preset := SCENARIO_PRESETS scenario in
  _push_update
    (mkUpdate "admin_notice"
       (DAdmin kind actor (_now now) (admin_cooldown_sec settings)
               (ScenarioName_str scenario)
               (p_event preset, p_asset preset, p_alert preset))).

(** A missing key reads as 0, and so does a text that is not a number. *)
Definition _cooldown_remaining (now : Z) : M Z :=
  raw <- query (fun r => R.get now r K_ADMIN_COOLDOWN_UNTIL) ;;
  let until_i := match raw with Some (RInt n) => n | _ => 0 end in
  ret (Z.max 0 (until_i - _now now)).

(** [actor] is [_actor_id(request)], a digest of the caller's address. *)
Definition set_scenario (now : Z) (scenario : ScenarioName) (actor : string)
  : M ScenarioReply :=
  locked <- _acquire_lock now ;;
  if negb locked
  then raise (HTTPException 409 "Admin operation busy, try again.")
  else
    rem <- _cooldown_remaining now ;;
    if 0 <? rem
    then raise (HTTPException 429
                  ("Cooldown active. Try again in " +:+ pretty rem +:+ "s."))
    else
      let preset := SCENARIO_PRESETS scenario in
      command (fun r => R.set r K_SCENARIO (RText (ScenarioName_str scenario))) ;;;
      command (fun r => R.set r K_RATE_EVENT (RInt (p_event preset))) ;;;
      command (fun r => R.set r K_RATE_ASSET (RInt (p_asset preset))) ;;;
      command (fun r => R.set r K_RATE_ALERT (RInt (p_alert preset))) ;;;
      _set_cooldown now ;;;
      _announce now "scenario_changed" scenario actor ;;;
      ret (mkReply true scenario preset (admin_cooldown_sec settings)).

End Admin.

(** ** routes/stream.py *)

Inductive FrameData : Type :=
| FHello (ts : Z)
| FHeartbeat (t : Z)
| FData (d : UpdateData).

(** The [retry:] line, and [sse(event, data)]. *)
Inductive Frame : Type :=
| Retry (ms : Z)
| Sse (event : string) (data : FrameData).

(** The variables the generator [gen] keeps between two polls. *)
Record Reader : Type := mkReader {
  last_idx : Z;
  last_heartbeat : Z
}.

(** [stream()]: the cursor is the length of the log at connection. *)
Definition stream (r : Redis) : Z := Z.of_nat (length (updates r)).

(** [gen] up to its loop. *)
Definition gen_start (now : Z) (cursor : Z) : list Frame * Reader :=
  ([Retry 2000; Sse "hello" (FHello now)], mkReader cursor now).

(** One turn of the loop of [gen], between two sleeps. *)
Definition gen_poll (now : Z) (r : Redis) (rd : Reader) : list Frame * Reader :=
  let len := Z.of_nat (length (updates r)) in
  let '(items, idx) :=
    if last_idx rd <? len
    then (R.range (updates r) (last_idx rd) (len - 1), len)
    else ([], last_idx rd) in
  let frames := map (fun payload => Sse (u_type payload) (FData (u_data payload))) items in
  let '(beat, last) :=
    if 10000 <=? now - last_heartbeat rd
    then ([Sse "heartbeat" (FHeartbeat now)], now)
    else ([], last_heartbeat rd) in
  (frames ++ beat, mkReader idx last).

(** ** What the statements below talk about *)

(** The event an alert tick reads: the payload under the id at the tail
    of [events:list]. *)
Definition latest_event (now : Z) (r : Redis) : option Event :=
  if R.llen r K_EVENTS =? 0 then None
  else match R.get now r ("event:" +:+ str_opt (R.lindex r K_EVENTS (-1))) with
       | Some (REvent e) => Some e
       | _ => None
       end.

(** The message, the fingerprint and the key of the marker that
    [generate_alert] derives from an event and its priority. *)
Definition alert_message (et : string) : string :=
  if String.eqb et "comms" then "Communications anomaly detected"
  else if String.eqb et "movement" then "Unusual movement pattern near asset"
  else if String.eqb et "incident" then "Incident reported near monitored corridor"
  else if String.eqb et "weather" then "Weather risk impacting operational area"
  else "Correlation rule triggered".

Definition alert_fingerprint (prio : AlertPriority) (evt : Event) : string :=
  AlertPriority_str prio +:+ ":" +:+ event_id evt +:+ ":"
  +:+ str_opt (meta_asset_id (meta evt)) +:+ ":" +:+ alert_message (ev_type evt).

Definition dedup_key (py_hash : string -> Z) (fp : string) : string :=
  "dedup:alert:" +:+ pretty (py_hash fp).

(** The severities that map to a priority. *)
Definition priority_for (s : Severity) (p : AlertPriority) : Prop :=
  (s = critical /\ p = p1) \/ (s = high /\ p = p2).

(** One hop of a route: the next waypoint is the previous one moved by
    deltas within 1.2 and 1.8 degrees, then clamped into the region. *)
Definition hop (p q : Waypoint) : Prop :=
  exists d_lat d_lon,
    in_range (-1.2)%float 1.2%float d_lat = true /\
    in_range (-1.8)%float 1.8%float d_lon = true /\
    q = (clamp (fst p + d_lat)%float 35%float 60%float,
         clamp (snd p + d_lon)%float (-10)%float 30%float).

Fixpoint hop_chain (p : Waypoint) (rt : list Waypoint) : Prop :=
  match rt with
  | [] => True
  | q :: rt' => hop p q /\ hop_chain q rt'
  end.

Definition waypoint_in_region (q : Waypoint) : Prop :=
  lat_ok (fst q) = true /\ lon_ok (snd q) = true.

(** An oracle that answers every call with the least value allowed. *)
Definition rng_least : Rng :=
  mkRng (fun _ a _ => a) (fun _ => 0%float) (fun _ a _ => a) (fun _ _ => 0%nat)
        (fun _ population k => take (Z.to_nat k) population)
        (fun _ => "00000000000000000000000000000000") 0.

(** An oracle like [rng_least] whose hex strings differ from call to call,
    so that ids do. *)
Definition rng_serial : Rng :=
  mkRng (fun _ a _ => a) (fun _ => 0%float) (fun _ a _ => a) (fun _ _ => 0%nat)
        (fun _ population k => take (Z.to_nat k) population)
        (fun k => pretty (Z.of_nat k) +:+ "0000000000000000000000000000000") 0.

(** The region invariant of an asset, and of every asset payload of a store. *)
Definition asset_in_region (a : Asset) : Prop :=
  lat_ok (lat a) = true /\ lon_ok (lon a) = true.

Definition blobs_ok (phi : string -> Asset -> Prop) (r : Redis) : Prop :=
  forall key e a, strs r !! key = Some e -> e_val e = RAsset a -> phi key a.

Definition assets_in_region (r : Redis) : Prop :=
  blobs_ok (fun _ => asset_in_region) r.

(** The step of an asset, in degrees, by its type. *)
Definition step_deg_of (a : Asset) : float :=
  if bool_decide (asset_type a ∈ ["drone"; "vehicle"]) then 0.03%float else 0.02%float.

(** What a motion tick at [now] persists for the asset [old] it read: the
    target is the waypoint of the route of [old] at its route index (of a
    new route from the position of [old], at index 0, when the index is
    past the end); the position is that of [old] moved towards the target
    by the step of its type, plus a jitter within 0.004 degrees on each
    coordinate, then clamped into the region; the index advances on
    arrival; id, name, type, team and speed are those of [old]. *)
Definition stepped (pow_half : float -> float) (now : Z) (old a : Asset) : Prop :=
  exists rt idx t_lat t_lon m_lat m_lon arrived j_lat j_lon,
    (if Z.of_nat (length (route old)) <=? route_idx old
     then head rt = Some (lat old, lon old) /\ (2 <= length rt)%nat /\ idx = 0
     else rt = route old /\ idx = route_idx old) /\
    py_index rt idx = Ok (t_lat, t_lon) /\
    move_towards pow_half (lat old) (lon old) t_lat t_lon (step_deg_of old)
    = Ok (m_lat, m_lon, arrived) /\
    in_range (-0.004)%float 0.004%float j_lat = true /\
    in_range (-0.004)%float 0.004%float j_lon = true /\
    a = mkAsset (asset_id old) (name old) (asset_type old)
                (clamp (m_lat + j_lat)%float 35%float 60%float)
                (clamp (m_lon + j_lon)%float (-10)%float 30%float)
                (status a) now (owner_team old) rt
                (if arrived then idx + 1 else idx) (speed_kmh old).

(** The ids a motion tick works on: a sample of [min(len(ids), randint(2, 5))]
    of the ids of [assets:list], drawn after the [randint]. *)
Definition sampled (ids : list string) (g : Rng) : list string :=
  rnd_sample g (S (rnd_calls g)) ids
             (Z.min (Z.of_nat (length ids)) (rnd_randint g (rnd_calls g) 2 5)).

(** The worlds the simulation reaches: from an empty store, any sequence
    of bootstraps and of motion, event and alert ticks, at any instants,
    with a random source whose uniform draws respect their bounds. Each
    alert tick runs with the [hash] of its own process. *)
Inductive sim_state (pow_half : float -> float) (py_round : float -> Z -> float)
  : World -> Prop :=
| sim_fresh (g : Rng) :
    uniform_ok g -> sim_state pow_half py_round (mkWorld redis_empty g)
| sim_bootstrap (now n : Z) (w : World) :
    sim_state pow_half py_round w ->
    sim_state pow_half py_round (snd (bootstrap_assets py_round now n w))
| sim_update (now : Z) (w : World) :
    sim_state pow_half py_round w ->
    sim_state pow_half py_round (snd (update_assets pow_half now w))
| sim_event (now : Z) (w : World) :
    sim_state pow_half py_round w ->
    sim_state pow_half py_round (snd (generate_event py_round now w))
| sim_alert (py_hash : string -> Z) (now : Z) (w : World) :
    sim_state pow_half py_round w ->
    sim_state pow_half py_round (snd (generate_alert py_hash now w)).

(** A computation keeps an invariant of the random source and of the asset
    payloads, whether it returns or raises, and returns values in [Q]. *)
Definition inv (G : Rng -> Prop) (phi : string -> Asset -> Prop) (w : World) : Prop :=
  G (rng w) /\ blobs_ok phi (redis w).

Definition keeps (G : Rng -> Prop) (phi : string -> Asset -> Prop)
    {A : Type} (m : M A) (Q : A -> Prop) : Prop :=
  forall w, inv G phi w ->
    inv G phi (snd (m w)) /\ forall a, fst (m w) = Ok a -> Q a.

(** A store with one asset at the south-west corner of the region. *)
Definition sample_asset : Asset :=
  mkAsset "ast_a1" "Asset-000" "sensor" 35%float (-10)%float active 0 "blue"
          [(35%float, (-10)%float); (36%float, (-9)%float); (37%float, (-8)%float)]
          0 40%float.

Definition sample_world : World :=
  mkWorld (mkRedis {[ "asset:ast_a1" := mkEntry (RAsset sample_asset) None ]}
                   {[ K_ASSETS := ["ast_a1"] ]} [])
          rng_least.

(** A store whose latest event is of medium severity, and one whose latest
    event is critical. *)
Definition sample_event (sev : Severity) : Event :=
  mkEvent "evt_e1" 0 35.5%float (-9.5)%float "comms" sev "synthetic" 0.75%float
          (mkMeta (Some "ast_a1") "blue").

Definition sample_event_world (sev : Severity) : World :=
  mkWorld (mkRedis {[ "event:evt_e1" := mkEntry (REvent (sample_event sev)) None ]}
                   {[ K_EVENTS := ["evt_e1"] ]} [])
          rng_least.

(** The alert a tick creates for an event it reads with a priority. *)
Definition alert_of (now : Z) (w : World) (prio : AlertPriority) (evt : Event) : Alert :=
  mkAlert ("alr" +:+ "_" +:+ String.substring 0 10 (rnd_hex (rng w) (rnd_calls (rng w))))
          now prio
          (alert_message (ev_type evt) +:+ " (sev=" +:+ Severity_str (severity evt) +:+ ")")
          (Some (event_id evt)) (meta_asset_id (meta evt))
          (alert_fingerprint prio evt) (Some (now + 5 * 60 * 1000)).

(** The two refusals of the admin routes. *)
Definition busy : exn := HTTPException 409 "Admin operation busy, try again.".
Definition cooling (rem : Z) : exn :=
  HTTPException 429 ("Cooldown active. Try again in " +:+ pretty rem +:+ "s.").

(** The store after a [set_scenario] that went through. *)
Definition scenario_applied (settings : Settings) (now : Z) (scenario : ScenarioName)
    (actor : string) (r : Redis) : Redis :=
  let preset := SCENARIO_PRESETS scenario in
  mkRedis
    (<[K_ADMIN_COOLDOWN_UNTIL := mkEntry (RInt (_now now + admin_cooldown_sec settings)) None]>
       (<[K_RATE_ALERT := mkEntry (RInt (p_alert preset)) None]>
          (<[K_RATE_ASSET := mkEntry (RInt (p_asset preset)) None]>
             (<[K_RATE_EVENT := mkEntry (RInt (p_event preset)) None]>
                (<[K_SCENARIO := mkEntry (RText (ScenarioName_str scenario)) None]>
                   (<[K_ADMIN_LOCK := mkEntry (RText "1")
                                              (Some (now + 1000 * admin_lock_sec settings))]>
                      (strs r)))))))
    (lists r)
    (R.range (updates r ++
              [mkUpdate "admin_notice"
                 (DAdmin "scenario_changed" actor (_now now) (admin_cooldown_sec settings)
                         (ScenarioName_str scenario)
                         (p_event preset, p_asset preset, p_alert preset))])
             (-500) (-1)).

Definition cooldown_left (now : Z) (r : Redis) : Z :=
  Z.max 0 (match R.get now r K_ADMIN_COOLDOWN_UNTIL with
           | Some (RInt n) => n
           | _ => 0
           end - _now now).

(** The frame [gen] emits for an entry of the log. *)
Definition frame_of (payload : Update) : Frame :=
  Sse (u_type payload) (FData (u_data payload)).

Definition full_log : list Update :=
  replicate 500 (mkUpdate "bootstrap" (DBootstrap 60)).

Definition full_world : World := mkWorld (mkRedis ∅ ∅ full_log) rng_least.

Definition late_update : Update := mkUpdate "asset_updated" (DAsset sample_asset).

(** ** Further definitions: routes, rates, connections *)

(** The severity an event gets from the status of its asset. *)
Definition severity_for (st : AssetStatus) : Severity :=
  match st with active => low | degraded => medium | offline => critical end.

(** The event types [generate_event] chooses from, by asset type and
    status. *)
Definition event_types_for (a_type : string) (st : AssetStatus) : list string :=
  match st with
  | offline => ["comms"; "anomaly"; "incident"]
  | _ =>
      if String.eqb a_type "relay" then ["comms"; "anomaly"; "movement"]
      else if String.eqb a_type "vehicle" then ["movement"; "incident"; "anomaly"]
      else if String.eqb a_type "drone" then ["movement"; "anomaly"; "weather"]
      else ["incident"; "movement"; "anomaly"; "weather"]
  end.

(** The store after [generate_event] has created [evt]. *)
Definition event_stored (evt : Event) (r : Redis) : Redis :=
  R.ltrim_updates
    (R.rpush_updates
       (R.ltrim (R.rpush (R.set r ("event:" +:+ event_id evt) (REvent evt))
                         K_EVENTS (event_id evt))
                K_EVENTS (-300) (-1))
       (mkUpdate "event_created" (DEvent evt)))
    (-500) (-1).

(** What the library promises of [random.choice] on a sequence that is not
    empty: an item of it. *)
Definition pick_ok (g : Rng) : Prop :=
  forall k len, (0 < len)%nat -> (rnd_pick g k len < len)%nat.

(** An asset as [bootstrap_assets] makes it at [now]. *)
Definition fresh_asset (now : Z) (a : Asset) : Prop :=
  status a = active /\ route_idx a = 0 /\ last_update a = now /\
  asset_type a ∈ ["sensor"; "vehicle"; "relay"; "drone"] /\
  owner_team a ∈ ["blue"; "green"; "white"] /\
  head (route a) = Some (lat a, lon a) /\
  (2 <= length (route a))%nat /\
  Forall waypoint_in_region (route a) /\
  asset_in_region a.

(** Every id of [assets:list] has its payload, made at [now]. *)
Definition fleet_fresh (now : Z) (r : Redis) : Prop :=
  forall id, id ∈ R.items r K_ASSETS ->
    exists a, strs r !! ("asset:" +:+ id) = Some (mkEntry (RAsset a) None) /\
              asset_id a = id /\ fresh_asset now a.

(** What a motion tick never changes in an asset. *)
Definition identity (a : Asset) : string * string * string * string * float :=
  (asset_id a, name a, asset_type a, owner_team a, speed_kmh a).

(** The store after [update_assets] has written [a] back under [key]. *)
Definition asset_stored (key : string) (a : Asset) (r : Redis) : Redis :=
  R.ltrim_updates
    (R.rpush_updates (R.set r key (RAsset a)) (mkUpdate "asset_updated" (DAsset a)))
    (-500) (-1).

(** An entry that held an asset holds the same asset, moved. *)
Definition asset_moved (e e' : entry) : Prop :=
  exists a a', e_val e = RAsset a /\ e' = mkEntry (RAsset a') None /\
               identity a' = identity a /\ asset_in_region a'.

(** Two stores with the same lists where every key holds what it held, or
    the asset it held, moved. *)
Definition fleet_kept (r r' : Redis) : Prop :=
  lists r' = lists r /\
  forall key,
    strs r' !! key = strs r !! key \/
    exists e e', strs r !! key = Some e /\ strs r' !! key = Some e' /\ asset_moved e e'.

(** A computation that leaves the store alone. *)
Definition quiet {A : Type} (m : M A) : Prop :=
  forall w, redis (snd (m w)) = redis w.

(** A computation that, run on the store [r0], leaves it as it is or ends
    by writing an asset that satisfies [P] back under [key]. *)
Definition ends (r0 : Redis) (key : string) (P : Asset -> Prop) {A : Type}
    (m : M A) : Prop :=
  forall w, redis w = r0 ->
    redis (snd (m w)) = r0 \/
    exists a', P a' /\ redis (snd (m w)) = asset_stored key a' r0.

(** ** routes/_common.py and the list routes *)

Section Routes.

(** [json.loads] on a text that is not one of the payloads the store keeps
    decoded: it is a parameter. *)
Variable loads_text : string -> outcome rval.

Definition json_loads (raw : rval) : outcome rval :=
  match raw with
  | RText s => loads_text s
  | v => Ok v
  end.

(** The loop of [fetch_items_by_ids], [out] being the list built so far. *)
Fixpoint fetch_loop (now : Z) (key_prefix : string) (ids : list string)
    (out : list rval) : M (list rval) :=
  match ids with
  | [] => ret out
  | _id :: ids' =>
      raw <- query (fun r => R.get now r (key_prefix +:+ ":" +:+ _id)) ;;
      match truthy raw with
      | Some raw =>
          item <- lift (json_loads raw) ;;
          fetch_loop now key_prefix ids' (out ++ [item])
      | None => fetch_loop now key_prefix ids' out
      end
  end.

Definition fetch_items_by_ids (now : Z) (ids : list string) (key_prefix : string)
  : M (list rval) :=
  fetch_loop now key_prefix ids [].

(** [limit] is between 1 and 300 (1000 for assets): the route is not
    entered otherwise. *)
Definition list_events (now limit : Z) : M (list rval) :=
  total <- query (fun r => R.llen r K_EVENTS) ;;
  if total <=? 0 then ret []
  else
    ids <- query (fun r => R.lrange r K_EVENTS (- limit) (-1)) ;;
    let ids := reverse ids in
    fetch_items_by_ids now ids "event".

Definition list_assets (now limit : Z) : M (list rval) :=
  total <- query (fun r => R.llen r K_ASSETS) ;;
  if total <=? 0 then ret []
  else
    let end_ := Z.min (limit - 1) (total - 1) in
    ids <- query (fun r => R.lrange r K_ASSETS 0 end_) ;;
    fetch_items_by_ids now ids "asset".

Definition list_alerts (now limit : Z) : M (list rval) :=
  total <- query (fun r => R.llen r K_ALERTS) ;;
  if total <=? 0 then ret []
  else
    ids <- query (fun r => R.lrange r K_ALERTS (- limit) (-1)) ;;
    let ids := reverse ids in
    fetch_items_by_ids now ids "alert".

End Routes.

(** ** main.py: the rate a loop sleeps for *)

Section Rates.

(** [int(v)] on a text: the number it spells, or nothing where Python
    raises. *)
Variable py_int : string -> option Z.

(** [_get_rate(redis_key, default)]: a stored object is a JSON text, which
    spells no number. *)
Definition _get_rate (now : Z) (redis_key : string) (default : Z) : M Z :=
  v <- query (fun r => R.get now r redis_key) ;;
  ret (match v with
       | None => default
       | Some (RInt n) => Z.max 1 n
       | Some (RText s) => from_option (Z.max 1) default (py_int s)
       | Some _ => default
       end).

End Rates.

(** ** routes/admin.py: the state query *)

Record AdminState : Type := mkAdminState {
  st_scenario : ScenarioName;
  st_rates : Preset;
  st_cooldown_remaining : Z
}.

(** [scenario in SCENARIO_PRESETS], with the preset it names. *)
Definition scenario_named (s : string) : option ScenarioName :=
  if String.eqb s "normal" then Some normal
  else if String.eqb s "stress" then Some stress
  else if String.eqb s "incident" then Some incident
  else None.

Section AdminState.

(** [s.strip().lower()] and [int(s.strip())] on texts. *)
Variable str_strip_lower : string -> string.
Variable py_int : string -> option Z.

(** [_get_int(key, fallback)] inside [admin_state]: the empty text and a
    text that spells no number give the fallback. *)
Definition _get_int (now : Z) (key : string) (fallback : Z) : M Z :=
  v <- query (fun r => R.get now r key) ;;
  ret (match v with
       | Some (RInt n) => n
       | Some (RText s) => default fallback (py_int s)
       | _ => fallback
       end).

(** A missing key reads as "normal"; a JSON object is no preset name. *)
Definition admin_state (now : Z) : M AdminState :=
  raw <- query (fun r => R.get now r K_SCENARIO) ;;
  let text :=
    match raw with
    | None => Some "normal"
    | Some (RText s) => Some s
    | Some (RInt n) => Some (pretty n)
    | Some _ => None
    end in
  let scenario :=
    match text with
    | Some s => default normal (scenario_named (str_strip_lower s))
    | None => normal
    end in
  event <- _get_int now K_RATE_EVENT (p_event (SCENARIO_PRESETS scenario)) ;;
  asset <- _get_int now K_RATE_ASSET (p_asset (SCENARIO_PRESETS scenario)) ;;
  alert <- _get_int now K_RATE_ALERT (p_alert (SCENARIO_PRESETS scenario)) ;;
  rem <- _cooldown_remaining now ;;
  ret (mkAdminState scenario (mkPreset event asset alert) rem).

End AdminState.

(** ** routes/stream.py: a connection *)

(** The loop of [gen], turn after turn: each poll happens at an instant and
    sees the store as it is then. *)
Fixpoint gen_loop (polls : list (Z * Redis)) (rd : Reader) : list Frame * Reader :=
  match polls with
  | [] => ([], rd)
  | (now, r) :: rest =>
      let '(frames, rd1) := gen_poll now r rd in
      let '(more, rd2) := gen_loop rest rd1 in
      (frames ++ more, rd2)
  end.

(** What a client receives: [stream()] takes the cursor at [now] from the
    store [r], then [gen] runs. *)
Definition connection (now : Z) (r : Redis) (polls : list (Z * Redis))
  : list Frame * Reader :=
  let '(first, rd) := gen_start now (stream r) in
  let '(more, rd1) := gen_loop polls rd in
  (first ++ more, rd1).

(** The frames that carry an entry of the log, and the instants of the
    heartbeats. *)
Definition is_data (f : Frame) : bool :=
  match f with Sse _ (FData _) => true | _ => false end.

Definition data_frames (fs : list Frame) : list Frame := List.filter is_data fs.

Definition beat_of (f : Frame) : option Z :=
  match f with Sse _ (FHeartbeat t) => Some t | _ => None end.

Definition beats (fs : list Frame) : list Z := omap beat_of fs.

(** Instants at least ten seconds apart, the first one from [since]. *)
Fixpoint spaced (since : Z) (ts : list Z) : Prop :=
  match ts with
  | [] => True
  | t :: rest => since + 10000 <= t /\ spaced t rest
  end.

(** A log that only grows from [log]: the store of each poll holds the log
    of the poll before plus the entries of [news] appended meanwhile. *)
Fixpoint grows (log : list Update) (polls : list (Z * Redis))
    (news : list (list Update)) : Prop :=
  match polls, news with
  | [], [] => True
  | (_, r) :: polls', new :: news' =>
      updates r = log ++ new /\ grows (updates r) polls' news'
  | _, _ => False
  end.

(** The payload keys hold payloads of their kind, and no asset has a
    negative route index. *)
Definition well_typed (r : Redis) : Prop :=
  (forall id e, strs r !! ("asset:" +:+ id) = Some e ->
     exists a, e_val e = RAsset a /\ 0 <= route_idx a) /\
  (forall id e, strs r !! ("event:" +:+ id) = Some e ->
     exists ev, e_val e = REvent ev).

(** What is asked of [round(x, 2)]: a confidence drawn in [0.60, 0.95] is
    still in [0, 1] once rounded. *)
Definition round_ok (py_round : float -> Z -> float) : Prop :=
  forall x, Py.le 0.60%float x = true -> Py.le x 0.95%float = true ->
    Py.ge (py_round x 2) 0%float = true /\ Py.le (py_round x 2) 1%float = true.

(** A computation that keeps the store well typed, whether it ends or
    fails. *)
Definition wt_keeps {A : Type} (m : M A) : Prop :=
  forall w, well_typed (redis w) -> well_typed (redis (snd (m w))).

(** * Properties *)

(** ** Comparisons of floats *)

Section FloatFacts.

Local Open Scope float_scope.

Lemma ltb_leb (x y : float) : (x <? y) = true -> (x <=? y) = true.
Proof.
  rewrite FloatAxioms.ltb_spec, FloatAxioms.leb_spec. unfold SFltb, SFleb.
  destruct (SFcompare _ _) as [[]|]; congruence.
Qed.

(** A float equal to zero is below any positive one. *)
Lemma zero_leb_pos (d s : float) :
  (0 <? s) = true -> (d =? 0) = true -> (d <=? s) = true.
Proof.
  rewrite FloatAxioms.ltb_spec, FloatAxioms.eqb_spec, FloatAxioms.leb_spec. unfold SFltb, SFeqb, SFleb.
  change (Prim2SF 0) with (S754_zero false).
  destruct (Prim2SF d) as [[]|[]| |[] ? ?], (Prim2SF s) as [[]|[]| |[] ? ?];
    simpl; congruence.
Qed.

(** What [is_finite] says of the representation. *)
Lemma is_finite_SF (x : float) :
  is_finite x = true ->
  (exists s, Prim2SF x = S754_zero s) \/ (exists s m e, Prim2SF x = S754_finite s m e).
Proof.
  unfold is_finite, is_nan, is_infinity.
  rewrite !FloatAxioms.eqb_spec, FloatAxioms.abs_spec.
  change (Prim2SF infinity) with (S754_infinity false).
  destruct (Prim2SF x) as [s|s| |s m e]; simpl.
  - intros _. left. now exists s.
  - destruct s; discriminate.
  - discriminate.
  - intros _. right. now exists s, m, e.
Qed.

(** Rounding to nearest: a finite float minus itself is [+0]. *)
Lemma sub_diag_finite (x : float) : is_finite x = true -> x - x = 0.
Proof.
  intros Hx. apply Prim2SF_inj. rewrite FloatAxioms.sub_spec.
  change (Prim2SF 0) with (S754_zero false).
  destruct (is_finite_SF x Hx) as [[s ->]|(s & m & e & ->)].
  - now destruct s.
  - unfold SF64sub, SFsub. rewrite Z.sub_diag. reflexivity.
Qed.

End FloatFacts.

(** [clamp] lands between its bounds whatever it is given, a NaN included. *)
Lemma clamp_bounds (lo hi v : float) :
  Py.le lo lo = true -> Py.le lo hi = true -> Py.le hi hi = true ->
  in_range lo hi (clamp v lo hi) = true.
Proof.
  intros Hlo Hlh Hhi. unfold in_range, clamp, Py.max, Py.min, Py.gt, Py.lt, Py.le in *.
  destruct (PrimFloat.ltb v hi) eqn:E1.
  - destruct (PrimFloat.ltb lo v) eqn:E2.
    + now rewrite (ltb_leb _ _ E1), (ltb_leb _ _ E2).
    + now rewrite Hlo, Hlh.
  - destruct (PrimFloat.ltb lo hi) eqn:E2.
    + now rewrite Hlh, Hhi.
    + now rewrite Hlo, Hlh.
Qed.

Lemma clamp_lat_ok (v : float) : lat_ok (clamp v 35%float 60%float) = true.
Proof. now apply clamp_bounds. Qed.

Lemma clamp_lon_ok (v : float) : lon_ok (clamp v (-10)%float 30%float) = true.
Proof. now apply clamp_bounds. Qed.

(** ** Severity bands *)

(** C2 (as amended): [_risk_to_severity] follows the table with inclusive
    lower bounds: at least 0.80 is critical, otherwise at least 0.60 is
    high, otherwise at least 0.35 is medium, and anything else is low (a
    NaN too). So 0.80 is critical, 0.79 is high, 0.60 is high, 0.59 is
    medium, 0.35 is medium and 0.34 is low. *)
Theorem severity_bands :
  (forall risk, Py.ge risk 0.80%float = true -> _risk_to_severity risk = critical) /\
  (forall risk, Py.ge risk 0.80%float = false -> Py.ge risk 0.60%float = true ->
     _risk_to_severity risk = high) /\
  (forall risk, Py.ge risk 0.80%float = false -> Py.ge risk 0.60%float = false ->
     Py.ge risk 0.35%float = true -> _risk_to_severity risk = medium) /\
  (forall risk, Py.ge risk 0.80%float = false -> Py.ge risk 0.60%float = false ->
     Py.ge risk 0.35%float = false -> _risk_to_severity risk = low) /\
  _risk_to_severity 0.80%float = critical /\
  _risk_to_severity 0.79%float = high /\
  _risk_to_severity 0.60%float = high /\
  _risk_to_severity 0.59%float = medium /\
  _risk_to_severity 0.35%float = medium /\
  _risk_to_severity 0.34%float = low.
Proof.
  unfold _risk_to_severity.
  repeat split; try reflexivity; intros risk; intros; repeat case_match; congruence.
Qed.

Lemma severity_bands_witness :
  _risk_to_severity 0.85%float = critical /\ _risk_to_severity 0.7%float = high.
Proof.
  split.
  - apply (proj1 severity_bands). reflexivity.
  - apply (proj1 (proj2 severity_bands)); reflexivity.
Defined.

(** C2 as it is written fails: a risk of 0.79 is high, not medium. *)
Lemma severity_079_is_not_medium : _risk_to_severity 0.79%float <> medium.
Proof. vm_compute. discriminate. Qed.

(** ** Movement *)

(** C6: for a positive step [move_towards] returns a value and never
    divides by zero. When the distance it computes is at most the step it
    returns the target with [arrived = True]; otherwise it returns the
    start advanced by the step along the direction, with [arrived = False].
    From a finite point to itself the distance is 0 and the point is
    returned as arrived ([pow] maps [+0] to [+0]). *)
Theorem move_towards_total (pow_half : float -> float)
    (a_lat a_lon b_lat b_lon step_deg : float) :
  Py.gt step_deg 0%float = true ->
  let d_lat := (b_lat - a_lat)%float in
  let d_lon := (b_lon - a_lon)%float in
  let dist := distance pow_half a_lat a_lon b_lat b_lon in
  (forall e, move_towards pow_half a_lat a_lon b_lat b_lon step_deg <> Raise e) /\
  (Py.le dist step_deg = true ->
     move_towards pow_half a_lat a_lon b_lat b_lon step_deg = Ok (b_lat, b_lon, true)) /\
  (Py.le dist step_deg = false ->
     Py.eq dist 0%float = false /\
     move_towards pow_half a_lat a_lon b_lat b_lon step_deg
     = Ok ((a_lat + d_lat / dist * step_deg)%float,
           (a_lon + d_lon / dist * step_deg)%float, false)) /\
  (pow_half 0%float = 0%float ->
   is_finite a_lat = true -> is_finite a_lon = true ->
     distance pow_half a_lat a_lon a_lat a_lon = 0%float /\
     move_towards pow_half a_lat a_lon a_lat a_lon step_deg = Ok (a_lat, a_lon, true)).
Proof.
  intros Hstep d_lat d_lon dist.
  assert (Hnz : Py.le dist step_deg = false -> Py.eq dist 0%float = false).
  { intros Hfar. destruct (Py.eq dist 0%float) eqn:Hz; [|reflexivity].
    unfold Py.le in Hfar. now rewrite (zero_leb_pos _ _ Hstep Hz) in Hfar. }
  assert (Hself : pow_half 0%float = 0%float ->
                  is_finite a_lat = true -> is_finite a_lon = true ->
                  distance pow_half a_lat a_lon a_lat a_lon = 0%float).
  { intros Hpow Hlat Hlon. unfold distance.
    rewrite (sub_diag_finite _ Hlat), (sub_diag_finite _ Hlon). exact Hpow. }
  unfold move_towards, py_div.
  fold d_lat d_lon. change (pow_half (d_lat * d_lat + d_lon * d_lon)%float) with dist.
  split; [|split; [|split]].
  - intros e. destruct (Py.le dist step_deg) eqn:Hle; [discriminate|].
    rewrite (Hnz eq_refl). discriminate.
  - now intros ->.
  - intros Hfar. split; [now apply Hnz|]. now rewrite Hfar, (Hnz Hfar).
  - intros Hpow Hlat Hlon. split; [now apply Hself|].
    pose proof (Hself Hpow Hlat Hlon) as Hd. unfold distance in Hd. cbv zeta in Hd.
    rewrite Hd. unfold Py.le. now rewrite (ltb_leb _ _ Hstep).
Qed.

Lemma move_towards_total_witness :
  move_towards PrimFloat.sqrt 40%float 10%float 41%float 10%float 0.03%float
  = Ok ((40 + (41 - 40) / 1 * 0.03)%float, (10 + (10 - 10) / 1 * 0.03)%float, false).
Proof.
  apply (move_towards_total PrimFloat.sqrt 40%float 10%float 41%float 10%float
                            0.03%float); reflexivity.
Defined.

(** ** Running the monad *)

Lemma bind_ret {A B : Type} (a : A) (k : A -> M B) (w : World) :
  bind (ret a) k w = k a w.
Proof. reflexivity. Qed.

Lemma bind_raise {A B : Type} (e : exn) (k : A -> M B) (w : World) :
  bind (raise e) k w = (Raise e, w).
Proof. reflexivity. Qed.

Lemma bind_lift_ok {A B : Type} (a : A) (k : A -> M B) (w : World) :
  bind (lift (Ok a)) k w = k a w.
Proof. reflexivity. Qed.

Lemma bind_lift_raise {A B : Type} (e : exn) (k : A -> M B) (w : World) :
  bind (lift (Raise e)) k w = (Raise e, w).
Proof. reflexivity. Qed.

Lemma bind_query {A B : Type} (f : Redis -> A) (k : A -> M B) (w : World) :
  bind (query f) k w = k (f (redis w)) w.
Proof. reflexivity. Qed.

Lemma bind_command {B : Type} (f : Redis -> Redis) (k : unit -> M B) (w : World) :
  bind (command f) k w = k tt (mkWorld (f (redis w)) (rng w)).
Proof. reflexivity. Qed.

Lemma bind_draw {A B : Type} (f : Rng -> nat -> A) (k : A -> M B) (w : World) :
  bind (draw f) k w
  = k (f (rng w) (rnd_calls (rng w))) (mkWorld (redis w) (tick_rng (rng w))).
Proof. reflexivity. Qed.

Lemma bind_assoc {A B C : Type} (m : M A) (f : A -> M B) (g : B -> M C) (w : World) :
  bind (bind m f) g w = bind m (fun a => bind (f a) g) w.
Proof. unfold bind. destruct (m w) as [[a|e] w']; reflexivity. Qed.

Lemma bind_store_json_0 {B : Type} (now : Z) (key : string) (obj : rval)
    (k : unit -> M B) (w : World) :
  bind (_store_json now key obj 0) k w
  = k tt (mkWorld (R.set (redis w) key obj) (rng w)).
Proof. reflexivity. Qed.

Lemma push_update_run (payload : Update) (w : World) :
  _push_update payload w
  = (Ok tt,
     mkWorld (R.ltrim_updates (R.rpush_updates (redis w) payload) (-500) (-1)) (rng w)).
Proof. reflexivity. Qed.

Lemma truthy_Some (raw : option rval) (v : rval) : truthy raw = Some v -> raw = Some v.
Proof. destruct raw as [[[|c s]|n|a|e|a]|]; cbn; congruence. Qed.

Create Rewrite HintDb run.
#[local] Hint Rewrite @bind_ret @bind_raise @bind_lift_ok @bind_lift_raise
  @bind_query @bind_command @bind_draw @bind_assoc @bind_store_json_0
  @push_update_run : run.

(** Symbolic execution: the head of the computation is run as far as it is
    determined. *)
Ltac run :=
  repeat (autorewrite with run; cbn beta iota;
          cbn [redis rng tick_rng rnd_uniform rnd_random rnd_randint rnd_pick
               rnd_sample rnd_hex rnd_calls]).

(** The same with the oracle [rng_least] answering. *)
Ltac run_least :=
  repeat (run; cbn [rng_least rnd_uniform rnd_random rnd_randint rnd_pick
                    rnd_sample rnd_hex rnd_calls]).

(** A branch that leaves the store as it was. *)
Ltac stop := left; reflexivity.

(** A [random.choice]: the item picked, or the end on an [IndexError]. *)
Ltac pick := run; destruct (_ !! _); run; [|stop].

(** ** Bootstrap is guarded *)

(** C10: when the list at [assets:list] is not empty, [bootstrap_assets]
    returns at once: the store and the random source are as they were, no
    asset is created, no key written, nothing appended to the update log. *)
Theorem bootstrap_assets_guarded (py_round : float -> Z -> float)
    (now n : Z) (w : World) :
  R.items (redis w) K_ASSETS <> [] ->
  bootstrap_assets py_round now n w = (Ok tt, w).
Proof.
  intros Hne. unfold bootstrap_assets. run.
  unfold R.llen. destruct (R.items (redis w) K_ASSETS) as [|x l]; [done|].
  reflexivity.
Qed.

Lemma bootstrap_assets_guarded_witness :
  bootstrap_assets (fun x _ => x) 1000 60 sample_world = (Ok tt, sample_world).
Proof.
  apply bootstrap_assets_guarded. vm_compute. discriminate.
Defined.

(** ** Alerts and priorities *)

Lemma store_json_ttl (now : Z) (key : string) (obj : rval) (ttl : Z) (w : World) :
  0 < ttl ->
  _store_json now key obj ttl w
  = (Ok tt, mkWorld (R.setex now (R.set (redis w) key obj) key ttl obj) (rng w)).
Proof.
  intros Httl. unfold _store_json. run.
  replace (negb (ttl =? 0) && (0 <? ttl)) with true
    by (symmetry; apply andb_true_iff; split; [apply negb_true_iff|]; lia).
  unfold command. cbn [redis rng]. unfold R.expire, R.get. cbn [strs R.set].
  rewrite lookup_insert_eq. reflexivity.
Qed.

Lemma store_json_no_ttl (now : Z) (key : string) (obj : rval) (w : World) :
  _store_json now key obj 0 w = (Ok tt, mkWorld (R.set (redis w) key obj) (rng w)).
Proof. reflexivity. Qed.

Lemma bind_store_json_ttl {B : Type} (now : Z) (key : string) (obj : rval)
    (ttl : Z) (k : unit -> M B) (w : World) :
  0 < ttl ->
  bind (_store_json now key obj ttl) k w
  = k tt (mkWorld (R.setex now (R.set (redis w) key obj) key ttl obj) (rng w)).
Proof. intros Httl. unfold bind at 1. now rewrite store_json_ttl. Qed.

(** C4: an alert is created only for a severity that maps to a priority:
    critical gives p1 and high gives p2, medium and low give none. On a
    medium or low event the tick returns normally and leaves the store and
    the random source as they were. Whenever a tick changes anything, the
    event it read was critical or high and the alert it stored has the
    matching priority. *)
Theorem alert_only_for_priority (py_hash : string -> Z) (now : Z) (w : World) :
  (forall evt,
     _event_to_priority evt
     = match severity evt with
       | critical => Some p1 | high => Some p2 | medium => None | low => None
       end) /\
  (forall evt,
     latest_event now (redis w) = Some evt ->
     severity evt = medium \/ severity evt = low ->
     generate_alert py_hash now w = (Ok tt, w)) /\
  (snd (generate_alert py_hash now w) = w \/
   exists evt prio a,
     latest_event now (redis w) = Some evt /\
     _event_to_priority evt = Some prio /\
     priority_for (severity evt) prio /\
     priority a = prio /\
     related_event_id a = Some (event_id evt) /\
     fst (generate_alert py_hash now w) = Ok tt /\
     strs (redis (snd (generate_alert py_hash now w))) !! ("alert:" +:+ alert_id a)
     = Some (mkEntry (RAlert a) (Some (now + 1000 * 600)))).
Proof.
  split; [|split].
  - intros evt. unfold _event_to_priority. now destruct (severity evt).
  - intros evt Hlatest Hsev. unfold latest_event in Hlatest.
    unfold generate_alert. run.
    destruct (R.llen (redis w) K_EVENTS =? 0); [discriminate|]. run.
    destruct (R.get now (redis w) _) as [[s|n|a|e|a]|]; try discriminate.
    injection Hlatest as ->. cbn [truthy loads_event]. run.
    unfold _event_to_priority. now destruct Hsev as [-> | ->].
  - unfold generate_alert, latest_event. run.
    destruct (R.llen (redis w) K_EVENTS =? 0); [now left|]. run.
    destruct (R.get now (redis w) _) as [[s|n|a|evt|a]|];
      cbn [truthy loads_event]; run; try (now left).
    { destruct s as [|c s]; now left. }
    destruct (_event_to_priority evt) as [prio|] eqn:Hprio; [|now left].
    run. destruct (R.exists_ now (redis w) _); [now left|]. run.
    unfold uid. run.
    rewrite bind_store_json_ttl by lia. run.
    cbn [fst snd redis strs R.rpush R.ltrim R.rpush_updates R.ltrim_updates
         R.setex R.set].
    right. eexists evt, prio, _. split_and!; cycle 6.
    { rewrite lookup_insert_eq. reflexivity. }
    all: try reflexivity; try exact Hprio.
    unfold _event_to_priority in Hprio. unfold priority_for.
    destruct (severity evt); try discriminate; injection Hprio as <-; auto.
Qed.

Lemma alert_only_for_priority_witness :
  generate_alert (fun _ => 0) 1000 (sample_event_world medium)
  = (Ok tt, sample_event_world medium).
Proof.
  apply (proj1 (proj2 (alert_only_for_priority (fun _ => 0) 1000
                         (sample_event_world medium))) (sample_event medium)).
  - vm_compute. reflexivity.
  - left. reflexivity.
Defined.

(** ** Routes *)

Lemma uniform_ok_tick (g : Rng) : uniform_ok g -> uniform_ok (tick_rng g).
Proof. intros H k a b. apply H. Qed.

Lemma le_refl_of_le (a b : float) : Py.le a b = true -> Py.le a a = true.
Proof.
  unfold Py.le. rewrite !FloatAxioms.leb_spec. unfold SFleb.
  destruct (Prim2SF a) as [[]|[]| |[] m e], (Prim2SF b) as [[]|[]| |[] m' e'];
    simpl; try congruence; intros _;
    rewrite Z.compare_refl, Pos.compare_cont_refl; reflexivity.
Qed.

Lemma rng_least_uniform_ok : uniform_ok rng_least.
Proof.
  intros k a b Hab. cbn [rnd_uniform rng_least]. split; [|exact Hab].
  exact (le_refl_of_le a b Hab).
Qed.

Lemma route_hops_spec (hops : nat) :
  forall (cur_lat cur_lon : float) (w : World),
    uniform_ok (rng w) ->
    exists rest w',
      route_hops hops cur_lat cur_lon w = (Ok rest, w') /\
      redis w' = redis w /\ uniform_ok (rng w') /\
      length rest = hops /\
      hop_chain (cur_lat, cur_lon) rest /\
      Forall waypoint_in_region rest.
Proof.
  induction hops as [|hops IH]; intros cur_lat cur_lon w Hg.
  - exists [], w. cbn. split_and!; auto.
  - cbn [route_hops]. unfold Random.uniform. rewrite !bind_draw. cbn beta iota.
    set (d_lat := rnd_uniform (rng w) (rnd_calls (rng w)) (-1.2)%float 1.2%float).
    set (w1 := mkWorld (redis w) (tick_rng (rng w))).
    set (d_lon := rnd_uniform (rng w1) (rnd_calls (rng w1)) (-1.8)%float 1.8%float).
    set (w2 := mkWorld (redis w1) (tick_rng (rng w1))).
    set (q_lat := clamp (cur_lat + d_lat)%float 35%float 60%float).
    set (q_lon := clamp (cur_lon + d_lon)%float (-10)%float 30%float).
    assert (Hg2 : uniform_ok (rng w2)) by (do 2 apply uniform_ok_tick; exact Hg).
    destruct (IH q_lat q_lon w2 Hg2) as (rest & w' & Hrun & Hr & Hg' & Hlen & Hch & Hin).
    exists ((q_lat, q_lon) :: rest), w'.
    unfold bind at 1. rewrite Hrun. cbn [ret].
    split; [reflexivity|]. split; [exact Hr|]. split; [exact Hg'|].
    split; [cbn; now rewrite Hlen|]. split.
    + cbn [hop_chain]. split; [|exact Hch]. exists d_lat, d_lon.
      destruct (Hg (rnd_calls (rng w)) (-1.2)%float 1.2%float eq_refl) as [H1 H2].
      assert (Hg1 : uniform_ok (rng w1)) by (apply uniform_ok_tick; exact Hg).
      destruct (Hg1 (rnd_calls (rng w1)) (-1.8)%float 1.8%float eq_refl) as [H3 H4].
      unfold in_range. fold d_lat in H1, H2. fold d_lon in H3, H4.
      rewrite H1, H2, H3, H4. auto.
    + constructor; [|exact Hin]. split; [apply clamp_lat_ok|apply clamp_lon_ok].
Qed.

(** C8 (as amended): with draws of [random.uniform] inside their bounds,
    [random_route(lat, lon, n)] returns [max(n, 2)] waypoints, so exactly
    [n] of them for [n >= 2]; the first one is [(lat, lon)] as given; every
    later waypoint is its predecessor moved by a delta within 1.2 degrees
    of latitude and 1.8 of longitude and then clamped into the region, and
    so lies in the region. The store is not touched. *)
Theorem random_route_shape (lat lon : float) (n : Z) (w : World) :
  uniform_ok (rng w) ->
  exists rest w',
    random_route lat lon n w = (Ok ((lat, lon) :: rest), w') /\
    redis w' = redis w /\
    Z.of_nat (length ((lat, lon) :: rest)) = Z.max 2 n /\
    (2 <= n -> Z.of_nat (length ((lat, lon) :: rest)) = n) /\
    hop_chain (lat, lon) rest /\
    Forall waypoint_in_region rest.
Proof.
  intros Hg. unfold random_route.
  destruct (route_hops_spec (Z.to_nat (Z.max 1 (n - 1))) lat lon w Hg)
    as (rest & w' & Hrun & Hr & _ & Hlen & Hch & Hin).
  exists rest, w'. unfold bind. rewrite Hrun. cbn [ret].
  split; [reflexivity|]. split; [exact Hr|].
  cbn [length]. rewrite Hlen.
  split; [lia|]. split; [lia|]. split; assumption.
Qed.

Lemma random_route_shape_witness :
  exists rest w',
    random_route 40%float 10%float 4 (mkWorld redis_empty rng_least)
    = (Ok ((40%float, 10%float) :: rest), w') /\
    redis w' = redis_empty /\
    Z.of_nat (length ((40%float, 10%float) :: rest)) = 4.
Proof.
  destruct (random_route_shape 40%float 10%float 4 (mkWorld redis_empty rng_least)
              rng_least_uniform_ok)
    as (rest & w' & Hrun & Hr & Hlen & _).
  exists rest, w'. auto.
Defined.

(** C8 as it is written fails for [n = 1]: the route has two waypoints. *)
Lemma random_route_n1_has_two_waypoints :
  exists rt,
    fst (random_route 40%float 10%float 1 (mkWorld redis_empty rng_least)) = Ok rt /\
    length rt = 2%nat /\ Z.of_nat (length rt) <> 1.
Proof. eexists. split; [reflexivity|]. split; [reflexivity|]. cbn. lia. Qed.

(** ** Invariants of the asset payloads *)

Section Keeps.

Variable G : Rng -> Prop.
Variable phi : string -> Asset -> Prop.
Hypothesis G_tick : forall g, G g -> G (tick_rng g).

Lemma keeps_ret {A : Type} (a : A) (Q : A -> Prop) : Q a -> keeps G phi (ret a) Q.
Proof. intros Ha w Hw. split; [exact Hw|]. now intros ? [= <-]. Qed.

Lemma keeps_raise {A : Type} (e : exn) (Q : A -> Prop) : keeps G phi (raise e) Q.
Proof. intros w Hw. split; [exact Hw|]. intros ? [=]. Qed.

Lemma keeps_lift {A : Type} (o : outcome A) :
  keeps G phi (lift o) (fun a => o = Ok a).
Proof. intros w Hw. split; [exact Hw|]. intros a Ha. exact Ha. Qed.

Lemma keeps_query {A : Type} (f : Redis -> A) :
  keeps G phi (query f) (fun _ => True).
Proof. intros w Hw. split; [exact Hw|]. auto. Qed.

Lemma keeps_draw {A : Type} (f : Rng -> nat -> A) :
  keeps G phi (draw f) (fun _ => True).
Proof.
  intros w [Hg Hb]. split; [|auto]. split; [apply G_tick, Hg|exact Hb].
Qed.

Lemma keeps_uniform (a b : float) :
  (forall g, G g -> uniform_ok g) -> Py.le a b = true ->
  keeps G phi (Random.uniform a b) (fun x => Py.le a x = true /\ Py.le x b = true).
Proof.
  intros HG Hab w [Hg Hb]. split.
  - split; [apply G_tick, Hg|exact Hb].
  - intros x [= <-]. now apply (HG _ Hg).
Qed.

Lemma keeps_command (f : Redis -> Redis) :
  (forall r, blobs_ok phi r -> blobs_ok phi (f r)) ->
  keeps G phi (command f) (fun _ => True).
Proof. intros Hf w [Hg Hb]. split; [|auto]. split; [exact Hg|apply Hf, Hb]. Qed.

Lemma keeps_bind {A B : Type} (m : M A) (k : A -> M B)
    (Q : A -> Prop) (Q' : B -> Prop) :
  keeps G phi m Q -> (forall a, Q a -> keeps G phi (k a) Q') ->
  keeps G phi (bind m k) Q'.
Proof.
  intros Hm Hk w Hw. destruct (Hm w Hw) as [Hinv HQ]. unfold bind.
  destruct (m w) as [[a|e] w']; cbn [fst snd] in *.
  - exact (Hk a (HQ a eq_refl) w' Hinv).
  - split; [exact Hinv|]. intros ? [=].
Qed.

Lemma keeps_any {A : Type} (m : M A) (Q : A -> Prop) :
  keeps G phi m Q -> keeps G phi m (fun _ => True).
Proof. intros Hm w Hw. split; [apply (Hm w Hw)|auto]. Qed.

Lemma keeps_for_each {A : Type} (l : list A) (body : A -> M unit) :
  (forall x, keeps G phi (body x) (fun _ => True)) ->
  keeps G phi (for_each l body) (fun _ => True).
Proof.
  intros Hbody. induction l as [|x l IH]; cbn [for_each].
  - now apply keeps_ret.
  - eapply keeps_bind; [apply Hbody|]. intros _ _. exact IH.
Qed.

(** Writes of the store. *)
Lemma blobs_ok_insert (r : Redis) (key : string) (v : rval) (t : option Z) :
  blobs_ok phi r -> (forall a, v = RAsset a -> phi key a) ->
  blobs_ok phi (mkRedis (<[key := mkEntry v t]> (strs r)) (lists r) (updates r)).
Proof.
  intros Hb Hv key' e a. cbn [strs]. rewrite lookup_insert_Some.
  intros [[<- <-]|[_ Hold]] He.
  - now apply Hv.
  - exact (Hb key' e a Hold He).
Qed.

Lemma blobs_ok_expire (now : Z) (r : Redis) (key : string) (sec : Z) :
  blobs_ok phi r -> blobs_ok phi (R.expire now r key sec).
Proof.
  intros Hb. unfold R.expire, R.get.
  destruct (strs r !! key) as [e|] eqn:He; [|exact Hb].
  destruct (R.live now e); [|exact Hb].
  apply blobs_ok_insert; [exact Hb|]. intros a Ha. exact (Hb key e a He Ha).
Qed.

Lemma blobs_ok_strs (r r' : Redis) :
  strs r' = strs r -> blobs_ok phi r -> blobs_ok phi r'.
Proof. intros Heq Hb key e a. rewrite Heq. apply Hb. Qed.

Lemma keeps_store_json (now : Z) (key : string) (obj : rval) (ttl : Z) :
  (forall a, obj = RAsset a -> phi key a) ->
  keeps G phi (_store_json now key obj ttl) (fun _ => True).
Proof.
  intros Hobj. unfold _store_json.
  eapply keeps_bind.
  - apply keeps_command. intros r Hr. now apply blobs_ok_insert.
  - intros _ _. destruct (negb (ttl =? 0) && (0 <? ttl)).
    + apply keeps_command. intros r. apply blobs_ok_expire.
    + now apply keeps_ret.
Qed.

Lemma keeps_push_update (payload : Update) :
  keeps G phi (_push_update payload) (fun _ => True).
Proof.
  unfold _push_update. eapply keeps_bind.
  - apply keeps_command. intros r. now apply blobs_ok_strs.
  - intros _ _. apply keeps_command. intros r. now apply blobs_ok_strs.
Qed.

Lemma keeps_rpush (key x : string) :
  keeps G phi (command (fun r => R.rpush r key x)) (fun _ => True).
Proof. apply keeps_command. intros r. now apply blobs_ok_strs. Qed.

Lemma keeps_ltrim (key : string) (start stop : Z) :
  keeps G phi (command (fun r => R.ltrim r key start stop)) (fun _ => True).
Proof. apply keeps_command. intros r. now apply blobs_ok_strs. Qed.

Lemma keeps_choice (seq : list string) :
  keeps G phi (Random.choice seq) (fun _ => True).
Proof.
  unfold Random.choice. eapply keeps_bind; [apply keeps_draw|].
  intros i _. destruct (seq !! i); [now apply keeps_ret|apply keeps_raise].
Qed.

Lemma keeps_uid (prefix : string) : keeps G phi (uid prefix) (fun _ => True).
Proof.
  unfold uid. eapply keeps_bind; [apply keeps_draw|]. intros h _. now apply keeps_ret.
Qed.

Lemma keeps_route_hops (hops : nat) :
  forall cur_lat cur_lon,
    keeps G phi (route_hops hops cur_lat cur_lon) (fun _ => True).
Proof.
  induction hops as [|hops IH]; intros cur_lat cur_lon; cbn [route_hops].
  - now apply keeps_ret.
  - eapply keeps_bind; [apply keeps_draw|]. intros d_lat _.
    eapply keeps_bind; [apply keeps_draw|]. intros d_lon _.
    eapply keeps_bind; [apply IH|]. intros rest _. now apply keeps_ret.
Qed.

Lemma keeps_random_route (lat lon : float) (n : Z) :
  keeps G phi (random_route lat lon n) (fun _ => True).
Proof.
  unfold random_route. eapply keeps_bind; [apply keeps_route_hops|].
  intros rest _. now apply keeps_ret.
Qed.

End Keeps.

Section KeepsGenerators.

Variable pow_half : float -> float.
Variable py_round : float -> Z -> float.
Variable py_hash : string -> Z.
Variable G : Rng -> Prop.
Variable phi : string -> Asset -> Prop.
Hypothesis G_tick : forall g, G g -> G (tick_rng g).

Lemma keeps_bootstrap_assets (now n : Z) :
  (forall g, G g -> uniform_ok g) ->
  (forall key a, asset_in_region a -> phi key a) ->
  keeps G phi (bootstrap_assets py_round now n) (fun _ => True).
Proof.
  intros HG Hphi. unfold bootstrap_assets.
  eapply keeps_bind; [apply keeps_query|]. intros len _.
  destruct (0 <? len); [now apply keeps_ret|].
  eapply keeps_bind; [|intros _ _; now apply keeps_push_update].
  apply keeps_for_each. intros i. unfold bootstrap_asset.
  eapply keeps_bind; [now apply keeps_uniform|]. intros x_lat [Hlat1 Hlat2].
  eapply keeps_bind; [now apply keeps_uniform|]. intros x_lon [Hlon1 Hlon2].
  eapply keeps_bind; [now apply keeps_choice|]. intros a_type _.
  eapply keeps_bind; [now apply keeps_choice|]. intros team _.
  eapply keeps_bind; [now apply keeps_uid|]. intros aid _.
  eapply keeps_bind; [now apply keeps_draw|]. intros k _.
  eapply keeps_bind; [now apply keeps_random_route|]. intros rt _.
  eapply keeps_bind; [now apply keeps_draw|]. intros speed _.
  eapply keeps_bind; [|intros _ _; now apply keeps_rpush].
  apply keeps_store_json. intros a [= <-]. apply Hphi.
  unfold asset_in_region, lat_ok, lon_ok, in_range. cbn [lat lon].
  now rewrite Hlat1, Hlat2, Hlon1, Hlon2.
Qed.

Lemma keeps_update_asset (now : Z) (aid : string) :
  (forall key a, asset_in_region a -> phi key a) ->
  keeps G phi (update_asset pow_half now aid) (fun _ => True).
Proof.
  intros Hphi. unfold update_asset.
  eapply keeps_bind; [apply keeps_query|]. intros raw _.
  destruct (truthy raw) as [raw'|]; [|now apply keeps_ret].
  eapply keeps_bind; [apply keeps_lift|]. intros asset _.
  eapply keeps_bind.
  { apply keeps_any with (Q := fun _ => True).
    destruct (_ <=? _); [|now apply keeps_ret].
    eapply keeps_bind; [now apply keeps_draw|]. intros k _.
    eapply keeps_bind; [now apply keeps_random_route|]. intros rt _.
    now apply keeps_ret. }
  intros [rt idx] _.
  eapply keeps_bind; [apply keeps_lift|]. intros [t_lat t_lon] _.
  eapply keeps_bind; [apply keeps_lift|]. intros [[m_lat m_lon] arrived] Hmove.
  eapply keeps_bind; [now apply keeps_draw|]. intros j_lat _.
  eapply keeps_bind; [now apply keeps_draw|]. intros j_lon _.
  eapply keeps_bind; [now apply keeps_draw|]. intros roll _.
  eapply keeps_bind.
  { apply keeps_any with (Q := fun _ => True).
    destruct (Py.lt roll 0.015%float); [now apply keeps_ret|].
    destruct (Py.lt roll 0.020%float); [now apply keeps_ret|].
    destruct (status asset); [now apply keeps_ret| |];
      (eapply keeps_bind; [now apply keeps_draw|]; intros again _;
       now apply keeps_ret). }
  intros st _.
  eapply keeps_bind; [|intros _ _; now apply keeps_push_update].
  apply keeps_store_json. intros a [= <-]. apply Hphi.
  split; [apply clamp_lat_ok|apply clamp_lon_ok].
Qed.

Lemma keeps_update_assets (now : Z) :
  (forall key a, asset_in_region a -> phi key a) ->
  keeps G phi (update_assets pow_half now) (fun _ => True).
Proof.
  intros Hphi. unfold update_assets.
  eapply keeps_bind; [apply keeps_query|]. intros ids _.
  destruct ids as [|x ids]; [now apply keeps_ret|].
  eapply keeps_bind; [now apply keeps_draw|]. intros k _.
  eapply keeps_bind; [now apply keeps_draw|]. intros chosen _.
  apply keeps_for_each. intros aid. now apply keeps_update_asset.
Qed.

Lemma keeps_generate_event (now : Z) :
  keeps G phi (generate_event py_round now) (fun _ => True).
Proof.
  unfold generate_event.
  eapply keeps_bind; [apply keeps_query|]. intros len _.
  destruct (len =? 0); [now apply keeps_ret|].
  eapply keeps_bind; [apply keeps_query|]. intros len' _.
  eapply keeps_bind; [now apply keeps_draw|]. intros i _.
  eapply keeps_bind; [apply keeps_query|]. intros aid _.
  eapply keeps_bind; [apply keeps_query|]. intros raw _.
  destruct (truthy raw) as [raw'|]; [|now apply keeps_ret].
  eapply keeps_bind; [apply keeps_lift|]. intros asset _.
  eapply keeps_bind.
  { apply keeps_any with (Q := fun _ => True).
    unfold Random.choices. repeat case_match; now apply keeps_choice. }
  intros etype _.
  eapply keeps_bind.
  { apply keeps_any with (Q := fun _ => True).
    destruct (status asset); try now apply keeps_ret.
    eapply keeps_bind; [now apply keeps_choice|]. intros etype' _.
    now apply keeps_ret. }
  intros [etype' risk] _.
  eapply keeps_bind; [now apply keeps_draw|]. intros o_lat _.
  eapply keeps_bind; [now apply keeps_draw|]. intros o_lon _.
  eapply keeps_bind; [now apply keeps_draw|]. intros c _.
  eapply keeps_bind; [now apply keeps_uid|]. intros eid _.
  destruct (negb _); [apply keeps_raise|].
  eapply keeps_bind; [apply keeps_store_json; intros a [=]|]. intros _ _.
  eapply keeps_bind; [now apply keeps_rpush|]. intros _ _.
  eapply keeps_bind; [now apply keeps_ltrim|]. intros _ _.
  now apply keeps_push_update.
Qed.

Lemma keeps_generate_alert (now : Z) :
  keeps G phi (generate_alert py_hash now) (fun _ => True).
Proof.
  unfold generate_alert.
  eapply keeps_bind; [apply keeps_query|]. intros len _.
  destruct (len =? 0); [now apply keeps_ret|].
  eapply keeps_bind; [apply keeps_query|]. intros eid _.
  eapply keeps_bind; [apply keeps_query|]. intros raw _.
  destruct (truthy raw) as [raw'|]; [|now apply keeps_ret].
  eapply keeps_bind; [apply keeps_lift|]. intros evt _.
  destruct (_event_to_priority evt) as [prio|]; [|now apply keeps_ret].
  eapply keeps_bind; [apply keeps_query|]. intros seen _.
  destruct seen; [now apply keeps_ret|].
  eapply keeps_bind.
  { apply keeps_command. intros r Hr. unfold R.setex.
    apply blobs_ok_insert; [exact Hr|]. intros a [=]. }
  intros _ _.
  eapply keeps_bind; [now apply keeps_uid|]. intros alid _.
  eapply keeps_bind; [apply keeps_store_json; intros a [=]|]. intros _ _.
  eapply keeps_bind; [now apply keeps_rpush|]. intros _ _.
  eapply keeps_bind; [now apply keeps_ltrim|]. intros _ _.
  now apply keeps_push_update.
Qed.

End KeepsGenerators.

Lemma stepped_in_region (pow_half : float -> float) (now : Z) (old a : Asset) :
  stepped pow_half now old a -> asset_in_region a.
Proof.
  intros (rt & idx & t_lat & t_lon & m_lat & m_lon & arrived & j_lat & j_lon
          & _ & _ & _ & _ & _ & ->).
  split; [apply clamp_lat_ok|apply clamp_lon_ok].
Qed.

Lemma sim_state_inv (pow_half : float -> float) (py_round : float -> Z -> float)
    (w : World) :
  sim_state pow_half py_round w ->
  inv uniform_ok (fun _ => asset_in_region) w.
Proof.
  induction 1 as [g Hg|now n w _ IH|now w _ IH|now w _ IH|py_hash now w _ IH].
  - split; [exact Hg|]. intros key e a Hkey. cbn in Hkey.
    now rewrite lookup_empty in Hkey.
  - apply (keeps_bootstrap_assets py_round uniform_ok _ uniform_ok_tick now n);
      auto.
  - apply (keeps_update_assets pow_half uniform_ok _ uniform_ok_tick now);
      [|exact IH]. auto.
  - now apply (keeps_generate_event py_round uniform_ok _ uniform_ok_tick now).
  - now apply (keeps_generate_alert py_hash uniform_ok _ uniform_ok_tick now).
Qed.

(** ** Assets stay in the operating region *)

(** The steps of a motion tick that cannot fail. *)
Lemma py_index_ok {A : Type} (seq : list A) (i : Z) :
  0 <= i < Z.of_nat (length seq) -> exists x, py_index seq i = Ok x.
Proof.
  intros Hi. unfold py_index.
  replace (i <? 0) with false by (symmetry; apply Z.ltb_ge; lia).
  replace (i <? 0) with false by (symmetry; apply Z.ltb_ge; lia).
  destruct (seq !! Z.to_nat i) as [x|] eqn:E; [now exists x|].
  apply lookup_ge_None in E. lia.
Qed.

Lemma move_towards_ok (pow_half : float -> float)
    (a_lat a_lon b_lat b_lon step_deg : float) :
  Py.gt step_deg 0%float = true ->
  exists v, move_towards pow_half a_lat a_lon b_lat b_lon step_deg = Ok v.
Proof.
  intros Hstep. unfold move_towards, py_div.
  destruct (Py.le _ step_deg) eqn:Hfar; [now eexists|].
  destruct (Py.eq _ 0%float) eqn:Hz; [|now eexists].
  unfold Py.le in Hfar. now rewrite (zero_leb_pos _ _ Hstep Hz) in Hfar.
Qed.

(** One turn of the loop of [update_assets] on an asset of the store. *)
Lemma update_asset_total (pow_half : float -> float) (now : Z) (aid : string)
    (w : World) (a : Asset) :
  uniform_ok (rng w) ->
  R.get now (redis w) ("asset:" +:+ aid) = Some (RAsset a) ->
  0 <= route_idx a ->
  exists a',
    fst (update_asset pow_half now aid w) = Ok tt /\
    stepped pow_half now a a' /\
    redis (snd (update_asset pow_half now aid w))
    = asset_stored ("asset:" +:+ aid) a' (redis w).
Proof.
  intros Hu Hraw Hidx. unfold update_asset. rewrite bind_query, Hraw.
  cbn [truthy loads_asset]. rewrite bind_lift_ok.
  assert (Hcur : exists rt idx w1,
             redis w1 = redis w /\ uniform_ok (rng w1) /\
             0 <= idx < Z.of_nat (length rt) /\
             (if Z.of_nat (length (route a)) <=? route_idx a
              then head rt = Some (lat a, lon a) /\ (2 <= length rt)%nat /\ idx = 0
              else rt = route a /\ idx = route_idx a) /\
             forall B (k : list Waypoint * Z -> M B),
               bind (if Z.of_nat (length (route a)) <=? route_idx a
                     then n <- Random.randint 3 6 ;;
                          rt' <- random_route (lat a) (lon a) n ;;
                          ret (rt', 0)
                     else ret (route a, route_idx a)) k w
               = k (rt, idx) w1).
  { destruct (Z.leb_spec (Z.of_nat (length (route a))) (route_idx a)) as [Hout|Hin].
    - unfold Random.randint, random_route.
      destruct (route_hops_spec
                  (Z.to_nat (Z.max 1 (rnd_randint (rng w) (rnd_calls (rng w)) 3 6 - 1)))
                  (lat a) (lon a) (mkWorld (redis w) (tick_rng (rng w)))
                  (uniform_ok_tick _ Hu))
        as (rest & w1 & E & Hr & Hu1 & Hlen & _).
      exists ((lat a, lon a) :: rest), 0, w1. split; [exact Hr|]. split; [exact Hu1|].
      split; [cbn [length]; lia|]. split.
      { split; [reflexivity|]. split; [cbn [length]; lia|reflexivity]. }
      intros B k. run. unfold bind at 1. now rewrite E.
    - exists (route a), (route_idx a), w. split; [reflexivity|]. split; [exact Hu|].
      split; [lia|]. split; [now split|]. intros B k. now run. }
  destruct Hcur as (rt & idx & w1 & Hr1 & Hu1 & Hidx1 & Hroute & ->).
  destruct (py_index_ok rt idx Hidx1) as ([t_lat t_lon] & Htarget). rewrite Htarget.
  rewrite bind_lift_ok.
  destruct (move_towards_ok pow_half (lat a) (lon a) t_lat t_lon (step_deg_of a))
    as ([[m_lat m_lon] arrived] & Hmove);
    [unfold step_deg_of; now destruct (bool_decide _)|].
  fold (step_deg_of a). rewrite Hmove.
  rewrite bind_lift_ok. unfold Random.uniform, Random.random. run.
  destruct (Hu1 (rnd_calls (rng w1)) (-0.004)%float 0.004%float eq_refl) as [Hj1 Hj2].
  destruct (Hu1 (S (rnd_calls (rng w1))) (-0.004)%float 0.004%float eq_refl) as [Hj3 Hj4].
  assert (Hgen : forall (st : AssetStatus) (g2 : Rng),
            let a' := mkAsset (asset_id a) (name a) (asset_type a)
                        (clamp (m_lat + rnd_uniform (rng w1) (rnd_calls (rng w1))
                                          (-0.004)%float 0.004%float) 35 60)
                        (clamp (m_lon + rnd_uniform (rng w1) (S (rnd_calls (rng w1)))
                                          (-0.004)%float 0.004%float) (-10) 30)
                        st now (owner_team a) rt (if arrived then idx + 1 else idx)
                        (speed_kmh a) in
            exists a'',
              fst (Ok tt,
                   mkWorld
                     (R.ltrim_updates
                        (R.rpush_updates (R.set (redis w1) ("asset:" +:+ aid) (RAsset a'))
                                         (mkUpdate "asset_updated" (DAsset a')))
                        (-500) (-1)) g2) = Ok tt /\
              stepped pow_half now a a'' /\
              redis (snd (@Ok unit tt,
                          mkWorld
                            (R.ltrim_updates
                               (R.rpush_updates
                                  (R.set (redis w1) ("asset:" +:+ aid) (RAsset a'))
                                  (mkUpdate "asset_updated" (DAsset a')))
                               (-500) (-1)) g2))
              = asset_stored ("asset:" +:+ aid) a'' (redis w)).
  { intros st g2 a'. exists a'. split; [reflexivity|]. split.
    - eexists rt, idx, t_lat, t_lon, m_lat, m_lon, arrived, _, _.
      split; [exact Hroute|]. split; [exact Htarget|]. split; [exact Hmove|].
      split; [|split]; [| |reflexivity].
      + unfold in_range. now rewrite Hj1, Hj2.
      + unfold in_range. now rewrite Hj3, Hj4.
    - cbn [snd redis]. now rewrite Hr1. }
  destruct (Py.lt _ 0.015%float); run; [apply Hgen|].
  destruct (Py.lt _ 0.020%float); run; [apply Hgen|].
  destruct (status a); run; apply Hgen.
Qed.

(** C1: in every world reached from an empty store by bootstraps and ticks
    (motion ticks, and event and alert ticks between them), each asset
    payload of the store has its latitude in [35, 60] and its longitude in
    [-10, 30]. A motion tick is the loop of [update_asset] over the ids it
    samples from [assets:list]. For an id whose payload is in the store,
    with a route index that is not negative, [update_asset] ends without
    error and persists, under the same key and on the update log, the asset
    it read after the movement step towards its waypoint by the step of its
    type, plus the two jitter draws (each within 0.004 degrees when
    [uniform] keeps its promise), both coordinates clamped into the region;
    for an id without payload it does nothing. *)
Theorem assets_stay_in_region (pow_half : float -> float)
    (py_round : float -> Z -> float) :
  (forall w, sim_state pow_half py_round w -> assets_in_region (redis w)) /\
  (forall now w,
     update_assets pow_half now w
     = match R.lrange (redis w) K_ASSETS 0 (-1) with
       | [] => (Ok tt, w)
       | x :: ids =>
           for_each (sampled (x :: ids) (rng w)) (update_asset pow_half now)
                    (mkWorld (redis w) (tick_rng (tick_rng (rng w))))
       end) /\
  (forall now aid w a,
     uniform_ok (rng w) ->
     R.get now (redis w) ("asset:" +:+ aid) = Some (RAsset a) ->
     0 <= route_idx a ->
     exists a',
       fst (update_asset pow_half now aid w) = Ok tt /\
       stepped pow_half now a a' /\
       asset_in_region a' /\
       redis (snd (update_asset pow_half now aid w))
       = asset_stored ("asset:" +:+ aid) a' (redis w)) /\
  (forall now aid w,
     R.get now (redis w) ("asset:" +:+ aid) = None ->
     update_asset pow_half now aid w = (Ok tt, w)).
Proof.
  split; [|split; [|split]].
  - intros w Hw. apply (sim_state_inv _ _ w Hw).
  - intros now w. unfold update_assets, Random.randint, Random.sample, sampled.
    rewrite bind_query. destruct (R.lrange _ _ _ _) as [|x ids]; [reflexivity|].
    now rewrite !bind_draw.
  - intros now aid w a Hu Hraw Hidx.
    destruct (update_asset_total pow_half now aid w a Hu Hraw Hidx)
      as (a' & Hok & Hstep & Hw').
    exists a'. split; [exact Hok|]. split; [exact Hstep|].
    split; [exact (stepped_in_region _ _ _ _ Hstep)|exact Hw'].
  - intros now aid w Hraw. unfold update_asset. rewrite bind_query, Hraw. reflexivity.
Qed.

Lemma assets_stay_in_region_witness :
  (exists a,
     R.get 2000
       (redis (snd (update_assets PrimFloat.sqrt 2000
                      (snd (bootstrap_assets (fun x _ => x) 1000 3
                              (mkWorld redis_empty rng_least))))))
       "asset:ast_0000000000"
     = Some (RAsset a) /\
     asset_in_region a) /\
  (exists a',
     fst (update_asset PrimFloat.sqrt 2000 "ast_a1" sample_world) = Ok tt /\
     stepped PrimFloat.sqrt 2000 sample_asset a' /\
     asset_in_region a' /\
     redis (snd (update_asset PrimFloat.sqrt 2000 "ast_a1" sample_world))
     = asset_stored "asset:ast_a1" a' (redis sample_world)).
Proof.
  destruct (assets_stay_in_region PrimFloat.sqrt (fun x _ => x)) as (Hinv & _ & Hstep & _).
  split.
  - eexists. split; [vm_compute; reflexivity|].
    eapply (Hinv (snd (update_assets PrimFloat.sqrt 2000
                         (snd (bootstrap_assets (fun x _ => x) 1000 3
                                 (mkWorld redis_empty rng_least)))))
                 _ "asset:ast_0000000000" (mkEntry (RAsset _) None)).
    + vm_compute. reflexivity.
    + reflexivity.
  - apply (Hstep 2000 "ast_a1" sample_world sample_asset).
    + exact rng_least_uniform_ok.
    + vm_compute. reflexivity.
    + vm_compute. discriminate.
  Unshelve.
  apply sim_update, sim_bootstrap, sim_fresh, rng_least_uniform_ok.
Defined.

(** ** Events are placed without clamping *)

Lemma sample_world_in_region : assets_in_region (redis sample_world).
Proof.
  intros key e a Hkey He. cbn in Hkey.
  apply lookup_singleton_Some in Hkey as [_ <-]. cbn in He.
  injection He as <-. split; reflexivity.
Qed.

(** C9: when an event tick creates an event, its latitude is the
    latitude of the asset it read plus one draw of
    [random.uniform(-0.25, 0.25)], its longitude the asset's plus the next
    such draw, and nothing is clamped; otherwise the tick leaves the store as
    it was. Both draws are within 0.25 of zero when the random source
    respects its bounds. So an event can lie outside the region its asset is
    in: from the asset at (35, -10) the draws -0.25 give an event at
    (34.75, -10.25). *)
Theorem event_position_not_clamped (py_round : float -> Z -> float) :
  (forall now w,
     redis (snd (generate_event py_round now w)) = redis w \/
     exists aid asset evt k,
       R.get now (redis w) ("asset:" +:+ str_opt aid) = Some (RAsset asset) /\
       meta_asset_id (meta evt) = aid /\
       ev_lat evt = (lat asset + rnd_uniform (rng w) k (-0.25) 0.25)%float /\
       ev_lon evt = (lon asset + rnd_uniform (rng w) (S k) (-0.25) 0.25)%float /\
       fst (generate_event py_round now w) = Ok tt /\
       strs (redis (snd (generate_event py_round now w))) !! ("event:" +:+ event_id evt)
       = Some (mkEntry (REvent evt) None)) /\
  (forall g k, uniform_ok g ->
     in_range (-0.25)%float 0.25%float (rnd_uniform g k (-0.25)%float 0.25%float)
     = true) /\
  (py_round 0.60%float 2 = 0.60%float ->
   assets_in_region (redis sample_world) /\
   uniform_ok (rng sample_world) /\
   exists evt w',
     generate_event py_round 3000 sample_world = (Ok tt, w') /\
     R.get 3000 (redis w') ("event:" +:+ event_id evt) = Some (REvent evt) /\
     ev_lat evt = 34.75%float /\ ev_lon evt = (-10.25)%float /\
     lat_ok (ev_lat evt) = false /\ lon_ok (ev_lon evt) = false).
Proof.
  split; [|split].
  - intros now w.
    unfold generate_event, Random.randint, Random.uniform. run.
    destruct (R.llen (redis w) K_ASSETS =? 0); [stop|]. run.
    destruct (truthy _) as [raw|] eqn:Hraw; run; [|stop].
    apply truthy_Some in Hraw.
    destruct raw as [s|n|asset|e|a]; cbn [loads_asset]; run; try stop.
    unfold Random.choices, Random.choice.
    destruct (String.eqb (asset_type asset) "relay"); [|
    destruct (String.eqb (asset_type asset) "vehicle"); [|
    destruct (String.eqb (asset_type asset) "drone")]].
    all: pick.
    all: destruct (status asset) eqn:Hst; run.
    all: try pick.
    all: unfold uid; run.
    all: destruct (negb _) eqn:Hvalid; run; [stop|].
    all: right;
      match goal with |- context [REvent ?e] => eexists _, asset, e, _ end.
    all: split; [exact Hraw|].
    all: split_and!; try reflexivity.
    all: cbn [fst snd redis strs R.rpush R.ltrim R.rpush_updates R.ltrim_updates
              R.set event_id].
    all: rewrite lookup_insert_eq; reflexivity.
  - intros g k Hg. unfold in_range.
    destruct (Hg k (-0.25)%float 0.25%float eq_refl) as [-> ->]. reflexivity.
  - intros Hround.
    split; [exact sample_world_in_region|]. split; [exact rng_least_uniform_ok|].
    unfold generate_event, Random.randint, Random.uniform, Random.choices,
      Random.choice, uid. run.
    change (R.llen (redis sample_world) K_ASSETS) with 1. cbn [Z.eqb]. run.
    change (rng sample_world) with rng_least. run_least.
    change (R.lindex (redis sample_world) K_ASSETS 0) with (Some "ast_a1").
    change (R.get 3000 (redis sample_world) ("asset:" +:+ str_opt (Some "ast_a1")))
      with (Some (RAsset sample_asset)).
    cbn [truthy loads_asset]. run_least.
    change (asset_type sample_asset) with "sensor".
    change (status sample_asset) with active.
    cbn [String.eqb Ascii.eqb Bool.eqb]. run_least.
    change (["incident"; "movement"; "anomaly"; "weather"] !! 0%nat)
      with (Some "incident"). run_least.
    rewrite Hround.
    change (negb (Py.ge 0.60%float 0%float && Py.le 0.60%float 1%float)) with false.
    run_least.
    match goal with |- context [REvent ?e] => exists e end. eexists.
    split; [reflexivity|]. split; [vm_compute; reflexivity|].
    split_and!; reflexivity.
Qed.

Lemma event_position_not_clamped_witness :
  exists evt w',
    generate_event (fun x _ => x) 3000 sample_world = (Ok tt, w') /\
    R.get 3000 (redis w') ("event:" +:+ event_id evt) = Some (REvent evt) /\
    lat_ok (ev_lat evt) = false.
Proof.
  destruct (proj2 (proj2 (event_position_not_clamped (fun x _ => x))) eq_refl)
    as (_ & _ & evt & w' & Hrun & Hget & _ & _ & Hlat & _).
  exists evt, w'. auto.
Defined.

(** ** Alert deduplication *)

Lemma get_insert_live (now : Z) (r : Redis) (key : string) (v : rval) (t : Z) :
  strs r !! key = Some (mkEntry v (Some t)) -> now <= t -> R.get now r key = Some v.
Proof.
  intros Hk Ht. unfold R.get. rewrite Hk. cbn.
  now rewrite (proj2 (Z.leb_le now t) Ht).
Qed.

Lemma get_insert_dead (now : Z) (r : Redis) (key : string) (v : rval) (t : Z) :
  strs r !! key = Some (mkEntry v (Some t)) -> t < now -> R.get now r key = None.
Proof.
  intros Hk Ht. unfold R.get. rewrite Hk. cbn.
  now rewrite (proj2 (Z.leb_gt now t) Ht).
Qed.

Lemma latest_event_inv (now : Z) (r : Redis) (evt : Event) :
  latest_event now r = Some evt ->
  (R.llen r K_EVENTS =? 0) = false /\
  R.get now r ("event:" +:+ str_opt (R.lindex r K_EVENTS (-1))) = Some (REvent evt).
Proof.
  unfold latest_event. destruct (R.llen r K_EVENTS =? 0); [discriminate|].
  destruct (R.get now r _) as [[s|n|a|e|a]|]; try discriminate.
  now intros [= ->].
Qed.

Lemma generate_alert_seen (py_hash : string -> Z) (now : Z) (w : World)
    (evt : Event) (prio : AlertPriority) :
  latest_event now (redis w) = Some evt ->
  _event_to_priority evt = Some prio ->
  R.exists_ now (redis w) (dedup_key py_hash (alert_fingerprint prio evt)) = true ->
  generate_alert py_hash now w = (Ok tt, w).
Proof.
  intros Hlatest Hprio Hseen. apply latest_event_inv in Hlatest as [Hlen Hget].
  unfold generate_alert. run. rewrite Hlen. run. rewrite Hget.
  cbn [truthy loads_event]. run. rewrite Hprio. run.
  unfold dedup_key, alert_fingerprint, alert_message in Hseen.
  rewrite Hseen. reflexivity.
Qed.

Lemma generate_alert_fresh (py_hash : string -> Z) (now : Z) (w : World)
    (evt : Event) (prio : AlertPriority) :
  latest_event now (redis w) = Some evt ->
  _event_to_priority evt = Some prio ->
  R.exists_ now (redis w) (dedup_key py_hash (alert_fingerprint prio evt)) = false ->
  let a := alert_of now w prio evt in
  let key := dedup_key py_hash (alert_fingerprint prio evt) in
  generate_alert py_hash now w
  = (Ok tt,
     mkWorld
       (mkRedis
          (<["alert:" +:+ alert_id a := mkEntry (RAlert a) (Some (now + 1000 * 600))]>
             (<["alert:" +:+ alert_id a := mkEntry (RAlert a) None]>
                (<[key := mkEntry (RText "1") (Some (now + 1000 * 60))]>
                   (strs (redis w)))))
          (lists (R.ltrim (R.rpush (redis w) K_ALERTS (alert_id a)) K_ALERTS (-300) (-1)))
          (R.range (updates (redis w) ++ [mkUpdate "alert_raised" (DAlert a)])
                   (-500) (-1)))
       (tick_rng (rng w))).
Proof.
  intros Hlatest Hprio Hseen. apply latest_event_inv in Hlatest as [Hlen Hget].
  unfold generate_alert. run. rewrite Hlen. run. rewrite Hget.
  cbn [truthy loads_event]. run. rewrite Hprio. run.
  unfold dedup_key, alert_fingerprint, alert_message in Hseen.
  rewrite Hseen. run. unfold uid. run.
  rewrite bind_store_json_ttl by lia. run.
  reflexivity.
Qed.

Lemma items_rpush (r : Redis) (key x : string) :
  R.items (R.rpush r key x) key = R.items r key ++ [x].
Proof. unfold R.items at 1, R.rpush. cbn [lists]. now rewrite lookup_insert_eq. Qed.

Lemma items_ltrim (r : Redis) (key : string) (start stop : Z) :
  R.items (R.ltrim r key start stop) key = R.range (R.items r key) start stop.
Proof.
  unfold R.items at 1, R.ltrim. cbn [lists].
  destruct (R.range (R.items r key) start stop) as [|x l].
  - now rewrite lookup_delete_eq.
  - now rewrite lookup_insert_eq.
Qed.

Lemma items_rpush_ne (r : Redis) (key key' x : string) :
  key <> key' -> R.items (R.rpush r key x) key' = R.items r key'.
Proof. intros Hne. unfold R.items, R.rpush. cbn [lists]. now rewrite lookup_insert_ne. Qed.

Lemma items_ltrim_ne (r : Redis) (key key' : string) (start stop : Z) :
  key <> key' -> R.items (R.ltrim r key start stop) key' = R.items r key'.
Proof.
  intros Hne. unfold R.items, R.ltrim. cbn [lists].
  destruct (R.range _ start stop); [now rewrite lookup_delete_ne|now rewrite lookup_insert_ne].
Qed.

Lemma latest_event_same (now : Z) (r r' : Redis) :
  R.items r' K_EVENTS = R.items r K_EVENTS ->
  (forall x, strs r' !! ("event:" +:+ x) = strs r !! ("event:" +:+ x)) ->
  latest_event now r' = latest_event now r.
Proof.
  intros Hl Hs. unfold latest_event, R.llen, R.lindex, R.get. now rewrite Hl, Hs.
Qed.

Lemma dedup_key_inj (h1 h2 : string -> Z) (fp : string) :
  dedup_key h1 fp = dedup_key h2 fp -> h1 fp = h2 fp.
Proof.
  unfold dedup_key. cbn [String.append]. intros [= H]. exact (pretty_Z_inj _ _ H).
Qed.

(** C5: the first tick runs with [py_hash1], the second with [py_hash2],
    the [hash] of their processes. When a tick reads an event with a
    priority and finds no marker for its fingerprint, it sets the marker for
    60 seconds and creates one alert: the payload is stored, its id appended
    to [alerts:list], an [alert_raised] entry appended to the log. When the
    two hashes of the fingerprint agree (one process, or one hash seed), a
    tick that derives the same fingerprint while the marker is there returns
    with the store and the random source as they were; so does the next
    tick up to and including the instant 60 seconds after the first; past
    that instant a tick on the same event creates a second alert with the
    same fingerprint. When the two hashes of the fingerprint differ, the
    second tick looks for another marker: if that one is not there it
    creates a second alert for the same fingerprint at any instant, inside
    the window too. *)
Theorem alert_dedup_window (py_hash1 py_hash2 : string -> Z) (now1 now2 : Z)
    (w : World) (evt : Event) (prio : AlertPriority) :
  latest_event now1 (redis w) = Some evt ->
  _event_to_priority evt = Some prio ->
  let fp := alert_fingerprint prio evt in
  let key := dedup_key py_hash1 fp in
  R.exists_ now1 (redis w) key = false ->
  let a1 := alert_of now1 w prio evt in
  let w1 := snd (generate_alert py_hash1 now1 w) in
  let a2 := alert_of now2 w1 prio evt in
  let w2 := snd (generate_alert py_hash2 now2 w1) in
  let second_alert :=
    fst (generate_alert py_hash2 now2 w1) = Ok tt /\
    fingerprint a2 = fp /\
    R.items (redis w2) K_ALERTS
    = R.range (R.items (redis w1) K_ALERTS ++ [alert_id a2]) (-300) (-1) /\
    updates (redis w2)
    = R.range (updates (redis w1) ++ [mkUpdate "alert_raised" (DAlert a2)])
              (-500) (-1) in
  (fst (generate_alert py_hash1 now1 w) = Ok tt /\
   fingerprint a1 = fp /\
   strs (redis w1) !! key = Some (mkEntry (RText "1") (Some (now1 + 1000 * 60))) /\
   R.get now1 (redis w1) ("alert:" +:+ alert_id a1) = Some (RAlert a1) /\
   R.items (redis w1) K_ALERTS
   = R.range (R.items (redis w) K_ALERTS ++ [alert_id a1]) (-300) (-1) /\
   updates (redis w1)
   = R.range (updates (redis w) ++ [mkUpdate "alert_raised" (DAlert a1)]) (-500) (-1)) /\
  (py_hash2 fp = py_hash1 fp ->
   forall w' evt' prio',
     R.exists_ now2 (redis w') key = true ->
     latest_event now2 (redis w') = Some evt' ->
     _event_to_priority evt' = Some prio' ->
     alert_fingerprint prio' evt' = fp ->
     generate_alert py_hash2 now2 w' = (Ok tt, w')) /\
  (py_hash2 fp = py_hash1 fp ->
   now1 <= now2 <= now1 + 1000 * 60 ->
     R.exists_ now2 (redis w1) key = true /\
     generate_alert py_hash2 now2 w1 = (Ok tt, w1)) /\
  (py_hash2 fp = py_hash1 fp ->
   now1 + 1000 * 60 < now2 ->
   latest_event now2 (redis w) = Some evt ->
     second_alert) /\
  (py_hash2 fp <> py_hash1 fp ->
   R.exists_ now2 (redis w) (dedup_key py_hash2 fp) = false ->
   latest_event now2 (redis w) = Some evt ->
     second_alert).
Proof.
  intros Hlatest Hprio fp key Hfresh a1 w1 a2 w2 second_alert.
  pose proof (generate_alert_fresh py_hash1 now1 w evt prio Hlatest Hprio Hfresh) as Hrun.
  cbv zeta in Hrun. fold a1 fp key in Hrun.
  assert (Hw1 : w1 = snd (generate_alert py_hash1 now1 w)) by reflexivity.
  rewrite Hrun in Hw1. cbn [snd] in Hw1.
  assert (Hmark : strs (redis w1) !! key
                  = Some (mkEntry (RText "1") (Some (now1 + 1000 * 60)))).
  { rewrite Hw1. cbn [redis strs].
    rewrite !lookup_insert_ne by (unfold key, dedup_key; cbn [String.append]; discriminate).
    now rewrite lookup_insert_eq. }
  assert (Hevents : R.items (redis w1) K_EVENTS = R.items (redis w) K_EVENTS).
  { rewrite Hw1. unfold R.items at 1. cbn [redis lists].
    fold (R.items (R.ltrim (R.rpush (redis w) K_ALERTS (alert_id a1)) K_ALERTS (-300) (-1))
                  K_EVENTS).
    rewrite items_ltrim_ne, items_rpush_ne by discriminate. reflexivity. }
  assert (Hstrs : forall x, strs (redis w1) !! ("event:" +:+ x)
                            = strs (redis w) !! ("event:" +:+ x)).
  { intros x. rewrite Hw1. cbn [redis strs].
    now rewrite !lookup_insert_ne
      by (unfold key, dedup_key; cbn [String.append]; discriminate). }
  assert (Hsame : forall now, latest_event now (redis w1) = latest_event now (redis w)).
  { intros now. now apply latest_event_same. }
  assert (Hseen : py_hash2 fp = py_hash1 fp ->
     forall w' evt' prio',
     R.exists_ now2 (redis w') key = true ->
     latest_event now2 (redis w') = Some evt' ->
     _event_to_priority evt' = Some prio' ->
     alert_fingerprint prio' evt' = fp ->
     generate_alert py_hash2 now2 w' = (Ok tt, w')).
  { intros Hagree w' evt' prio' Hex Hl Hp Hfp.
    apply (generate_alert_seen py_hash2 now2 w' evt' prio' Hl Hp).
    rewrite Hfp. unfold dedup_key. rewrite Hagree. exact Hex. }
  assert (Hsecond : latest_event now2 (redis w) = Some evt ->
            R.exists_ now2 (redis w1) (dedup_key py_hash2 fp) = false ->
            second_alert).
  { intros Hl2 Hdead.
    assert (Hl2' : latest_event now2 (redis w1) = Some evt) by now rewrite Hsame.
    pose proof (generate_alert_fresh py_hash2 now2 w1 evt prio Hl2' Hprio Hdead) as Hrun2.
    cbv zeta in Hrun2. fold a2 fp in Hrun2.
    unfold second_alert, w2. rewrite Hrun2. cbn [fst snd redis updates].
    split; [reflexivity|]. split; [reflexivity|]. split; [|reflexivity].
    unfold R.items at 1. cbn [lists].
    fold (R.items (R.ltrim (R.rpush (redis w1) K_ALERTS (alert_id a2)) K_ALERTS (-300) (-1))
                  K_ALERTS).
    now rewrite items_ltrim, items_rpush. }
  split; [|split; [exact Hseen|split; [|split]]].
  - rewrite Hrun. cbn [fst]. split; [reflexivity|]. split; [reflexivity|].
    split; [exact Hmark|]. split; [|split].
    + apply get_insert_live with (t := now1 + 1000 * 600); [|lia].
      rewrite Hw1. cbn [redis strs]. now rewrite lookup_insert_eq.
    + rewrite Hw1. unfold R.items at 1. cbn [redis lists].
      fold (R.items (R.ltrim (R.rpush (redis w) K_ALERTS (alert_id a1)) K_ALERTS (-300) (-1))
                    K_ALERTS).
      now rewrite items_ltrim, items_rpush.
    + rewrite Hw1. reflexivity.
  - intros Hagree Hwin.
    assert (Hex : R.exists_ now2 (redis w1) key = true).
    { unfold R.exists_. now rewrite (get_insert_live _ _ _ _ _ Hmark) by lia. }
    split; [exact Hex|].
    pose proof Hlatest as Hl1. apply latest_event_inv in Hl1 as [Hlen Hg1].
    unfold R.get in Hg1.
    destruct (strs (redis w) !! _) as [e|] eqn:He; [|discriminate].
    destruct (R.live now1 e); [|discriminate]. injection Hg1 as Hval.
    destruct (R.live now2 e) eqn:Hlive.
    + (* the event is still readable: same fingerprint, marker found *)
      apply (Hseen Hagree w1 evt prio); auto.
      rewrite Hsame. unfold latest_event, R.get. now rewrite Hlen, He, Hlive, Hval.
    + (* the payload has expired: nothing to correlate *)
      unfold generate_alert. run.
      unfold R.llen, R.lindex in *. rewrite Hevents, Hlen. run.
      rewrite ?Hevents. unfold R.get. now rewrite Hstrs, He, Hlive.
  - intros Hagree Hafter Hl2. apply Hsecond; [exact Hl2|].
    unfold dedup_key. rewrite Hagree. fold (dedup_key py_hash1 fp). fold key.
    unfold R.exists_. now rewrite (get_insert_dead _ _ _ _ _ Hmark) by lia.
  - intros Hdiffer Hnone Hl2. apply Hsecond; [exact Hl2|].
    unfold R.exists_, R.get in *. rewrite Hw1. cbn [redis strs].
    rewrite !lookup_insert_ne; [exact Hnone| |..].
    + intros Heq. apply Hdiffer. symmetry. exact (dedup_key_inj _ _ _ Heq).
    + unfold dedup_key. cbn [String.append]. discriminate.
    + unfold dedup_key. cbn [String.append]. discriminate.
Qed.

Lemma alert_dedup_window_witness :
  generate_alert (fun _ => 42) 61000
    (snd (generate_alert (fun _ => 42) 1000 (sample_event_world critical)))
  = (Ok tt, snd (generate_alert (fun _ => 42) 1000 (sample_event_world critical))) /\
  R.items (redis (snd (generate_alert (fun _ => 43) 2000
                         (snd (generate_alert (fun _ => 42) 1000
                                 (sample_event_world critical))))))
          K_ALERTS
  = R.range
      (R.items (redis (snd (generate_alert (fun _ => 42) 1000
                              (sample_event_world critical)))) K_ALERTS
       ++ [alert_id (alert_of 2000
                       (snd (generate_alert (fun _ => 42) 1000
                               (sample_event_world critical)))
                       p1 (sample_event critical))])
      (-300) (-1).
Proof.
  assert (Hlatest : forall t, latest_event t (redis (sample_event_world critical))
                              = Some (sample_event critical))
    by (intros t; reflexivity).
  assert (Hfresh : forall t h, R.exists_ t (redis (sample_event_world critical))
                                 (dedup_key h (alert_fingerprint p1 (sample_event critical)))
                               = false)
    by (intros t h; reflexivity).
  split.
  - destruct (alert_dedup_window (fun _ => 42) (fun _ => 42) 1000 61000
                (sample_event_world critical) (sample_event critical) p1
                (Hlatest 1000) eq_refl (Hfresh 1000 _)) as (_ & _ & Hwin & _).
    apply Hwin; [reflexivity|lia].
  - destruct (alert_dedup_window (fun _ => 42) (fun _ => 43) 1000 2000
                (sample_event_world critical) (sample_event critical) p1
                (Hlatest 1000) eq_refl (Hfresh 1000 _)) as (_ & _ & _ & _ & Hdiff).
    apply Hdiff; [discriminate|apply Hfresh|apply Hlatest].
Defined.

(** Two processes that share the store: the first raises an alert for
    the latest event; one second later the second one, with another hash
    of the same fingerprint, finds no marker and raises a second alert for
    the same event. Both payloads are stored, with the same fingerprint. *)
Lemma alert_dedup_fails_across_processes :
  let w := mkWorld (redis (sample_event_world critical)) rng_serial in
  let w1 := snd (generate_alert (fun _ => 42) 1000 w) in
  let w2 := snd (generate_alert (fun _ => 43) 2000 w1) in
  R.items (redis w) K_ALERTS = [] /\
  R.items (redis w1) K_ALERTS = ["alr_0000000000"] /\
  R.items (redis w2) K_ALERTS = ["alr_0000000000"; "alr_1000000000"] /\
  exists x y,
    R.get 2000 (redis w2) "alert:alr_0000000000" = Some (RAlert x) /\
    R.get 2000 (redis w2) "alert:alr_1000000000" = Some (RAlert y) /\
    fingerprint x = fingerprint y /\
    related_event_id x = related_event_id y /\
    al_created_at y = al_created_at x + 1000.
Proof.
  cbv zeta. split; [reflexivity|]. split; [vm_compute; reflexivity|].
  split; [vm_compute; reflexivity|].
  eexists _, _. split; [vm_compute; reflexivity|]. split; [vm_compute; reflexivity|].
  split; [reflexivity|]. split; reflexivity.
Qed.

(** ** Scenario switching under lock and cooldown *)

Lemma set_scenario_cases (settings : Settings) (now : Z) (scenario : ScenarioName)
    (actor : string) (w : World) :
  set_scenario settings now scenario actor w =
  if admin_lock_sec settings <=? 0 then (Raise ResponseError, w)
  else if R.exists_ now (redis w) K_ADMIN_LOCK then (Raise busy, w)
  else
    let r := R.setex now (redis w) K_ADMIN_LOCK (admin_lock_sec settings) (RText "1") in
    if 0 <? cooldown_left now r
    then (Raise (cooling (cooldown_left now r)), mkWorld r (rng w))
    else (Ok (mkReply true scenario (SCENARIO_PRESETS scenario)
                      (admin_cooldown_sec settings)),
          mkWorld (scenario_applied settings now scenario actor (redis w)) (rng w)).
Proof.
  destruct w as [r g]. cbn [redis rng].
  unfold set_scenario, _acquire_lock, _cooldown_remaining, _set_cooldown, _announce.
  unfold bind at 1. unfold R.set_nx_ex.
  cbn [redis rng]. destruct (admin_lock_sec settings <=? 0); [reflexivity|].
  destruct (R.exists_ now r K_ADMIN_LOCK); cbn [negb].
  - reflexivity.
  - cbn zeta. run. unfold cooldown_left.
    destruct (0 <? _); run; reflexivity.
Qed.

(** With a lock shorter than the cooldown, the lock of a call has expired
    when its cooldown deadline is reached. *)
Lemma lock_expires_before_cooldown (t1 t2 lock_sec cooldown_sec : Z) :
  0 <= t1 -> 0 <= t2 -> lock_sec < cooldown_sec ->
  _now t1 + cooldown_sec <= _now t2 -> t1 + 1000 * lock_sec < t2.
Proof.
  unfold _now. intros H1 H2 HL. rewrite !Z.quot_div_nonneg by lia.
  pose proof (Z.div_mod t1 1000 ltac:(lia)).
  pose proof (Z.div_mod t2 1000 ltac:(lia)).
  pose proof (Z.mod_pos_bound t1 1000 ltac:(lia)).
  pose proof (Z.mod_pos_bound t2 1000 ltac:(lia)).
  lia.
Qed.

(** C3 (as amended): a [set_scenario] call goes through only with a
    positive [admin_lock_sec]. After a call that went through at [t1], a
    second call made while the lock of the first is still held (up to and
    including the instant [admin_lock_sec] seconds later) is refused as busy
    (409) and changes nothing at all; a second call made once the lock has
    expired and before the cooldown deadline is refused with the cooldown
    outcome (429) carrying the remaining seconds, and leaves every key but
    the lock, hence the scenario name and the three rates, as the first call
    set them, and the lists and the log untouched; a second call made once
    the lock has expired and the deadline is reached goes through and
    applies its own preset. With a lock shorter than the cooldown, as in
    the default settings, the lock has expired whenever the deadline is
    reached. *)
Theorem set_scenario_cooldown (settings : Settings) (t1 t2 : Z) (w : World)
    (s1 s2 : ScenarioName) (actor1 actor2 : string) (reply : ScenarioReply) :
  fst (set_scenario settings t1 s1 actor1 w) = Ok reply ->
  let w1 := snd (set_scenario settings t1 s1 actor1 w) in
  let lock_until := t1 + 1000 * admin_lock_sec settings in
  let cool_until := _now t1 + admin_cooldown_sec settings in
  0 < admin_lock_sec settings /\
  redis w1 = scenario_applied settings t1 s1 actor1 (redis w) /\
  (t2 <= lock_until ->
     set_scenario settings t2 s2 actor2 w1 = (Raise busy, w1)) /\
  (lock_until < t2 -> _now t2 < cool_until ->
     let w2 := snd (set_scenario settings t2 s2 actor2 w1) in
     fst (set_scenario settings t2 s2 actor2 w1) = Raise (cooling (cool_until - _now t2)) /\
     (forall key, key <> K_ADMIN_LOCK -> strs (redis w2) !! key = strs (redis w1) !! key) /\
     lists (redis w2) = lists (redis w1) /\
     updates (redis w2) = updates (redis w1)) /\
  (lock_until < t2 -> cool_until <= _now t2 ->
     set_scenario settings t2 s2 actor2 w1
     = (Ok (mkReply true s2 (SCENARIO_PRESETS s2) (admin_cooldown_sec settings)),
        mkWorld (scenario_applied settings t2 s2 actor2 (redis w1)) (rng w1))) /\
  (0 <= t1 -> 0 <= t2 -> admin_lock_sec settings < admin_cooldown_sec settings ->
   cool_until <= _now t2 ->
     set_scenario settings t2 s2 actor2 w1
     = (Ok (mkReply true s2 (SCENARIO_PRESETS s2) (admin_cooldown_sec settings)),
        mkWorld (scenario_applied settings t2 s2 actor2 (redis w1)) (rng w1))).
Proof.
  intros Hok w1 lock_until cool_until.
  assert (Hpos : (admin_lock_sec settings <=? 0) = false).
  { rewrite set_scenario_cases in Hok.
    now destruct (admin_lock_sec settings <=? 0). }
  assert (Hw1 : w1 = mkWorld (scenario_applied settings t1 s1 actor1 (redis w)) (rng w)).
  { unfold w1. rewrite set_scenario_cases in Hok |- *. rewrite Hpos in Hok |- *.
    destruct (R.exists_ t1 (redis w) K_ADMIN_LOCK); [discriminate|].
    cbv zeta in Hok |- *. destruct (0 <? _); [discriminate|]. reflexivity. }
  assert (Hlock : strs (redis w1) !! K_ADMIN_LOCK
                  = Some (mkEntry (RText "1") (Some lock_until))).
  { rewrite Hw1. cbn [redis scenario_applied strs].
    rewrite !lookup_insert_ne by discriminate. now rewrite lookup_insert_eq. }
  assert (Hcool : forall r' now,
            strs r' !! K_ADMIN_COOLDOWN_UNTIL = Some (mkEntry (RInt cool_until) None) ->
            cooldown_left now r' = Z.max 0 (cool_until - _now now)).
  { intros r' now Hr'. unfold cooldown_left, R.get. now rewrite Hr'. }
  assert (Hcd1 : strs (redis w1) !! K_ADMIN_COOLDOWN_UNTIL
                 = Some (mkEntry (RInt cool_until) None)).
  { rewrite Hw1. cbn [redis scenario_applied strs]. now rewrite lookup_insert_eq. }
  assert (Hgo : lock_until < t2 -> cool_until <= _now t2 ->
     set_scenario settings t2 s2 actor2 w1
     = (Ok (mkReply true s2 (SCENARIO_PRESETS s2) (admin_cooldown_sec settings)),
        mkWorld (scenario_applied settings t2 s2 actor2 (redis w1)) (rng w1))).
  { intros Hfree Hpast. rewrite set_scenario_cases, Hpos.
    unfold R.exists_ at 1. unfold R.get at 1. rewrite Hlock. cbn [R.live e_expire e_val].
    rewrite (proj2 (Z.leb_gt t2 lock_until) Hfree). cbv zeta.
    rewrite Hcool
      by (cbn [R.setex strs]; now rewrite lookup_insert_ne by discriminate).
    rewrite Z.max_l by lia. reflexivity. }
  split; [now apply Z.leb_gt|].
  split; [now rewrite Hw1|]. split; [|split; [|split]].
  - intros Hbusy. rewrite set_scenario_cases, Hpos.
    unfold R.exists_, R.get. rewrite Hlock. cbn [R.live e_expire e_val].
    now rewrite (proj2 (Z.leb_le t2 lock_until) Hbusy).
  - intros Hfree Hcooling w2.
    assert (Hrun : set_scenario settings t2 s2 actor2 w1
                   = (Raise (cooling (cool_until - _now t2)),
                      mkWorld (R.setex t2 (redis w1) K_ADMIN_LOCK
                                       (admin_lock_sec settings) (RText "1"))
                              (rng w1))).
    { rewrite set_scenario_cases, Hpos.
      unfold R.exists_ at 1. unfold R.get at 1. rewrite Hlock.
      cbn [R.live e_expire e_val].
      rewrite (proj2 (Z.leb_gt t2 lock_until) Hfree). cbv zeta.
      rewrite Hcool
        by (cbn [R.setex strs]; now rewrite lookup_insert_ne by discriminate).
      rewrite Z.max_r by lia. now rewrite (proj2 (Z.ltb_lt 0 _)) by lia. }
    unfold w2. rewrite Hrun. cbn [fst snd redis R.setex strs lists updates].
    split; [reflexivity|]. split; [|split; reflexivity].
    intros key Hkey. now rewrite lookup_insert_ne.
  - exact Hgo.
  - intros Ht1 Ht2 Hshort Hpast. apply Hgo; [|exact Hpast].
    now apply (lock_expires_before_cooldown t1 t2 _ (admin_cooldown_sec settings)).
Qed.


Lemma set_scenario_cooldown_witness :
  set_scenario settings_default 10000 stress "b"
    (snd (set_scenario settings_default 0 incident "a" (mkWorld redis_empty rng_least)))
  = (Raise busy,
     snd (set_scenario settings_default 0 incident "a" (mkWorld redis_empty rng_least))) /\
  fst (set_scenario settings_default 10001 stress "b"
         (snd (set_scenario settings_default 0 incident "a"
                 (mkWorld redis_empty rng_least))))
  = Raise (cooling (300 - 10)).
Proof.
  assert (Hok : fst (set_scenario settings_default 0 incident "a"
                       (mkWorld redis_empty rng_least))
                = Ok (mkReply true incident (SCENARIO_PRESETS incident) 300))
    by (vm_compute; reflexivity).
  split.
  - destruct (set_scenario_cooldown settings_default 0 10000
                (mkWorld redis_empty rng_least) incident stress "a" "b" _ Hok)
      as (_ & _ & Hbusy & _).
    apply Hbusy. vm_compute. discriminate.
  - destruct (set_scenario_cooldown settings_default 0 10001
                (mkWorld redis_empty rng_least) incident stress "a" "b" _ Hok)
      as (_ & _ & _ & Hcool & _).
    apply Hcool; vm_compute; reflexivity.
Defined.

(** C3 as it is written fails: one second after a call that went through,
    a second call is refused as busy (409), not with the cooldown outcome. *)
Lemma set_scenario_second_call_is_busy :
  fst (set_scenario settings_default 0 incident "a" (mkWorld redis_empty rng_least))
  = Ok (mkReply true incident (SCENARIO_PRESETS incident) 300) /\
  fst (set_scenario settings_default 1000 stress "b"
         (snd (set_scenario settings_default 0 incident "a"
                 (mkWorld redis_empty rng_least))))
  = Raise (HTTPException 409 "Admin operation busy, try again.") /\
  (forall rem,
     fst (set_scenario settings_default 1000 stress "b"
            (snd (set_scenario settings_default 0 incident "a"
                    (mkWorld redis_empty rng_least))))
     <> Raise (cooling rem)).
Proof.
  split; [vm_compute; reflexivity|].
  assert (H : fst (set_scenario settings_default 1000 stress "b"
                     (snd (set_scenario settings_default 0 incident "a"
                             (mkWorld redis_empty rng_least))))
              = Raise (HTTPException 409 "Admin operation busy, try again."))
    by (vm_compute; reflexivity).
  split; [exact H|]. intros rem. rewrite H. unfold cooling. intros [=].
Qed.

(** ** The stream reader *)

Lemma range_appended {A : Type} (l new : list A) :
  new <> [] ->
  R.range (l ++ new) (Z.of_nat (length l)) (Z.of_nat (length (l ++ new)) - 1) = new.
Proof.
  intros Hnew. unfold R.range, R.norm. rewrite length_app.
  assert (0 < length new)%nat by (destruct new; [done|cbn; lia]).
  replace (Z.of_nat (length l) <? 0) with false by (symmetry; apply Z.ltb_ge; lia).
  replace (Z.of_nat (length l + length new) - 1 <? 0) with false
    by (symmetry; apply Z.ltb_ge; lia).
  rewrite Z.max_r, Z.min_r by lia.
  replace (_ <? _) with false by (symmetry; apply Z.ltb_ge; lia).
  rewrite Nat2Z.id, drop_app_length.
  apply take_ge. lia.
Qed.

Lemma range_last_bounded {A : Type} (l : list A) (n : Z) :
  0 < n -> Z.of_nat (length (R.range l (- n) (-1))) <= n.
Proof.
  intros Hn. unfold R.range, R.norm.
  replace (- n <? 0) with true by (symmetry; apply Z.ltb_lt; lia).
  change (-1 <? 0) with true. cbv beta iota.
  match goal with |- context [if ?c then _ else _] => destruct c end; [cbn; lia|].
  rewrite length_take. lia.
Qed.

Lemma gen_poll_idle (now : Z) (r : Redis) (rd : Reader) :
  Z.of_nat (length (updates r)) <= last_idx rd ->
  gen_poll now r rd
  = (if 10000 <=? now - last_heartbeat rd then [Sse "heartbeat" (FHeartbeat now)] else [],
     mkReader (last_idx rd)
              (if 10000 <=? now - last_heartbeat rd then now else last_heartbeat rd)).
Proof.
  intros Hlen. unfold gen_poll.
  rewrite (proj2 (Z.ltb_ge _ _) Hlen). cbn [map app].
  now destruct (10000 <=? _).
Qed.

(** The handshake carries no entry of the log, and the cursor is the
    length of the log at connection. *)
Lemma gen_start_cursor (now : Z) (r : Redis) :
  gen_start now (stream r)
  = ([Retry 2000; Sse "hello" (FHello now)],
     mkReader (Z.of_nat (length (updates r))) now).
Proof. reflexivity. Qed.

(** As long as the log only grows, a poll emits the entries appended since
    the cursor, once each and in order, keyed by their type. *)
Lemma gen_poll_delivers (now : Z) (r r' : Redis) (new : list Update) (rd : Reader) :
  last_idx rd = Z.of_nat (length (updates r)) ->
  updates r' = updates r ++ new ->
  now - last_heartbeat rd < 10000 ->
  gen_poll now r' rd
  = (map frame_of new, mkReader (Z.of_nat (length (updates r'))) (last_heartbeat rd)).
Proof.
  intros Hidx Hnew Hbeat. unfold gen_poll.
  replace (10000 <=? now - last_heartbeat rd) with false
    by (symmetry; apply Z.leb_gt; lia).
  rewrite Hidx, Hnew. destruct new as [|x new].
  - rewrite app_nil_r, Z.ltb_irrefl. reflexivity.
  - replace (_ <? _) with true
      by (symmetry; apply Z.ltb_lt; rewrite length_app; cbn; lia).
    rewrite range_appended by done. now rewrite app_nil_r.
Qed.

(** [_push_update] keeps the log at 500 entries at most. *)
Lemma push_update_bounded (payload : Update) (w : World) :
  Z.of_nat (length (updates (redis (snd (_push_update payload w))))) <= 500.
Proof.
  rewrite push_update_run. cbn [snd redis R.ltrim_updates updates].
  now apply (range_last_bounded _ 500).
Qed.

(** A reader whose cursor has reached 500 never moves again and emits
    heartbeats only. *)
Lemma gen_poll_stalled (now : Z) (r : Redis) (rd : Reader) :
  500 <= last_idx rd -> Z.of_nat (length (updates r)) <= 500 ->
  last_idx (snd (gen_poll now r rd)) = last_idx rd /\
  forall f, f ∈ fst (gen_poll now r rd) -> f = Sse "heartbeat" (FHeartbeat now).
Proof.
  intros Hidx Hlen. rewrite gen_poll_idle by lia. cbn [fst snd last_idx].
  split; [reflexivity|]. intros f. destruct (10000 <=? _).
  - now intros ->%list_elem_of_singleton.
  - intros []%elem_of_nil.
Qed.

(** C7 at a log that is full: a reader connects when the log holds 500
    entries and takes 500 as its cursor; an update is then appended by
    [_push_update], which trims the log back to 500 entries, the new one
    last; the next poll finds a length that is not above the cursor and
    emits no frame for the new entry, and leaves the reader as it was. *)
Theorem stream_stalls_on_full_log :
  let rd := snd (gen_start 0 (stream (redis full_world))) in
  let w' := snd (_push_update late_update full_world) in
  last_idx rd = 500 /\
  last (updates (redis w')) = Some late_update /\
  Z.of_nat (length (updates (redis w'))) = 500 /\
  gen_poll 500 (redis w') rd = ([], rd).
Proof.
  cbv zeta. split; [reflexivity|]. split_and!; vm_compute; reflexivity.
Qed.

(** * Further properties *)

(** ** The update log *)

Lemma range_tail {A : Type} (l : list A) (n : Z) :
  0 < n -> R.range l (- n) (-1) = drop (length l - Z.to_nat n) l.
Proof.
  intros Hn. unfold R.range, R.norm.
  replace (- n <? 0) with true by (symmetry; apply Z.ltb_lt; lia).
  change (-1 <? 0) with true. cbv beta iota zeta.
  rewrite Z.min_id.
  destruct (Z.of_nat (length l) + -1 <? Z.max 0 (Z.of_nat (length l) + - n)) eqn:E.
  - apply Z.ltb_lt in E. assert (length l = 0%nat) as Hl by lia.
    apply length_zero_iff_nil in Hl. subst l. now rewrite drop_nil.
  - apply Z.ltb_ge in E.
    replace (Z.to_nat (Z.max 0 (Z.of_nat (length l) + - n)))
      with (length l - Z.to_nat n)%nat by lia.
    apply take_ge. rewrite length_drop. lia.
Qed.

Lemma last_drop {A : Type} (l : list A) (k : nat) :
  (k < length l)%nat -> last (drop k l) = last l.
Proof.
  revert k. induction l as [|x l IH]; intros k Hk; [cbn in Hk; lia|].
  destruct k as [|k]; [reflexivity|]. cbn [drop length] in *.
  rewrite IH by lia. destruct l; [cbn in Hk; lia|reflexivity].
Qed.

(** X1: [_push_update] never fails and touches the log only: the log
    becomes the last 500 entries of the old log followed by the payload, so
    the payload is its last entry, it never holds more than 500 entries, and
    below 500 entries the payload is simply appended. *)
Theorem push_update_log (payload : Update) (w : World) :
  let w' := snd (_push_update payload w) in
  fst (_push_update payload w) = Ok tt /\
  strs (redis w') = strs (redis w) /\ lists (redis w') = lists (redis w) /\
  rng w' = rng w /\
  updates (redis w')
  = drop (length (updates (redis w)) + 1 - 500) (updates (redis w) ++ [payload]) /\
  last (updates (redis w')) = Some payload /\
  (length (updates (redis w')) <= 500)%nat /\
  ((length (updates (redis w)) < 500)%nat ->
   updates (redis w') = updates (redis w) ++ [payload]).
Proof.
  cbv zeta. rewrite push_update_run.
  cbn [fst snd redis rng R.ltrim_updates R.rpush_updates strs lists updates].
  rewrite (range_tail _ 500) by lia. rewrite length_app. cbn [length].
  change (Z.to_nat 500) with 500%nat.
  split_and!; try reflexivity.
  - rewrite last_drop by (rewrite length_app; cbn; lia). apply last_snoc.
  - rewrite length_drop, length_app. cbn. lia.
  - intros Hlt. replace (length (updates (redis w)) + 1 - 500)%nat with 0%nat by lia.
    reflexivity.
Qed.

Lemma push_update_log_witness :
  updates (redis (snd (_push_update late_update sample_world))) = [late_update].
Proof.
  apply (push_update_log late_update sample_world). cbn. lia.
Defined.

(** ** Payloads and their TTL *)

(** X2: after [_store_json(r, key, obj, ttl)] the key reads back [obj]: for
    ever when [ttl] is not positive (a TTL the key had is dropped), and
    otherwise up to and including the instant [ttl] seconds later, after
    which the key is gone. No other key, no list and no log entry is
    touched. *)
Theorem store_json_read_back (now : Z) (key : string) (obj : rval) (ttl : Z)
    (w : World) :
  let w' := snd (_store_json now key obj ttl w) in
  fst (_store_json now key obj ttl w) = Ok tt /\
  (forall t, ttl <= 0 \/ t <= now + 1000 * ttl -> R.get t (redis w') key = Some obj) /\
  (forall t, 0 < ttl -> now + 1000 * ttl < t -> R.get t (redis w') key = None) /\
  (forall key', key' <> key -> strs (redis w') !! key' = strs (redis w) !! key') /\
  lists (redis w') = lists (redis w) /\ updates (redis w') = updates (redis w).
Proof.
  cbv zeta. destruct (Z.ltb_spec 0 ttl) as [Hpos|Hnon].
  - rewrite store_json_ttl by exact Hpos.
    cbn [fst snd redis R.setex R.set strs lists updates].
    split_and!; try reflexivity.
    + intros t [Ht|Ht]; [lia|].
      apply get_insert_live with (t := now + 1000 * ttl); [|exact Ht].
      cbn [strs R.setex R.set]. now rewrite lookup_insert_eq.
    + intros t _ Ht.
      apply get_insert_dead with (v := obj) (t := now + 1000 * ttl); [|exact Ht].
      cbn [strs R.setex R.set]. now rewrite lookup_insert_eq.
    + intros key' Hne. cbn [strs R.setex R.set]. now rewrite !lookup_insert_ne.
  - assert (Hrun : _store_json now key obj ttl w
                   = (Ok tt, mkWorld (R.set (redis w) key obj) (rng w))).
    { unfold _store_json. run.
      replace (0 <? ttl) with false by (symmetry; apply Z.ltb_ge; lia).
      now rewrite andb_false_r. }
    rewrite Hrun. cbn [fst snd redis R.set strs lists updates].
    split_and!; try reflexivity.
    + intros t _. unfold R.get. cbn [strs R.set]. now rewrite lookup_insert_eq.
    + intros t Ht. lia.
    + intros key' Hne. cbn [strs R.set]. now rewrite lookup_insert_ne.
Qed.

Lemma store_json_read_back_witness :
  R.get 600000 (redis (snd (_store_json 0 "alert:a" (RInt 7) 600 sample_world))) "alert:a"
  = Some (RInt 7) /\
  R.get 600001 (redis (snd (_store_json 0 "alert:a" (RInt 7) 600 sample_world))) "alert:a"
  = None.
Proof.
  split.
  - apply (store_json_read_back 0 "alert:a" (RInt 7) 600 sample_world). right. lia.
  - apply (store_json_read_back 0 "alert:a" (RInt 7) 600 sample_world); lia.
Defined.

(** ** Ticks with nothing to work on *)

(** X3: with an empty [assets:list] the motion tick and the event tick
    return at once, and with an empty [events:list] so does the alert tick:
    no error, and the store and the random source are as they were. *)
Theorem ticks_idle_on_empty_index (pow_half : float -> float)
    (py_round : float -> Z -> float) (py_hash : string -> Z) (now : Z) (w : World) :
  (R.items (redis w) K_ASSETS = [] ->
     update_assets pow_half now w = (Ok tt, w) /\
     generate_event py_round now w = (Ok tt, w)) /\
  (R.items (redis w) K_EVENTS = [] ->
     generate_alert py_hash now w = (Ok tt, w)).
Proof.
  split.
  - intros Hempty. split.
    + unfold update_assets. run. unfold R.lrange. now rewrite Hempty.
    + unfold generate_event. run. unfold R.llen. now rewrite Hempty.
  - intros Hempty. unfold generate_alert. run. unfold R.llen. now rewrite Hempty.
Qed.

Lemma ticks_idle_on_empty_index_witness :
  generate_alert (fun _ => 0) 5 sample_world = (Ok tt, sample_world) /\
  update_assets PrimFloat.sqrt 5 (mkWorld redis_empty rng_least)
  = (Ok tt, mkWorld redis_empty rng_least).
Proof.
  split.
  - apply (ticks_idle_on_empty_index PrimFloat.sqrt (fun x _ => x) (fun _ => 0) 5
                                     sample_world). reflexivity.
  - apply (ticks_idle_on_empty_index PrimFloat.sqrt (fun x _ => x) (fun _ => 0) 5
                                     (mkWorld redis_empty rng_least)). reflexivity.
Defined.

Ltac pick_eq :=
  run;
  lazymatch goal with
  | |- context [match ?l !! ?i with _ => _ end] => destruct (l !! i) eqn:?
  end; run; [|stop].

(** What an event tick does: nothing to the store, or one event created
    from an asset it read. *)
Lemma generate_event_effect (py_round : float -> Z -> float) (now : Z) (w : World) :
  redis (snd (generate_event py_round now w)) = redis w \/
  exists aid asset evt,
    R.get now (redis w) ("asset:" +:+ str_opt aid) = Some (RAsset asset) /\
    fst (generate_event py_round now w) = Ok tt /\
    redis (snd (generate_event py_round now w)) = event_stored evt (redis w) /\
    ev_created_at evt = now /\
    source evt = "synthetic" /\
    severity evt = severity_for (status asset) /\
    ev_type evt ∈ event_types_for (asset_type asset) (status asset) /\
    meta evt = mkMeta aid (owner_team asset) /\
    in_range 0%float 1%float (confidence evt) = true.
Proof.
  unfold generate_event, Random.randint, Random.uniform. run.
  destruct (R.llen (redis w) K_ASSETS =? 0); [stop|]. run.
  destruct (truthy _) as [raw|] eqn:Hraw; run; [|stop].
  apply truthy_Some in Hraw.
  destruct raw as [s|n|asset|e|a]; cbn [loads_asset]; run; try stop.
  unfold Random.choices, Random.choice.
  destruct (String.eqb (asset_type asset) "relay") eqn:Hrelay; [|
  destruct (String.eqb (asset_type asset) "vehicle") eqn:Hvehicle; [|
  destruct (String.eqb (asset_type asset) "drone") eqn:Hdrone]].
  all: pick_eq.
  all: destruct (status asset) eqn:Hst; run.
  all: try pick_eq.
  all: unfold uid; run.
  all: destruct (negb _) eqn:Hvalid; run; [stop|].
  all: apply negb_false_iff in Hvalid.
  all: right;
    match goal with |- context [REvent ?e] => eexists _, asset, e end.
  all: split; [exact Hraw|].
  all: split; [reflexivity|]. all: split; [reflexivity|].
  all: split; [reflexivity|]. all: split; [reflexivity|].
  all: cbn [severity ev_type meta confidence].
  all: split; [unfold _asset_risk; rewrite Hst; reflexivity|].
  all: split; [|split; [reflexivity|exact Hvalid]].
  all: unfold event_types_for; rewrite Hst, ?Hrelay, ?Hvehicle, ?Hdrone.
  all: eapply list_elem_of_lookup_2; eassumption.
Qed.

(** What an alert tick does: nothing at all, or an alert for an event with
    a priority whose fingerprint has no live marker. *)
Lemma generate_alert_effect (py_hash : string -> Z) (now : Z) (w : World) :
  generate_alert py_hash now w = (Ok tt, w) \/
  (exists e, generate_alert py_hash now w = (Raise e, w)) \/
  exists evt prio,
    latest_event now (redis w) = Some evt /\
    _event_to_priority evt = Some prio /\
    R.exists_ now (redis w) (dedup_key py_hash (alert_fingerprint prio evt)) = false.
Proof.
  unfold generate_alert, latest_event. run.
  destruct (R.llen (redis w) K_EVENTS =? 0); [now left|]. run.
  destruct (R.get now (redis w) _) as [[s|n|a|evt|a]|];
    cbn [truthy loads_event]; run; try (now left); try (right; left; now eexists).
  { destruct s as [|c s]; [now left|right; left; now eexists]. }
  destruct (_event_to_priority evt) as [prio|] eqn:Hprio; [|now left].
  run. destruct (R.exists_ now (redis w) _) eqn:Hex; [now left|].
  right. right. exists evt, prio. split; [reflexivity|]. split; [exact Hprio|exact Hex].
Qed.

Lemma items_event_stored (evt : Event) (r : Redis) (key : string) :
  R.items (event_stored evt r) key
  = R.items (R.ltrim (R.rpush r K_EVENTS (event_id evt)) K_EVENTS (-300) (-1)) key.
Proof. reflexivity. Qed.

(** ** What an event is made of *)

(** X4: an event created by [generate_event] has the severity its
    asset's status gives: low for active, medium for degraded, critical for
    offline, and never high; so only an event of an offline asset has a
    priority, and it is p1. Its type is one of those listed for the asset's
    type and status, its source is "synthetic", its time the time of the
    tick, and its confidence lies in [0, 1]. *)
Theorem event_severity_follows_status (py_round : float -> Z -> float)
    (now : Z) (w : World) :
  redis (snd (generate_event py_round now w)) = redis w \/
  exists aid asset evt,
    R.get now (redis w) ("asset:" +:+ str_opt aid) = Some (RAsset asset) /\
    strs (redis (snd (generate_event py_round now w))) !! ("event:" +:+ event_id evt)
    = Some (mkEntry (REvent evt) None) /\
    severity evt = severity_for (status asset) /\
    severity evt <> high /\
    _event_to_priority evt
    = match status asset with offline => Some p1 | _ => None end /\
    ev_type evt ∈ event_types_for (asset_type asset) (status asset) /\
    source evt = "synthetic" /\
    ev_created_at evt = now /\
    in_range 0%float 1%float (confidence evt) = true.
Proof.
  destruct (generate_event_effect py_round now w)
    as [Hsame|(aid & asset & evt & Hget & _ & Hw' & Hnow & Hsrc & Hsev & Hty & _ & Hconf)];
    [now left|].
  right. exists aid, asset, evt. split; [exact Hget|]. split.
  { rewrite Hw'. unfold event_stored.
    cbn [strs R.ltrim_updates R.rpush_updates R.ltrim R.rpush R.set].
    now rewrite lookup_insert_eq. }
  split; [exact Hsev|]. split; [rewrite Hsev; now destruct (status asset)|].
  split; [unfold _event_to_priority; rewrite Hsev; now destruct (status asset)|].
  auto.
Qed.

(** ** The recent-events and recent-alerts indices *)


(** ** Event and alert ticks leave the fleet alone *)

(** X6: an event tick and an alert tick never change an asset payload
    (any key [asset:<id>]) nor [assets:list], whatever they do. *)
Theorem event_and_alert_ticks_keep_assets (py_round : float -> Z -> float)
    (py_hash : string -> Z) (now : Z) (w : World) :
  ((forall x, strs (redis (snd (generate_event py_round now w))) !! ("asset:" +:+ x)
              = strs (redis w) !! ("asset:" +:+ x)) /\
   R.items (redis (snd (generate_event py_round now w))) K_ASSETS
   = R.items (redis w) K_ASSETS) /\
  ((forall x, strs (redis (snd (generate_alert py_hash now w))) !! ("asset:" +:+ x)
              = strs (redis w) !! ("asset:" +:+ x)) /\
   R.items (redis (snd (generate_alert py_hash now w))) K_ASSETS
   = R.items (redis w) K_ASSETS).
Proof.
  split.
  - destruct (generate_event_effect py_round now w)
      as [Hsame|(aid & asset & evt & _ & _ & Hw' & _)]; [now rewrite Hsame|].
    rewrite Hw'. split.
    + intros x. unfold event_stored.
      cbn [strs R.ltrim_updates R.rpush_updates R.ltrim R.rpush R.set].
      now rewrite lookup_insert_ne by discriminate.
    + rewrite items_event_stored.
      now rewrite items_ltrim_ne, items_rpush_ne by discriminate.
  - destruct (generate_alert_effect py_hash now w)
      as [Hsame|[[e Hsame]|(evt & prio & Hl & Hp & Hex)]];
      [now rewrite Hsame|now rewrite Hsame|].
    rewrite (generate_alert_fresh py_hash now w evt prio Hl Hp Hex).
    cbn [snd redis]. split.
    + intros x. cbn [strs].
      now rewrite !lookup_insert_ne by (unfold dedup_key; cbn; discriminate).
    + match goal with
      | |- context [R.items (mkRedis ?s ?l ?u) K_ASSETS] =>
          change (R.items (mkRedis s l u) K_ASSETS)
            with (R.items (R.ltrim (R.rpush (redis w) K_ALERTS
                                            (alert_id (alert_of now w prio evt)))
                                   K_ALERTS (-300) (-1)) K_ASSETS)
      end.
      now rewrite items_ltrim_ne, items_rpush_ne by discriminate.
Qed.

(** ** Bootstrap of an empty fleet *)

Lemma pick_ok_tick (g : Rng) : pick_ok g -> pick_ok (tick_rng g).
Proof. intros H k len. apply H. Qed.

Lemma rng_least_pick_ok : pick_ok rng_least.
Proof. intros k len Hlen. exact Hlen. Qed.

Lemma sources_ok_tick (g : Rng) :
  uniform_ok g /\ pick_ok g -> uniform_ok (tick_rng g) /\ pick_ok (tick_rng g).
Proof. intros [Hu Hp]. split; [now apply uniform_ok_tick|now apply pick_ok_tick]. Qed.

Lemma pick_some (g : Rng) (k : nat) (seq : list string) :
  pick_ok g -> seq <> [] -> exists x, seq !! rnd_pick g k (length seq) = Some x /\ x ∈ seq.
Proof.
  intros Hp Hne.
  destruct (seq !! rnd_pick g k (length seq)) as [x|] eqn:E.
  - exists x. split; [reflexivity|]. eapply list_elem_of_lookup_2, E.
  - apply lookup_ge_None in E.
    assert (0 < length seq)%nat by (destruct seq; [done|cbn; lia]).
    specialize (Hp k (length seq) H). lia.
Qed.

(** One turn of the loop: an asset is made, stored and enlisted. *)
Lemma bootstrap_asset_effect (py_round : float -> Z -> float) (now i : Z) (w : World) :
  uniform_ok (rng w) -> pick_ok (rng w) ->
  exists a w',
    bootstrap_asset py_round now i w = (Ok tt, w') /\
    redis w' = R.rpush (R.set (redis w) ("asset:" +:+ asset_id a) (RAsset a))
                       K_ASSETS (asset_id a) /\
    uniform_ok (rng w') /\ pick_ok (rng w') /\
    fresh_asset now a /\ name a = "Asset-" +:+ fmt_03d i.
Proof.
  intros Hu Hp. unfold bootstrap_asset, Random.uniform, Random.choice, uid,
    Random.randint, random_route.
  run.
  destruct (Hu (rnd_calls (rng w)) 35%float 60%float eq_refl) as [Hlat1 Hlat2].
  destruct (Hu (S (rnd_calls (rng w))) (-10)%float 30%float eq_refl) as [Hlon1 Hlon2].
  set (x_lat := rnd_uniform (rng w) (rnd_calls (rng w)) 35%float 60%float) in *.
  set (x_lon := rnd_uniform (rng w) (S (rnd_calls (rng w))) (-10)%float 30%float) in *.
  destruct (pick_some (rng w) (S (S (rnd_calls (rng w))))
              ["sensor"; "vehicle"; "relay"; "drone"] Hp ltac:(done))
    as (a_type & -> & Htype).
  run.
  destruct (pick_some (rng w) (S (S (S (rnd_calls (rng w)))))
              ["blue"; "green"; "white"] Hp ltac:(done))
    as (team & -> & Hteam).
  run.
  match goal with
  | |- context [bind (route_hops ?h ?la ?lo) _ ?w1] =>
      destruct (route_hops_spec h la lo w1) as (rest & w2 & E & Hr & Hu2 & Hlen & _ & Hreg);
      [cbn [rng]; repeat apply uniform_ok_tick; exact Hu|];
      pose proof (keeps_route_hops pick_ok (fun _ _ => True) pick_ok_tick h la lo w1) as Hk
  end.
  match type of E with
  | route_hops ?h ?la ?lo ?w1 = _ =>
      destruct (Hk ltac:(split; [cbn [rng]; repeat apply pick_ok_tick; exact Hp
                                |intros ? ? ? _ _; exact I])) as [[Hp2 _] _];
      assert (Hrun : forall B (k : list Waypoint -> M B),
                 bind (route_hops h la lo) k w1 = k rest w2)
        by (intros B k; unfold bind at 1; now rewrite E)
  end.
  rewrite E in Hp2. cbn [snd] in Hp2.
  rewrite Hrun. run. rewrite Hr. cbn [redis].
  eexists (mkAsset _ _ _ _ _ _ _ _ _ _ _), _. split; [reflexivity|].
  cbn [rng asset_id]. split; [reflexivity|].
  split; [now apply uniform_ok_tick|]. split; [now apply pick_ok_tick|].
  split; [|reflexivity].
  unfold fresh_asset, asset_in_region, lat_ok, lon_ok, in_range.
  cbn [status route_idx last_update asset_type owner_team route lat lon head length].
  split_and!; try reflexivity; try assumption.
  - rewrite Hlen. lia.
  - constructor; [|exact Hreg]. unfold waypoint_in_region, lat_ok, lon_ok, in_range.
    cbn [fst snd]. unfold Py.le in *. now rewrite Hlat1, Hlat2, Hlon1, Hlon2.
  - unfold Py.le in *. now rewrite Hlat1, Hlat2.
  - unfold Py.le in *. now rewrite Hlon1, Hlon2.
Qed.

Lemma asset_key_inj (id id' : string) : "asset:" +:+ id = "asset:" +:+ id' -> id = id'.
Proof. cbn. now intros [=]. Qed.

Lemma fleet_fresh_enlist (now : Z) (r : Redis) (a : Asset) :
  fleet_fresh now r -> fresh_asset now a ->
  fleet_fresh now (R.rpush (R.set r ("asset:" +:+ asset_id a) (RAsset a))
                           K_ASSETS (asset_id a)).
Proof.
  intros Hr Ha id. rewrite items_rpush.
  change (R.items (R.set r _ _) K_ASSETS) with (R.items r K_ASSETS).
  cbn [strs R.rpush R.set].
  destruct (decide (id = asset_id a)) as [->|Hne].
  - intros _. exists a. now rewrite lookup_insert_eq.
  - intros [Hin|Hin%list_elem_of_singleton]%elem_of_app; [|done].
    destruct (Hr id Hin) as (b & Hb & Hid & Hfresh). exists b.
    rewrite lookup_insert_ne by (intros Heq%asset_key_inj; congruence). auto.
Qed.

Lemma bootstrap_loop (py_round : float -> Z -> float) (now : Z) (l : list Z) :
  forall w,
    uniform_ok (rng w) -> pick_ok (rng w) -> fleet_fresh now (redis w) ->
    exists w',
      for_each l (bootstrap_asset py_round now) w = (Ok tt, w') /\
      uniform_ok (rng w') /\ pick_ok (rng w') /\ fleet_fresh now (redis w') /\
      length (R.items (redis w') K_ASSETS)
      = (length (R.items (redis w) K_ASSETS) + length l)%nat /\
      updates (redis w') = updates (redis w).
Proof.
  induction l as [|i l IH]; intros w Hu Hp Hf; cbn [for_each].
  - exists w. cbn. split_and!; auto.
  - destruct (bootstrap_asset_effect py_round now i w Hu Hp)
      as (a & w1 & E & Hr & Hu1 & Hp1 & Ha & _).
    assert (Hf1 : fleet_fresh now (redis w1))
      by (rewrite Hr; now apply fleet_fresh_enlist).
    destruct (IH w1 Hu1 Hp1 Hf1) as (w' & E' & Hu' & Hp' & Hf' & Hlen & Hupd).
    exists w'. unfold bind. rewrite E. split; [exact E'|].
    split_and!; auto.
    + rewrite Hlen, Hr, items_rpush, length_app.
      change (R.items (R.set (redis w) _ _) K_ASSETS) with (R.items (redis w) K_ASSETS).
      cbn [length]. lia.
    + rewrite Hupd, Hr. reflexivity.
Qed.

(** X7: on a store whose [assets:list] is empty, with a random source that
    keeps the promises of [uniform] and [choice], [bootstrap_assets(n)]
    ends without error; [assets:list] then holds [n] ids (none for a
    negative [n]); every id has its payload stored without expiry, with
    that id, status active, route index 0, a type and a team among those
    listed, a position in the region and a route of at least two waypoints
    in the region that starts at the position; the log ends with the
    bootstrap entry; and for [n > 0] a second call changes nothing. *)
Theorem bootstrap_fills_empty_fleet (py_round : float -> Z -> float) (now n : Z)
    (w : World) :
  uniform_ok (rng w) -> pick_ok (rng w) ->
  R.items (redis w) K_ASSETS = [] ->
  let w' := snd (bootstrap_assets py_round now n w) in
  fst (bootstrap_assets py_round now n w) = Ok tt /\
  length (R.items (redis w') K_ASSETS) = Z.to_nat n /\
  fleet_fresh now (redis w') /\
  last (updates (redis w')) = Some (mkUpdate "bootstrap" (DBootstrap n)) /\
  (0 < n -> forall now2 n2, bootstrap_assets py_round now2 n2 w' = (Ok tt, w')).
Proof.
  intros Hu Hp Hempty. cbv zeta.
  assert (Hf : fleet_fresh now (redis w)).
  { intros id. rewrite Hempty. now intros ?%elem_of_nil. }
  destruct (bootstrap_loop py_round now (seqZ 0 n) w Hu Hp Hf)
    as (w1 & E & _ & _ & Hf1 & Hlen & Hupd).
  rewrite Hempty, length_seqZ in Hlen. cbn in Hlen.
  assert (Hrun : bootstrap_assets py_round now n w
                 = _push_update (mkUpdate "bootstrap" (DBootstrap n)) w1).
  { unfold bootstrap_assets. rewrite bind_query. unfold R.llen. rewrite Hempty.
    change (0 <? Z.of_nat (length (@nil string))) with false. cbv iota.
    unfold bind at 1. now rewrite E. }
  rewrite Hrun, push_update_run. cbn [fst snd redis].
  assert (Hitems : forall key, R.items (R.ltrim_updates
                     (R.rpush_updates (redis w1) (mkUpdate "bootstrap" (DBootstrap n)))
                     (-500) (-1)) key = R.items (redis w1) key) by reflexivity.
  split; [reflexivity|]. split; [now rewrite Hitems|]. split.
  { intros id. rewrite Hitems. exact (Hf1 id). }
  split.
  { cbn [updates R.ltrim_updates R.rpush_updates].
    rewrite (range_tail _ 500) by lia. rewrite last_drop, last_snoc; [reflexivity|].
    rewrite length_app. cbn. lia. }
  intros Hn now2 n2. unfold bootstrap_assets. rewrite bind_query.
  unfold R.llen. rewrite Hitems, Hlen.
  replace (0 <? Z.of_nat (Z.to_nat n)) with true by (symmetry; apply Z.ltb_lt; lia).
  reflexivity.
Qed.

Lemma bootstrap_fills_empty_fleet_witness :
  length (R.items (redis (snd (bootstrap_assets (fun x _ => x) 1000 3
                                 (mkWorld redis_empty rng_least)))) K_ASSETS)
  = 3%nat.
Proof.
  apply (bootstrap_fills_empty_fleet (fun x _ => x) 1000 3 (mkWorld redis_empty rng_least)).
  - exact rng_least_uniform_ok.
  - exact rng_least_pick_ok.
  - reflexivity.
Defined.

(** ** What a motion tick keeps *)

Lemma fleet_kept_refl (r : Redis) : fleet_kept r r.
Proof. split; [reflexivity|]. intros key. now left. Qed.

Lemma fleet_kept_same (r r' : Redis) : r' = r -> fleet_kept r r'.
Proof. intros ->. apply fleet_kept_refl. Qed.

Lemma fleet_kept_trans (r1 r2 r3 : Redis) :
  fleet_kept r1 r2 -> fleet_kept r2 r3 -> fleet_kept r1 r3.
Proof.
  intros [Hl12 H12] [Hl23 H23]. split; [congruence|]. intros key.
  destruct (H12 key) as [E12|(e & e' & He & He' & Hm)],
           (H23 key) as [E23|(f & f' & Hf & Hf' & Hn)].
  - left. congruence.
  - right. exists f, f'. split; [congruence|]. auto.
  - right. exists e, e'. split; [exact He|]. split; [congruence|exact Hm].
  - right. exists e, f'. split; [exact He|]. split; [exact Hf'|].
    assert (f = e') by congruence. subst f.
    destruct Hm as (a & a' & Ha & -> & Hid & _).
    destruct Hn as (b & b' & Hb & -> & Hid' & Hreg).
    cbn in Hb. injection Hb as <-.
    exists a, b'. split_and!; [exact Ha|reflexivity|congruence|exact Hreg].
Qed.

Lemma quiet_ret {A : Type} (a : A) : quiet (ret a).
Proof. now intros w. Qed.

Lemma quiet_raise {A : Type} (e : exn) : quiet (@raise A e).
Proof. now intros w. Qed.

Lemma quiet_lift {A : Type} (o : outcome A) : quiet (lift o).
Proof. now intros w. Qed.

Lemma quiet_query {A : Type} (f : Redis -> A) : quiet (query f).
Proof. now intros w. Qed.

Lemma quiet_draw {A : Type} (f : Rng -> nat -> A) : quiet (draw f).
Proof. now intros w. Qed.

Lemma quiet_bind {A B : Type} (m : M A) (k : A -> M B) :
  quiet m -> (forall a, quiet (k a)) -> quiet (bind m k).
Proof.
  intros Hm Hk w. unfold bind. specialize (Hm w).
  destruct (m w) as [[a|e] w']; cbn [snd] in *; [|exact Hm].
  now rewrite Hk.
Qed.

Lemma quiet_route_hops (hops : nat) :
  forall cur_lat cur_lon, quiet (route_hops hops cur_lat cur_lon).
Proof.
  induction hops as [|hops IH]; intros cur_lat cur_lon; cbn [route_hops].
  - apply quiet_ret.
  - apply quiet_bind; [apply quiet_draw|]. intros d_lat.
    apply quiet_bind; [apply quiet_draw|]. intros d_lon.
    apply quiet_bind; [apply IH|]. intros rest. apply quiet_ret.
Qed.

Lemma quiet_random_route (lat lon : float) (n : Z) : quiet (random_route lat lon n).
Proof.
  unfold random_route. apply quiet_bind; [apply quiet_route_hops|].
  intros rest. apply quiet_ret.
Qed.

Section Ends.

Variable r0 : Redis.
Variable key : string.
Variable P : Asset -> Prop.

Lemma ends_bind {A B : Type} (m : M A) (k : A -> M B) :
  quiet m -> (forall a, ends r0 key P (k a)) -> ends r0 key P (bind m k).
Proof.
  intros Hm Hk w Hw. unfold bind. specialize (Hm w).
  destruct (m w) as [[a|e] w']; cbn [snd] in *.
  - apply Hk. congruence.
  - left. congruence.
Qed.

Lemma ends_store (now : Z) (a' : Asset) :
  P a' ->
  ends r0 key P (_store_json now key (RAsset a') 0 ;;;
                 _push_update (mkUpdate "asset_updated" (DAsset a'))).
Proof.
  intros Ha w Hw. right. exists a'. split; [exact Ha|].
  run. cbn [snd redis]. now rewrite Hw.
Qed.

End Ends.

(** What the body of the loop does to the store: nothing, or the asset it
    read is written back with the same id, name, type, team and speed, the
    time of the tick and a position inside the region. *)
Lemma update_asset_effect (pow_half : float -> float) (now : Z) (aid : string)
    (w : World) :
  redis (snd (update_asset pow_half now aid w)) = redis w \/
  exists a a',
    R.get now (redis w) ("asset:" +:+ aid) = Some (RAsset a) /\
    identity a' = identity a /\ last_update a' = now /\ asset_in_region a' /\
    redis (snd (update_asset pow_half now aid w))
    = asset_stored ("asset:" +:+ aid) a' (redis w).
Proof.
  unfold update_asset. rewrite bind_query.
  destruct (truthy _) as [raw|] eqn:Hraw; [|now left].
  apply truthy_Some in Hraw.
  destruct raw as [s|n|a|e|al]; cbn [loads_asset]; run; try (now left).
  pose (P := fun a' : Asset =>
               identity a' = identity a /\ last_update a' = now /\ asset_in_region a').
  match goal with
  | |- redis (snd (?m w)) = _ \/ _ =>
      assert (Hends : ends (redis w) ("asset:" +:+ aid) P m)
  end.
  { apply ends_bind.
    { destruct (_ <=? _); [|apply quiet_ret].
      apply quiet_bind; [apply quiet_draw|]. intros k.
      apply quiet_bind; [apply quiet_random_route|]. intros rt. apply quiet_ret. }
    intros [rt idx].
    apply ends_bind; [apply quiet_lift|]. intros [target_lat target_lon].
    apply ends_bind; [apply quiet_lift|]. intros [[new_lat new_lon] arrived].
    apply ends_bind; [apply quiet_draw|]. intros j_lat.
    apply ends_bind; [apply quiet_draw|]. intros j_lon.
    apply ends_bind; [apply quiet_draw|]. intros roll.
    apply ends_bind.
    { destruct (Py.lt roll _); [apply quiet_ret|].
      destruct (Py.lt roll _); [apply quiet_ret|].
      destruct (status a); [apply quiet_ret| |];
        (apply quiet_bind; [apply quiet_draw|]; intros again; apply quiet_ret). }
    intros st. apply ends_store. unfold P, identity, asset_in_region.
    cbn [asset_id name asset_type owner_team speed_kmh last_update lat lon].
    split_and!; [reflexivity|reflexivity|apply clamp_lat_ok|apply clamp_lon_ok]. }
  destruct (Hends w eq_refl) as [Hsame|(a' & (Hid & Hnow & Hreg) & Hw')]; [now left|].
  right. exists a, a'. split_and!; assumption.
Qed.

Lemma fleet_kept_update_asset (pow_half : float -> float) (now : Z) (aid : string)
    (w : World) :
  fleet_kept (redis w) (redis (snd (update_asset pow_half now aid w))).
Proof.
  destruct (update_asset_effect pow_half now aid w)
    as [Hsame|(a & a' & Hget & Hid & _ & Hreg & ->)]; [now apply fleet_kept_same|].
  split; [reflexivity|]. intros key.
  unfold asset_stored. cbn [strs R.ltrim_updates R.rpush_updates R.set].
  destruct (decide (key = "asset:" +:+ aid)) as [->|Hne].
  - right. unfold R.get in Hget.
    destruct (strs (redis w) !! ("asset:" +:+ aid)) as [e|] eqn:He; [|discriminate].
    destruct (R.live now e); [|discriminate]. injection Hget as Hval.
    exists e, (mkEntry (RAsset a') None). split; [reflexivity|].
    split; [now rewrite lookup_insert_eq|].
    exists a, a'. split_and!; auto.
  - left. now rewrite lookup_insert_ne.
Qed.

Lemma fleet_kept_for_each (pow_half : float -> float) (now : Z) (ids : list string) :
  forall w, fleet_kept (redis w)
              (redis (snd (for_each ids (update_asset pow_half now) w))).
Proof.
  induction ids as [|aid ids IH]; intros w; cbn [for_each].
  - apply fleet_kept_refl.
  - unfold bind. pose proof (fleet_kept_update_asset pow_half now aid w) as H1.
    destruct (update_asset pow_half now aid w) as [[[]|e] w1]; cbn [snd] in *.
    + eapply fleet_kept_trans; [exact H1|apply IH].
    + exact H1.
Qed.

(** X8: a motion tick keeps the fleet. Whatever the random source answers,
    and whether the tick ends or fails half way, after [update_assets] the
    lists of ids are as they were (no asset is added, removed or reordered)
    and every key of the store holds what it held, or else it held an
    asset and now holds that asset with the same id, name, type, team and
    speed, at a position inside the region and without expiry. So no
    event, alert or asset payload is lost, and no asset changes identity. *)
Theorem motion_tick_keeps_fleet (pow_half : float -> float) (now : Z) (w : World) :
  let r' := redis (snd (update_assets pow_half now w)) in
  lists r' = lists (redis w) /\
  (forall key e,
     strs (redis w) !! key = Some e ->
     strs r' !! key = Some e \/
     exists a a',
       e_val e = RAsset a /\
       strs r' !! key = Some (mkEntry (RAsset a') None) /\
       identity a' = identity a /\ asset_in_region a') /\
  (forall key, strs (redis w) !! key = None -> strs r' !! key = None).
Proof.
  cbv zeta.
  assert (H : fleet_kept (redis w) (redis (snd (update_assets pow_half now w)))).
  { unfold update_assets, Random.randint, Random.sample. run.
    destruct (R.lrange _ _ _ _) as [|x ids]; [apply fleet_kept_refl|].
    run. eapply fleet_kept_trans; [|apply fleet_kept_for_each].
    cbn [redis]. apply fleet_kept_refl. }
  destruct H as [Hl Hk]. split; [exact Hl|]. split.
  - intros key e He. destruct (Hk key) as [E|(e0 & e' & He0 & He' & a & a' & Ha & -> & Hid & Hreg)].
    + left. congruence.
    + right. assert (e0 = e) by congruence. subst e0. exists a, a'. auto.
  - intros key Hnone. destruct (Hk key) as [E|(e0 & e' & He0 & _)]; congruence.
Qed.

Lemma motion_tick_keeps_fleet_witness :
  let r' := redis (snd (update_assets (fun x => x) 1000 sample_world)) in
  strs r' !! "asset:ast_a1" = Some (mkEntry (RAsset sample_asset) None) \/
  exists a a',
    e_val (mkEntry (RAsset sample_asset) None) = RAsset a /\
    strs r' !! "asset:ast_a1" = Some (mkEntry (RAsset a') None) /\
    identity a' = identity a /\ asset_in_region a'.
Proof.
  apply (motion_tick_keeps_fleet (fun x => x) 1000 sample_world). reflexivity.
Defined.

(** ** The list routes *)

Section RoutesFacts.

Variable loads_text : string -> outcome rval.

Lemma fetch_loop_spec (now : Z) (key_prefix : string) (ids : list string) :
  forall (out : list rval) (w : World),
    snd (fetch_loop loads_text now key_prefix ids out w) = w /\
    forall items,
      fst (fetch_loop loads_text now key_prefix ids out w) = Ok items ->
      exists more, items = out ++ more /\ (length more <= length ids)%nat.
Proof.
  induction ids as [|x ids IH]; intros out w; cbn [fetch_loop].
  - split; [reflexivity|]. intros items [= <-]. exists []. now rewrite app_nil_r.
  - run. destruct (truthy _) as [raw|].
    + destruct (json_loads loads_text raw) as [item|e]; run.
      * destruct (IH (out ++ [item]) w) as [Hw Hitems]. split; [exact Hw|].
        intros items Hok. destruct (Hitems items Hok) as (more & -> & Hlen).
        exists (item :: more). rewrite <- app_assoc. split; [reflexivity|]. cbn. lia.
      * split; [reflexivity|]. intros items [=].
    + destruct (IH out w) as [Hw Hitems]. split; [exact Hw|].
      intros items Hok. destruct (Hitems items Hok) as (more & -> & Hlen).
      exists more. split; [reflexivity|]. cbn. lia.
Qed.

Lemma fetch_loop_missing (now : Z) (key_prefix x : string) (ids : list string)
    (out : list rval) (w : World) :
  R.get now (redis w) (key_prefix +:+ ":" +:+ x) = None ->
  fetch_loop loads_text now key_prefix (x :: ids) out w
  = fetch_loop loads_text now key_prefix ids out w.
Proof. intros Hget. cbn [fetch_loop]. run. now rewrite Hget. Qed.

Lemma range_prefix_bounded {A : Type} (l : list A) (stop : Z) :
  0 <= stop -> Z.of_nat (length (R.range l 0 stop)) <= stop + 1.
Proof.
  intros Hstop. unfold R.range, R.norm. change (0 <? 0) with false.
  replace (stop <? 0) with false by (symmetry; apply Z.ltb_ge; lia).
  cbv beta iota zeta. rewrite Z.max_id.
  match goal with |- context [if ?c then _ else _] => destruct c end; [cbn; lia|].
  rewrite length_take, length_drop. lia.
Qed.

(** X9: the three list routes never change the store nor the random
    source, whether they return or fail; on an empty index they return no
    item; and for a limit of at least 1 they return at most [limit] items. *)
Theorem list_routes_read_only (now limit : Z) (w : World) :
  (snd (list_events loads_text now limit w) = w /\
   snd (list_assets loads_text now limit w) = w /\
   snd (list_alerts loads_text now limit w) = w) /\
  (R.items (redis w) K_EVENTS = [] -> list_events loads_text now limit w = (Ok [], w)) /\
  (R.items (redis w) K_ASSETS = [] -> list_assets loads_text now limit w = (Ok [], w)) /\
  (R.items (redis w) K_ALERTS = [] -> list_alerts loads_text now limit w = (Ok [], w)) /\
  (1 <= limit ->
   forall items,
     fst (list_events loads_text now limit w) = Ok items \/
     fst (list_assets loads_text now limit w) = Ok items \/
     fst (list_alerts loads_text now limit w) = Ok items ->
     Z.of_nat (length items) <= limit).
Proof.
  unfold list_events, list_assets, list_alerts, fetch_items_by_ids.
  split; [|split; [|split; [|split]]].
  - split_and!; run; destruct (_ <=? 0); try reflexivity; run;
      apply fetch_loop_spec.
  - intros Hempty. run. unfold R.llen. now rewrite Hempty.
  - intros Hempty. run. unfold R.llen. now rewrite Hempty.
  - intros Hempty. run. unfold R.llen. now rewrite Hempty.
  - intros Hlimit items.
    assert (Hfetch : forall prefix ids,
              fst (fetch_loop loads_text now prefix ids [] w) = Ok items ->
              (length items <= length ids)%nat).
    { intros prefix ids Hok.
      destruct (proj2 (fetch_loop_spec now prefix ids [] w) items Hok)
        as (more & -> & Hlen). exact Hlen. }
    run. intros [Hok|[Hok|Hok]]; destruct (_ <=? 0) eqn:Htotal;
      try (injection Hok as <-; cbn; lia);
      apply Hfetch in Hok; rewrite ?length_reverse in Hok; unfold R.lrange in Hok.
    + pose proof (range_last_bounded (R.items (redis w) K_EVENTS) limit). lia.
    + apply Z.leb_gt in Htotal.
      pose proof (range_prefix_bounded (R.items (redis w) K_ASSETS)
                    (Z.min (limit - 1) (R.llen (redis w) K_ASSETS - 1))). lia.
    + pose proof (range_last_bounded (R.items (redis w) K_ALERTS) limit). lia.
Qed.


Lemma newest_first_ids (l : list string) (x : string) (limit : Z) :
  1 <= limit -> last l = Some x ->
  exists older, reverse (R.range l (- limit) (-1)) = x :: older.
Proof.
  intros Hlimit Hlast. rewrite range_tail by lia.
  assert (Hne : (0 < length l)%nat) by (destruct l; [discriminate|cbn; lia]).
  assert (Hl : last (drop (length l - Z.to_nat limit) l) = Some x)
    by (rewrite last_drop by lia; exact Hlast).
  apply last_Some in Hl as [ys ->]. exists (reverse ys).
  now rewrite reverse_snoc.
Qed.

Lemma fetch_loop_found (now : Z) (key_prefix x : string) (ids : list string)
    (v : rval) (w : World) :
  R.get now (redis w) (key_prefix +:+ ":" +:+ x) = Some v ->
  truthy (Some v) = Some v -> json_loads loads_text v = Ok v ->
  forall items,
    fst (fetch_loop loads_text now key_prefix (x :: ids) [] w) = Ok items ->
    head items = Some v.
Proof.
  intros Hget Htrue Hloads items. cbn [fetch_loop]. run.
  rewrite Hget, Htrue. rewrite Hloads. run. intros Hok.
  destruct (proj2 (fetch_loop_spec now key_prefix ids ([] ++ [v]) w) items Hok)
    as (more & -> & _). reflexivity.
Qed.

(** X10: once an event tick has created an event, [list_events] called
    on the resulting store, at any time and with any limit of at least 1,
    returns that event first whenever it returns. *)
Theorem list_events_newest_first (py_round : float -> Z -> float)
    (now t limit : Z) (w : World) :
  1 <= limit ->
  let w' := snd (generate_event py_round now w) in
  redis w' = redis w \/
  exists evt,
    last (R.items (redis w') K_EVENTS) = Some (event_id evt) /\
    R.get t (redis w') ("event:" +:+ event_id evt) = Some (REvent evt) /\
    forall items,
      fst (list_events loads_text t limit w') = Ok items -> head items = Some (REvent evt).
Proof.
  intros Hlimit w'.
  destruct (generate_event_effect py_round now w)
    as [Hsame|(aid & asset & evt & _ & _ & Hw' & _)]; [now left|].
  right. exists evt. fold w' in Hw'.
  assert (Hlast : last (R.items (redis w') K_EVENTS) = Some (event_id evt)).
  { rewrite Hw', items_event_stored, items_ltrim, items_rpush.
    rewrite (range_tail _ 300) by lia.
    rewrite last_drop by (rewrite length_app; cbn; lia). apply last_snoc. }
  assert (Hget : R.get t (redis w') ("event:" +:+ event_id evt) = Some (REvent evt)).
  { rewrite Hw'. unfold R.get, event_stored.
    cbn [strs R.ltrim_updates R.rpush_updates R.ltrim R.rpush R.set].
    now rewrite lookup_insert_eq. }
  split; [exact Hlast|]. split; [exact Hget|].
  intros items. unfold list_events, fetch_items_by_ids. run.
  assert (Hne : (R.llen (redis w') K_EVENTS <=? 0) = false).
  { apply Z.leb_gt. unfold R.llen.
    destruct (R.items (redis w') K_EVENTS); [discriminate|cbn; lia]. }
  rewrite Hne. run.
  destruct (newest_first_ids _ _ limit Hlimit Hlast) as [older Hids].
  unfold R.lrange. rewrite Hids.
  now apply fetch_loop_found.
Qed.


(** X11: the alert a tick creates stays at the tail of [alerts:list];
    up to and including the instant 600 seconds after the tick
    [list_alerts] returns it first; past that instant its payload is gone
    and [list_alerts] answers as if its id were not in the index, though it
    still is. *)
Theorem list_alerts_drops_expired (py_hash : string -> Z) (now1 t limit : Z)
    (w : World) (evt : Event) (prio : AlertPriority) :
  1 <= limit ->
  latest_event now1 (redis w) = Some evt ->
  _event_to_priority evt = Some prio ->
  R.exists_ now1 (redis w) (dedup_key py_hash (alert_fingerprint prio evt)) = false ->
  let a := alert_of now1 w prio evt in
  let w1 := snd (generate_alert py_hash now1 w) in
  last (R.items (redis w1) K_ALERTS) = Some (alert_id a) /\
  (t <= now1 + 1000 * 600 ->
   forall items,
     fst (list_alerts loads_text t limit w1) = Ok items -> head items = Some (RAlert a)) /\
  (now1 + 1000 * 600 < t ->
   R.get t (redis w1) ("alert:" +:+ alert_id a) = None /\
   exists older,
     reverse (R.lrange (redis w1) K_ALERTS (- limit) (-1)) = alert_id a :: older /\
     list_alerts loads_text t limit w1 = fetch_items_by_ids loads_text t older "alert" w1).
Proof.
  intros Hlimit Hl Hp Hex a w1.
  pose proof (generate_alert_fresh py_hash now1 w evt prio Hl Hp Hex) as Hrun.
  cbv zeta in Hrun. fold a in Hrun.
  assert (Hw1 : w1 = snd (generate_alert py_hash now1 w)) by reflexivity.
  rewrite Hrun in Hw1. cbn [snd] in Hw1.
  assert (Hitems : R.items (redis w1) K_ALERTS
                   = R.range (R.items (redis w) K_ALERTS ++ [alert_id a]) (-300) (-1)).
  { rewrite Hw1. cbn [redis].
    match goal with
    | |- context [R.items (mkRedis ?s ?l ?u) K_ALERTS] =>
        change (R.items (mkRedis s l u) K_ALERTS)
          with (R.items (R.ltrim (R.rpush (redis w) K_ALERTS (alert_id a))
                                 K_ALERTS (-300) (-1)) K_ALERTS)
    end.
    now rewrite items_ltrim, items_rpush. }
  assert (Hlast : last (R.items (redis w1) K_ALERTS) = Some (alert_id a)).
  { rewrite Hitems, (range_tail _ 300) by lia.
    rewrite last_drop by (rewrite length_app; cbn; lia). apply last_snoc. }
  assert (Hkey : strs (redis w1) !! ("alert:" +:+ alert_id a)
                 = Some (mkEntry (RAlert a) (Some (now1 + 1000 * 600)))).
  { rewrite Hw1. cbn [redis strs]. now rewrite lookup_insert_eq. }
  assert (Hne : (R.llen (redis w1) K_ALERTS <=? 0) = false).
  { apply Z.leb_gt. unfold R.llen.
    destruct (R.items (redis w1) K_ALERTS); [discriminate|cbn; lia]. }
  destruct (newest_first_ids _ _ limit Hlimit Hlast) as [older Hids].
  split; [exact Hlast|]. split.
  - intros Hlive items. unfold list_alerts, fetch_items_by_ids. run.
    rewrite Hne. run. unfold R.lrange. rewrite Hids.
    apply fetch_loop_found; try reflexivity.
    now apply (get_insert_live _ _ _ _ _ Hkey).
  - intros Hgone.
    assert (Hget : R.get t (redis w1) ("alert:" +:+ alert_id a) = None)
      by now apply (get_insert_dead _ _ _ _ _ Hkey).
    split; [exact Hget|]. exists older. split; [exact Hids|].
    unfold list_alerts, fetch_items_by_ids. run.
    rewrite Hne. run. unfold R.lrange. rewrite Hids.
    now apply fetch_loop_missing.
Qed.


End RoutesFacts.

Lemma list_routes_read_only_witness :
  list_events (fun _ => Raise TypeError) 5 50 sample_world = (Ok [], sample_world).
Proof.
  apply (list_routes_read_only (fun _ => Raise TypeError) 5 50 sample_world). reflexivity.
Defined.

Lemma list_events_newest_first_witness :
  exists evt,
    forall items,
      fst (list_events (fun _ => Raise TypeError) 4000 50 (snd (generate_event (fun x _ => x) 3000 sample_world)))
      = Ok items ->
      head items = Some (REvent evt).
Proof.
  destruct (list_events_newest_first (fun _ => Raise TypeError) (fun x _ => x) 3000 4000 50 sample_world
              ltac:(lia)) as [Hsame|(evt & _ & _ & Hhead)].
  - exfalso. apply (f_equal (fun r => R.llen r K_EVENTS)) in Hsame.
    vm_compute in Hsame. discriminate.
  - exists evt. exact Hhead.
Defined.

Lemma list_alerts_drops_expired_witness :
  last (R.items (redis (snd (generate_alert (fun _ => 42) 1000
                               (sample_event_world critical)))) K_ALERTS)
  = Some (alert_id (alert_of 1000 (sample_event_world critical) p1
                             (sample_event critical))) /\
  R.get 601001 (redis (snd (generate_alert (fun _ => 42) 1000
                              (sample_event_world critical))))
        ("alert:" +:+ alert_id (alert_of 1000 (sample_event_world critical) p1
                                         (sample_event critical)))
  = None.
Proof.
  assert (Hlatest : latest_event 1000 (redis (sample_event_world critical))
                    = Some (sample_event critical)) by (vm_compute; reflexivity).
  assert (Hfresh : R.exists_ 1000 (redis (sample_event_world critical))
                     (dedup_key (fun _ => 42)
                                (alert_fingerprint p1 (sample_event critical)))
                   = false) by (vm_compute; reflexivity).
  destruct (list_alerts_drops_expired (fun _ => Raise TypeError) (fun _ => 42) 1000 601001 50
              (sample_event_world critical) (sample_event critical) p1
              ltac:(lia) Hlatest eq_refl Hfresh) as (Hlast & _ & Hgone).
  split; [exact Hlast|]. apply Hgone. lia.
Defined.

(** ** Reading the admin state back *)

Lemma set_scenario_applied (settings : Settings) (now : Z) (scenario : ScenarioName)
    (actor : string) (w : World) (reply : ScenarioReply) :
  fst (set_scenario settings now scenario actor w) = Ok reply ->
  snd (set_scenario settings now scenario actor w)
  = mkWorld (scenario_applied settings now scenario actor (redis w)) (rng w).
Proof.
  rewrite set_scenario_cases.
  destruct (admin_lock_sec settings <=? 0); [discriminate|].
  destruct (R.exists_ now (redis w) K_ADMIN_LOCK); [discriminate|].
  cbv zeta. destruct (0 <? _); [discriminate|]. reflexivity.
Qed.

Lemma get_applied (settings : Settings) (now t : Z) (scenario : ScenarioName)
    (actor : string) (r : Redis) :
  let r' := scenario_applied settings now scenario actor r in
  R.get t r' K_SCENARIO = Some (RText (ScenarioName_str scenario)) /\
  R.get t r' K_RATE_EVENT = Some (RInt (p_event (SCENARIO_PRESETS scenario))) /\
  R.get t r' K_RATE_ASSET = Some (RInt (p_asset (SCENARIO_PRESETS scenario))) /\
  R.get t r' K_RATE_ALERT = Some (RInt (p_alert (SCENARIO_PRESETS scenario))) /\
  R.get t r' K_ADMIN_COOLDOWN_UNTIL
  = Some (RInt (_now now + admin_cooldown_sec settings)).
Proof.
  cbv zeta. unfold R.get, scenario_applied. cbn [strs].
  split_and!;
    rewrite ?lookup_insert_ne by discriminate; now rewrite lookup_insert_eq.
Qed.

(** X12: [_get_rate] never changes anything; it returns the default when
    the key is missing, and never less than 1 when the default is at least
    1. After a [set_scenario] that went through, the three loops read the
    intervals of its preset, whatever their defaults. *)
Theorem get_rate_follows_scenario (py_int : string -> option Z)
    (settings : Settings) (now t : Z)
    (scenario : ScenarioName) (actor : string) (w : World) (default : Z) :
  (forall key, snd (_get_rate py_int t key default w) = w) /\
  (forall key, R.get t (redis w) key = None -> fst (_get_rate py_int t key default w) = Ok default) /\
  (forall key, 1 <= default ->
     exists n, fst (_get_rate py_int t key default w) = Ok n /\ 1 <= n) /\
  (forall reply,
     fst (set_scenario settings now scenario actor w) = Ok reply ->
     let w' := snd (set_scenario settings now scenario actor w) in
     fst (_get_rate py_int t K_RATE_EVENT default w') = Ok (p_event (SCENARIO_PRESETS scenario)) /\
     fst (_get_rate py_int t K_RATE_ASSET default w') = Ok (p_asset (SCENARIO_PRESETS scenario)) /\
     fst (_get_rate py_int t K_RATE_ALERT default w') = Ok (p_alert (SCENARIO_PRESETS scenario))).
Proof.
  unfold _get_rate. split_and!.
  - intros key. now run.
  - intros key Hnone. run. now rewrite Hnone.
  - intros key Hdef. run. destruct (R.get t (redis w) key) as [[s|n|a|e|a]|];
      try destruct (py_int s); eexists; (split; [reflexivity|cbn; lia]).
  - intros reply Hok. cbv zeta. rewrite (set_scenario_applied _ _ _ _ _ _ Hok).
    run.
    destruct (get_applied settings now t scenario actor (redis w))
      as (_ & -> & -> & -> & _).
    now destruct scenario.
Qed.

Lemma get_rate_follows_scenario_witness :
  fst (_get_rate (fun _ => None) 5000 K_RATE_EVENT 6 (mkWorld redis_empty rng_least)) = Ok 6 /\
  (exists n, fst (_get_rate (fun _ => None) 5000 K_RATE_EVENT 6
                    (mkWorld redis_empty rng_least)) = Ok n /\ 1 <= n) /\
  fst (_get_rate (fun _ => None) 5000 K_RATE_EVENT 6
         (snd (set_scenario settings_default 0 stress "a" (mkWorld redis_empty rng_least))))
  = Ok 2.
Proof.
  destruct (get_rate_follows_scenario (fun _ => None) settings_default 0 5000 stress "a"
              (mkWorld redis_empty rng_least) 6) as (_ & Hmiss & Hpos & Hset).
  split; [|split].
  - apply Hmiss. reflexivity.
  - apply Hpos. lia.
  - apply (Hset (mkReply true stress (SCENARIO_PRESETS stress) 300)). reflexivity.
Defined.

(** X13: [admin_state] never changes anything and never fails, and the
    cooldown it reports is never negative. Where stripping and lowering
    leaves the three preset names alone: on a store without admin keys it
    reports "normal", the rates of that preset and no cooldown; after a
    [set_scenario] that went through at [now] it reports that scenario, the
    rates of its preset and the seconds left until [now]'s second plus the
    cooldown, down to 0. *)
Theorem admin_state_reads_back (str_strip_lower : string -> string)
    (py_int : string -> option Z)
    (settings : Settings) (now t : Z) (scenario : ScenarioName) (actor : string)
    (w : World) :
  (snd (admin_state str_strip_lower py_int t w) = w /\
   exists st, fst (admin_state str_strip_lower py_int t w) = Ok st /\
              0 <= st_cooldown_remaining st) /\
  ((forall s, str_strip_lower (ScenarioName_str s) = ScenarioName_str s) ->
   0 <= t ->
   R.get t (redis w) K_SCENARIO = None ->
   R.get t (redis w) K_RATE_EVENT = None ->
   R.get t (redis w) K_RATE_ASSET = None ->
   R.get t (redis w) K_RATE_ALERT = None ->
   R.get t (redis w) K_ADMIN_COOLDOWN_UNTIL = None ->
   fst (admin_state str_strip_lower py_int t w)
   = Ok (mkAdminState normal (SCENARIO_PRESETS normal) 0)) /\
  (forall reply,
     (forall s, str_strip_lower (ScenarioName_str s) = ScenarioName_str s) ->
     fst (set_scenario settings now scenario actor w) = Ok reply ->
     fst (admin_state str_strip_lower py_int t (snd (set_scenario settings now scenario actor w)))
     = Ok (mkAdminState scenario (SCENARIO_PRESETS scenario)
             (Z.max 0 (_now now + admin_cooldown_sec settings - _now t)))).
Proof.
  unfold admin_state, _get_int, _cooldown_remaining. split_and!.
  - now run.
  - run. eexists. split; [reflexivity|]. cbn [st_cooldown_remaining]. lia.
  - intros Hfix Ht H1 H2 H3 H4 H5. run. rewrite H1, H2, H3, H4, H5.
    change "normal"%string with (ScenarioName_str normal).
    rewrite (Hfix normal). cbn. do 2 f_equal.
    assert (0 <= _now t) by (unfold _now; now apply Z.quot_pos). lia.
  - intros reply Hfix Hok. rewrite (set_scenario_applied _ _ _ _ _ _ Hok). run.
    destruct (get_applied settings now t scenario actor (redis w))
      as (-> & -> & -> & -> & ->).
    rewrite Hfix. now destruct scenario.
Qed.

Lemma admin_state_reads_back_witness :
  fst (admin_state (fun s => s) (fun _ => None) 4000 (mkWorld redis_empty rng_least))
  = Ok (mkAdminState normal (SCENARIO_PRESETS normal) 0) /\
  fst (admin_state (fun s => s) (fun _ => None) 4000
         (snd (set_scenario settings_default 0 incident "a"
                 (mkWorld redis_empty rng_least))))
  = Ok (mkAdminState incident (SCENARIO_PRESETS incident) 296).
Proof.
  destruct (admin_state_reads_back (fun s => s) (fun _ => None) settings_default 0 4000
              incident "a" (mkWorld redis_empty rng_least)) as (_ & Hfresh & Hset).
  split.
  - apply Hfresh; [reflexivity|lia|reflexivity..].
  - apply (Hset (mkReply true incident (SCENARIO_PRESETS incident) 300)).
    + reflexivity.
    + reflexivity.
Defined.

(** ** The admin lock *)

Lemma acquire_lock_cases (settings : Settings) (now : Z) (w : World) :
  _acquire_lock settings now w =
  if admin_lock_sec settings <=? 0 then (Raise ResponseError, w)
  else if R.exists_ now (redis w) K_ADMIN_LOCK
  then (Ok false, mkWorld (redis w) (rng w))
  else (Ok true,
        mkWorld (R.setex now (redis w) K_ADMIN_LOCK (admin_lock_sec settings) (RText "1"))
                (rng w)).
Proof.
  unfold _acquire_lock, R.set_nx_ex.
  destruct (admin_lock_sec settings <=? 0); [reflexivity|].
  now destruct (R.exists_ now (redis w) K_ADMIN_LOCK).
Qed.

(** X14: with a positive [admin_lock_sec], [_acquire_lock] never fails.
    When it takes the lock at [now], every attempt made up to and including
    the instant [admin_lock_sec] seconds later is refused and changes
    nothing, and an attempt made past that instant takes it again; taking
    the lock changes no other key, no list and no log entry. When it is
    refused, the store is as it was. With an [admin_lock_sec] that is not
    positive the store refuses the expire time: the call fails and changes
    nothing. *)
Theorem acquire_lock_excludes (settings : Settings) (now : Z) (w : World) :
  let w1 := snd (_acquire_lock settings now w) in
  (fst (_acquire_lock settings now w) = Ok true ->
   (forall t, t <= now + 1000 * admin_lock_sec settings ->
      _acquire_lock settings t w1 = (Ok false, w1)) /\
   (forall t, now + 1000 * admin_lock_sec settings < t ->
      fst (_acquire_lock settings t w1) = Ok true) /\
   (forall key, key <> K_ADMIN_LOCK -> strs (redis w1) !! key = strs (redis w) !! key) /\
   lists (redis w1) = lists (redis w) /\ updates (redis w1) = updates (redis w)) /\
  (fst (_acquire_lock settings now w) = Ok false -> redis w1 = redis w) /\
  (0 < admin_lock_sec settings -> exists b, fst (_acquire_lock settings now w) = Ok b) /\
  (admin_lock_sec settings <= 0 ->
   _acquire_lock settings now w = (Raise ResponseError, w)).
Proof.
  cbv zeta. rewrite (acquire_lock_cases settings now w).
  destruct (Z.leb_spec (admin_lock_sec settings) 0) as [Hnon|Hpos]; cbn [fst snd].
  { split; [intros [=]|]. split; [intros [=]|]. split; [lia|reflexivity]. }
  assert (Hleb : (admin_lock_sec settings <=? 0) = false) by (apply Z.leb_gt; lia).
  destruct (R.exists_ now (redis w) K_ADMIN_LOCK) eqn:Hheld; cbn [fst snd redis].
  - split; [intros [=]|]. split; [reflexivity|]. split; [now eexists|lia].
  - split; [|split; [intros [=]|split; [now eexists|lia]]]. intros _.
    set (r1 := R.setex now (redis w) K_ADMIN_LOCK (admin_lock_sec settings) (RText "1")).
    assert (Hlock : strs r1 !! K_ADMIN_LOCK
                    = Some (mkEntry (RText "1")
                                    (Some (now + 1000 * admin_lock_sec settings)))).
    { unfold r1. cbn [R.setex strs]. now rewrite lookup_insert_eq. }
    split_and!.
    + intros t Ht. rewrite acquire_lock_cases, Hleb. cbn [redis rng].
      unfold R.exists_. now rewrite (get_insert_live _ _ _ _ _ Hlock Ht).
    + intros t Ht. rewrite acquire_lock_cases, Hleb. cbn [redis rng].
      unfold R.exists_. now rewrite (get_insert_dead _ _ _ _ _ Hlock Ht).
    + intros key Hne. unfold r1. cbn [R.setex strs]. now rewrite lookup_insert_ne.
    + reflexivity.
    + reflexivity.
Qed.

Lemma acquire_lock_excludes_witness :
  _acquire_lock settings_default 10000
    (snd (_acquire_lock settings_default 0 (mkWorld redis_empty rng_least)))
  = (Ok false, snd (_acquire_lock settings_default 0 (mkWorld redis_empty rng_least))) /\
  fst (_acquire_lock settings_default 10001
         (snd (_acquire_lock settings_default 0 (mkWorld redis_empty rng_least))))
  = Ok true /\
  _acquire_lock (mkSettings 300 0) 0 (mkWorld redis_empty rng_least)
  = (Raise ResponseError, mkWorld redis_empty rng_least).
Proof.
  destruct (acquire_lock_excludes settings_default 0 (mkWorld redis_empty rng_least))
    as (Htaken & _ & _ & _).
  destruct (Htaken eq_refl) as (Hheld & Hfree & _).
  split; [|split].
  - apply Hheld. vm_compute. discriminate.
  - apply Hfree. vm_compute. reflexivity.
  - apply (acquire_lock_excludes (mkSettings 300 0) 0 (mkWorld redis_empty rng_least)).
    vm_compute. discriminate.
Defined.

(** ** A connection over several polls *)

Lemma data_frames_app (fs gs : list Frame) :
  data_frames (fs ++ gs) = data_frames fs ++ data_frames gs.
Proof. apply List.filter_app. Qed.

Lemma data_frames_frame_of (l : list Update) : data_frames (map frame_of l) = map frame_of l.
Proof. induction l as [|x l IH]; [done|]. cbn. now f_equal. Qed.

Lemma beats_app (fs gs : list Frame) : beats (fs ++ gs) = beats fs ++ beats gs.
Proof. apply omap_app. Qed.

Lemma beats_frame_of (l : list Update) : beats (map frame_of l) = [].
Proof. induction l as [|x l IH]; [done|]. exact IH. Qed.

(** What one poll emits, whatever the store: the entries from the cursor
    on when the log is longer than the cursor, then at most one heartbeat. *)
Lemma gen_poll_frames (now : Z) (r : Redis) (rd : Reader) :
  exists items,
    fst (gen_poll now r rd)
    = map frame_of items
      ++ (if 10000 <=? now - last_heartbeat rd then [Sse "heartbeat" (FHeartbeat now)] else []) /\
    last_heartbeat (snd (gen_poll now r rd))
    = (if 10000 <=? now - last_heartbeat rd then now else last_heartbeat rd) /\
    items = (if last_idx rd <? Z.of_nat (length (updates r))
             then R.range (updates r) (last_idx rd) (Z.of_nat (length (updates r)) - 1)
             else []) /\
    last_idx (snd (gen_poll now r rd))
    = (if last_idx rd <? Z.of_nat (length (updates r))
       then Z.of_nat (length (updates r)) else last_idx rd).
Proof.
  unfold gen_poll. cbv zeta.
  destruct (last_idx rd <? _); destruct (10000 <=? _); eexists; split_and!; reflexivity.
Qed.

Lemma gen_loop_cons (now : Z) (r : Redis) (rest : list (Z * Redis)) (rd : Reader) :
  gen_loop ((now, r) :: rest) rd
  = (fst (gen_poll now r rd) ++ fst (gen_loop rest (snd (gen_poll now r rd))),
     snd (gen_loop rest (snd (gen_poll now r rd)))).
Proof.
  cbn [gen_loop]. destruct (gen_poll now r rd) as [frames rd1]. cbn [fst snd].
  now destruct (gen_loop rest rd1).
Qed.

(** X15: a client that connects when the log is [updates r], and then polls
    while the log only grows, receives after the handshake exactly the
    entries appended since it connected: none of the earlier ones, each new
    one once, in the order of the log, under its type. Its cursor ends at
    the length of the log. *)
Theorem connection_delivers_appended (now : Z) (r : Redis) (polls : list (Z * Redis))
    (news : list (list Update)) :
  grows (updates r) polls news ->
  data_frames (fst (connection now r polls)) = map frame_of (concat news) /\
  last_idx (snd (connection now r polls))
  = Z.of_nat (length (updates r ++ concat news)) /\
  take 2 (fst (connection now r polls)) = [Retry 2000; Sse "hello" (FHello now)].
Proof.
  unfold connection. rewrite gen_start_cursor.
  set (rd := mkReader _ now).
  assert (Hidx : last_idx rd = Z.of_nat (length (updates r))) by reflexivity.
  clearbody rd. intros Hgrows.
  cut (data_frames (fst (gen_loop polls rd)) = map frame_of (concat news) /\
       last_idx (snd (gen_loop polls rd)) = Z.of_nat (length (updates r ++ concat news))).
  { destruct (gen_loop polls rd) as [more rd1]. cbn [fst snd].
    intros [Hd Hi]. split_and!; [|exact Hi|reflexivity].
    rewrite data_frames_app. exact Hd. }
  generalize dependent (updates r). revert rd news.
  induction polls as [|[t r1] polls IH]; intros rd news log Hidx Hgrows.
  - destruct news; [|done]. cbn. now rewrite app_nil_r.
  - destruct news as [|new news]; [destruct Hgrows|]. destruct Hgrows as [Hnew Hrest].
    rewrite gen_loop_cons. cbn [fst snd concat].
    destruct (gen_poll_frames t r1 rd) as (items & Hf & _ & Hitems & Hcur).
    assert (Hitems' : items = new).
    { rewrite Hitems, Hidx, Hnew. destruct new as [|x new].
      - now rewrite app_nil_r, Z.ltb_irrefl.
      - replace (_ <? _) with true
          by (symmetry; apply Z.ltb_lt; rewrite length_app; cbn; lia).
        now rewrite range_appended. }
    assert (Hcur' : last_idx (snd (gen_poll t r1 rd)) = Z.of_nat (length (updates r1))).
    { rewrite Hcur, Hidx, Hnew.
      destruct (Z.ltb_spec (Z.of_nat (length log)) (Z.of_nat (length (log ++ new))))
        as [E|E]; [reflexivity|].
      rewrite length_app in *. f_equal. lia. }
    destruct (IH (snd (gen_poll t r1 rd)) news (updates r1) Hcur' Hrest) as [IHd IHi].
    split.
    + rewrite Hf, Hitems', !data_frames_app, data_frames_frame_of, IHd, map_app.
      destruct (10000 <=? _); cbn [data_frames List.filter is_data]; now rewrite app_nil_r.
    + rewrite IHi, Hnew. now rewrite app_assoc.
Qed.

Lemma connection_delivers_appended_witness :
  data_frames (fst (connection 0 (mkRedis ∅ ∅ [late_update])
                      [(500, mkRedis ∅ ∅ [late_update]);
                       (1000, mkRedis ∅ ∅ [late_update; mkUpdate "bootstrap" (DBootstrap 3)])]))
  = [Sse "bootstrap" (FData (DBootstrap 3))].
Proof.
  apply (connection_delivers_appended 0 (mkRedis ∅ ∅ [late_update])
           [(500, mkRedis ∅ ∅ [late_update]);
            (1000, mkRedis ∅ ∅ [late_update; mkUpdate "bootstrap" (DBootstrap 3)])]
           [[]; [mkUpdate "bootstrap" (DBootstrap 3)]]).
  cbn. split_and!; reflexivity.
Defined.

(** X16: whatever the stores and the instants of the polls, two heartbeats
    of a connection are at least ten seconds apart, and the first one comes
    at least ten seconds after the hello; a poll made ten seconds or more
    after the last heartbeat (or the hello) ends with one, and any other
    poll carries none. *)
Theorem heartbeats_spaced (now : Z) (r : Redis) (polls : list (Z * Redis)) :
  spaced now (beats (fst (connection now r polls))) /\
  (forall t r1 rd,
     beats (fst (gen_poll t r1 rd))
     = if 10000 <=? t - last_heartbeat rd then [t] else []) /\
  (forall t r1 rd,
     10000 <= t - last_heartbeat rd ->
     last (fst (gen_poll t r1 rd)) = Some (Sse "heartbeat" (FHeartbeat t))).
Proof.
  assert (Hone : forall t r1 rd,
             beats (fst (gen_poll t r1 rd))
             = if 10000 <=? t - last_heartbeat rd then [t] else []).
  { intros t r1 rd. destruct (gen_poll_frames t r1 rd) as (items & -> & _).
    rewrite beats_app, beats_frame_of. now destruct (10000 <=? _). }
  split_and!.
  - unfold connection. rewrite gen_start_cursor.
    set (rd := mkReader _ now).
    change now with (last_heartbeat rd) at 1. clearbody rd.
    destruct (gen_loop polls rd) as [more rd1] eqn:E. cbn [fst].
    change (spaced (last_heartbeat rd) (beats more)).
    replace more with (fst (gen_loop polls rd)) by now rewrite E.
    clear E rd1. revert rd.
    induction polls as [|[t r1] polls IH]; intros rd; [exact I|].
    rewrite gen_loop_cons. cbn [fst]. rewrite beats_app, Hone.
    specialize (IH (snd (gen_poll t r1 rd))).
    destruct (gen_poll_frames t r1 rd) as (_ & _ & Hlast & _).
    rewrite Hlast in IH. destruct (10000 <=? _) eqn:Hb.
    + apply Z.leb_le in Hb. cbn. split; [lia|exact IH].
    + exact IH.
  - exact Hone.
  - intros t r1 rd Hb. destruct (gen_poll_frames t r1 rd) as (items & -> & _).
    rewrite (proj2 (Z.leb_le _ _) Hb). apply last_snoc.
Qed.

Lemma heartbeats_spaced_witness :
  last (fst (gen_poll 10000 redis_empty (mkReader 0 0)))
  = Some (Sse "heartbeat" (FHeartbeat 10000)).
Proof.
  apply (heartbeats_spaced 0 redis_empty []). cbn. lia.
Defined.

(** ** From a producer to a connected client *)

Lemma range_append_below {A : Type} (l : list A) (x : A) :
  (length l < 500)%nat -> R.range (l ++ [x]) (-500) (-1) = l ++ [x].
Proof.
  intros Hlen. rewrite (range_tail _ 500) by lia. rewrite length_app. cbn [length].
  now replace (length l + 1 - Z.to_nat 500)%nat with 0%nat by lia.
Qed.

Lemma gen_poll_appended (t : Z) (r' : Redis) (log new : list Update) (rd : Reader) :
  last_idx rd = Z.of_nat (length log) ->
  updates r' = log ++ new ->
  data_frames (fst (gen_poll t r' rd)) = map frame_of new /\
  last_idx (snd (gen_poll t r' rd)) = Z.of_nat (length (updates r')).
Proof.
  intros Hidx Hnew.
  destruct (gen_poll_frames t r' rd) as (items & Hf & _ & Hitems & Hcur).
  assert (Hitems' : items = new).
  { rewrite Hitems, Hidx, Hnew. destruct new as [|x new].
    - now rewrite app_nil_r, Z.ltb_irrefl.
    - replace (_ <? _) with true
        by (symmetry; apply Z.ltb_lt; rewrite length_app; cbn; lia).
      now rewrite range_appended. }
  split.
  - rewrite Hf, Hitems', data_frames_app, data_frames_frame_of.
    destruct (10000 <=? _); cbn [data_frames List.filter is_data]; now rewrite app_nil_r.
  - rewrite Hcur, Hidx, Hnew.
    destruct (Z.ltb_spec (Z.of_nat (length log)) (Z.of_nat (length (log ++ new))))
      as [E|E]; [reflexivity|].
    rewrite length_app in *. f_equal. lia.
Qed.

(** X17: while the log holds fewer than 500 entries, what a producer
    announces reaches a client that was connected before: the next poll of a
    reader whose cursor is the length of the log carries exactly one data
    frame, the payload under its type. This holds for [_push_update]
    itself, for the event an event tick creates, for the alert an alert
    tick raises and for the notice of a [set_scenario] that went through. *)
Theorem updates_reach_client (py_round : float -> Z -> float) (py_hash : string -> Z)
    (settings : Settings) (now t : Z) (w : World) (rd : Reader) :
  (length (updates (redis w)) < 500)%nat ->
  last_idx rd = stream (redis w) ->
  (forall payload,
     data_frames (fst (gen_poll t (redis (snd (_push_update payload w))) rd))
     = [frame_of payload]) /\
  (redis (snd (generate_event py_round now w)) = redis w \/
   exists evt,
     strs (redis (snd (generate_event py_round now w))) !! ("event:" +:+ event_id evt)
     = Some (mkEntry (REvent evt) None) /\
     data_frames (fst (gen_poll t (redis (snd (generate_event py_round now w))) rd))
     = [Sse "event_created" (FData (DEvent evt))]) /\
  (forall evt prio,
     latest_event now (redis w) = Some evt ->
     _event_to_priority evt = Some prio ->
     R.exists_ now (redis w) (dedup_key py_hash (alert_fingerprint prio evt)) = false ->
     data_frames (fst (gen_poll t (redis (snd (generate_alert py_hash now w))) rd))
     = [Sse "alert_raised" (FData (DAlert (alert_of now w prio evt)))]) /\
  (forall scenario actor reply,
     fst (set_scenario settings now scenario actor w) = Ok reply ->
     data_frames (fst (gen_poll t (redis (snd (set_scenario settings now scenario actor w)))
                                rd))
     = [Sse "admin_notice"
          (FData (DAdmin "scenario_changed" actor (_now now) (admin_cooldown_sec settings)
                         (ScenarioName_str scenario)
                         (p_event (SCENARIO_PRESETS scenario),
                          p_asset (SCENARIO_PRESETS scenario),
                          p_alert (SCENARIO_PRESETS scenario))))]).
Proof.
  intros Hlen Hidx. unfold stream in Hidx.
  assert (Hpoll : forall r' payload,
            updates r' = R.range (updates (redis w) ++ [payload]) (-500) (-1) ->
            data_frames (fst (gen_poll t r' rd)) = [frame_of payload]).
  { intros r' payload Hupd. rewrite range_append_below in Hupd by exact Hlen.
    now destruct (gen_poll_appended t r' (updates (redis w)) [payload] rd Hidx Hupd). }
  split_and!.
  - intros payload. apply Hpoll. now rewrite push_update_run.
  - destruct (generate_event_effect py_round now w)
      as [Hsame|(aid & asset & evt & _ & _ & Hw' & _)]; [now left|].
    right. exists evt. rewrite Hw'. split.
    + unfold event_stored.
      cbn [strs R.ltrim_updates R.rpush_updates R.ltrim R.rpush R.set].
      now rewrite lookup_insert_eq.
    + now apply (Hpoll _ (mkUpdate "event_created" (DEvent evt))).
  - intros evt prio Hl Hp Hex.
    rewrite (generate_alert_fresh py_hash now w evt prio Hl Hp Hex). cbn [snd redis].
    now apply (Hpoll _ (mkUpdate "alert_raised" (DAlert (alert_of now w prio evt)))).
  - intros scenario actor reply Hok.
    rewrite (set_scenario_applied _ _ _ _ _ _ Hok). cbn [redis].
    now apply (Hpoll _ (mkUpdate "admin_notice" _)).
Qed.

Lemma updates_reach_client_witness :
  data_frames (fst (gen_poll 700
                      (redis (snd (_push_update late_update sample_world)))
                      (mkReader 0 0)))
  = [frame_of late_update] /\
  data_frames (fst (gen_poll 700
                      (redis (snd (generate_alert (fun _ => 42) 1000
                                     (sample_event_world critical))))
                      (mkReader 0 0)))
  = [Sse "alert_raised"
       (FData (DAlert (alert_of 1000 (sample_event_world critical) p1
                                (sample_event critical))))] /\
  data_frames (fst (gen_poll 700
                      (redis (snd (set_scenario settings_default 0 stress "a" sample_world)))
                      (mkReader 0 0)))
  = [Sse "admin_notice"
       (FData (DAdmin "scenario_changed" "a" (_now 0) (admin_cooldown_sec settings_default)
                      (ScenarioName_str stress)
                      (p_event (SCENARIO_PRESETS stress),
                       p_asset (SCENARIO_PRESETS stress),
                       p_alert (SCENARIO_PRESETS stress))))].
Proof.
  assert (Hlen : (length (updates (redis sample_world)) < 500)%nat) by (vm_compute; lia).
  assert (Hlen' : (length (updates (redis (sample_event_world critical))) < 500)%nat)
    by (vm_compute; lia).
  split; [|split].
  - destruct (updates_reach_client (fun x _ => x) (fun _ => 42) settings_default 1000 700
                sample_world (mkReader 0 0) Hlen eq_refl) as (H & _).
    exact (H late_update).
  - destruct (updates_reach_client (fun x _ => x) (fun _ => 42) settings_default 1000 700
                (sample_event_world critical) (mkReader 0 0) Hlen' eq_refl)
      as (_ & _ & H & _).
    apply (H (sample_event critical) p1); vm_compute; reflexivity.
  - destruct (updates_reach_client (fun x _ => x) (fun _ => 42) settings_default 0 700
                sample_world (mkReader 0 0) Hlen eq_refl) as (_ & _ & _ & H).
    apply (H stress "a" (mkReply true stress (SCENARIO_PRESETS stress) 300)).
    vm_compute. reflexivity.
Defined.

(** ** No tick fails on a store the simulation reaches *)

Lemma well_typed_strs (r r' : Redis) :
  strs r' = strs r -> well_typed r -> well_typed r'.
Proof. intros E [Ha He]. split; intros id e; rewrite E; [apply Ha|apply He]. Qed.

Lemma well_typed_insert (r : Redis) (key : string) (e : entry)
    (l : gmap string (list string)) (u : list Update) :
  well_typed r ->
  (forall id, key = "asset:" +:+ id -> exists a, e_val e = RAsset a /\ 0 <= route_idx a) ->
  (forall id, key = "event:" +:+ id -> exists ev, e_val e = REvent ev) ->
  well_typed (mkRedis (<[key := e]> (strs r)) l u).
Proof.
  intros [Ha He] Hka Hke. split; intros id e'; cbn [strs].
  - destruct (decide (key = "asset:" +:+ id)) as [->|Hne].
    + rewrite lookup_insert_eq. intros [= <-]. now apply (Hka id).
    + rewrite lookup_insert_ne by exact Hne. apply Ha.
  - destruct (decide (key = "event:" +:+ id)) as [->|Hne].
    + rewrite lookup_insert_eq. intros [= <-]. now apply (Hke id).
    + rewrite lookup_insert_ne by exact Hne. apply He.
Qed.

Lemma well_typed_empty : well_typed redis_empty.
Proof. split; intros id e; cbn; now rewrite lookup_empty. Qed.

Lemma well_typed_get_asset (now : Z) (r : Redis) (id : string) (v : rval) :
  well_typed r -> R.get now r ("asset:" +:+ id) = Some v ->
  exists a, v = RAsset a /\ 0 <= route_idx a.
Proof.
  intros [Ha _]. unfold R.get.
  destruct (strs r !! ("asset:" +:+ id)) as [e|] eqn:E; [|discriminate].
  destruct (R.live now e); [|discriminate]. intros [= <-]. exact (Ha id e E).
Qed.

Lemma well_typed_get_event (now : Z) (r : Redis) (id : string) (v : rval) :
  well_typed r -> R.get now r ("event:" +:+ id) = Some v -> exists ev, v = REvent ev.
Proof.
  intros [_ He]. unfold R.get.
  destruct (strs r !! ("event:" +:+ id)) as [e|] eqn:E; [|discriminate].
  destruct (R.live now e); [|discriminate]. intros [= <-]. exact (He id e E).
Qed.

(** Writes of the store. *)
Lemma wt_quiet {A : Type} (m : M A) : quiet m -> wt_keeps m.
Proof. intros Hm w Hw. now rewrite Hm. Qed.

Lemma wt_bind {A B : Type} (m : M A) (k : A -> M B) :
  wt_keeps m -> (forall a, wt_keeps (k a)) -> wt_keeps (bind m k).
Proof.
  intros Hm Hk w Hw. unfold bind. specialize (Hm w Hw).
  destruct (m w) as [[a|e] w']; cbn [snd] in *; [now apply Hk|exact Hm].
Qed.

Lemma wt_command (f : Redis -> Redis) :
  (forall r, well_typed r -> well_typed (f r)) -> wt_keeps (command f).
Proof. intros Hf w Hw. now apply Hf. Qed.

Lemma wt_for_each {A : Type} (l : list A) (body : A -> M unit) :
  (forall x, wt_keeps (body x)) -> wt_keeps (for_each l body).
Proof.
  intros Hbody. induction l as [|x l IH]; cbn [for_each].
  - now intros w Hw.
  - apply wt_bind; [apply Hbody|]. intros _. exact IH.
Qed.

Lemma wt_push_update (payload : Update) : wt_keeps (_push_update payload).
Proof. intros w Hw. rewrite push_update_run. now apply (well_typed_strs (redis w)). Qed.

Lemma wt_bootstrap_assets (py_round : float -> Z -> float) (now n : Z) :
  wt_keeps (bootstrap_assets py_round now n).
Proof.
  unfold bootstrap_assets. apply wt_bind; [apply wt_quiet, quiet_query|]. intros len.
  destruct (0 <? len); [apply wt_quiet, quiet_ret|].
  apply wt_bind; [|intros _; apply wt_push_update].
  apply wt_for_each. intros i. unfold bootstrap_asset.
  apply wt_bind; [apply wt_quiet, quiet_draw|]. intros x_lat.
  apply wt_bind; [apply wt_quiet, quiet_draw|]. intros x_lon.
  apply wt_bind.
  { apply wt_quiet. unfold Random.choice. apply quiet_bind; [apply quiet_draw|].
    intros k. destruct (_ !! _); [apply quiet_ret|apply quiet_raise]. }
  intros a_type. apply wt_bind.
  { apply wt_quiet. unfold Random.choice. apply quiet_bind; [apply quiet_draw|].
    intros k. destruct (_ !! _); [apply quiet_ret|apply quiet_raise]. }
  intros team. apply wt_bind.
  { apply wt_quiet. unfold uid. apply quiet_bind; [apply quiet_draw|].
    intros h. apply quiet_ret. }
  intros aid. apply wt_bind; [apply wt_quiet, quiet_draw|]. intros k.
  apply wt_bind; [apply wt_quiet, quiet_random_route|]. intros rt.
  apply wt_bind; [apply wt_quiet, quiet_draw|]. intros speed.
  intros w Hw. run. cbn [snd redis asset_id].
  unfold R.rpush, R.set. cbn [strs].
  apply well_typed_insert; [exact Hw| |].
  - intros id _. eexists. split; [reflexivity|]. cbn. lia.
  - intros id. cbn. intros [=].
Qed.

(** The steps of a motion tick that cannot fail. *)
Lemma route_hops_total (hops : nat) :
  forall (cur_lat cur_lon : float) (w : World),
    exists rest w',
      route_hops hops cur_lat cur_lon w = (Ok rest, w') /\ redis w' = redis w.
Proof.
  induction hops as [|hops IH]; intros cur_lat cur_lon w.
  - exists [], w. now cbn.
  - cbn [route_hops]. unfold Random.uniform. rewrite !bind_draw. cbn beta iota.
    match goal with
    | |- context [bind (route_hops hops ?la ?lo) _ ?w1] =>
        destruct (IH la lo w1) as (rest & w' & E & Hr)
    end.
    unfold bind at 1. rewrite E. cbn [ret]. eexists _, w'. split; [reflexivity|].
    rewrite Hr. reflexivity.
Qed.

(** One turn of the loop of [update_assets] on a well-typed store. *)
Lemma update_asset_ok (pow_half : float -> float) (now : Z) (aid : string) (w : World) :
  well_typed (redis w) ->
  exists w', update_asset pow_half now aid w = (Ok tt, w') /\ well_typed (redis w').
Proof.
  intros Hw. unfold update_asset. rewrite bind_query.
  destruct (truthy _) as [raw|] eqn:Hraw; [|now exists w].
  apply truthy_Some in Hraw.
  destruct (well_typed_get_asset _ _ _ _ Hw Hraw) as (a & -> & Hidx).
  cbn [loads_asset]. rewrite bind_lift_ok.
  assert (Hcur : exists rt idx w1,
             redis w1 = redis w /\ 0 <= idx < Z.of_nat (length rt) /\
             forall B (k : list Waypoint * Z -> M B),
               bind (if Z.of_nat (length (route a)) <=? route_idx a
                     then n <- Random.randint 3 6 ;;
                          rt' <- random_route (lat a) (lon a) n ;;
                          ret (rt', 0)
                     else ret (route a, route_idx a)) k w
               = k (rt, idx) w1).
  { destruct (Z.leb_spec (Z.of_nat (length (route a))) (route_idx a)) as [Hout|Hin].
    - unfold Random.randint, random_route.
      destruct (route_hops_total
                  (Z.to_nat (Z.max 1 (rnd_randint (rng w) (rnd_calls (rng w)) 3 6 - 1)))
                  (lat a) (lon a) (mkWorld (redis w) (tick_rng (rng w))))
        as (rest & w1 & E & Hr).
      exists ((lat a, lon a) :: rest), 0, w1. split; [exact Hr|].
      split; [cbn [length]; lia|]. intros B k. run.
      unfold bind at 1. now rewrite E.
    - exists (route a), (route_idx a), w. split; [reflexivity|]. split; [lia|].
      intros B k. now run. }
  destruct Hcur as (rt & idx & w1 & Hr1 & Hidx1 & ->).
  destruct (py_index_ok rt idx Hidx1) as ([target_lat target_lon] & ->).
  rewrite bind_lift_ok.
  match goal with
  | |- context [move_towards pow_half ?a1 ?a2 ?b1 ?b2 ?s] =>
      destruct (move_towards_ok pow_half a1 a2 b1 b2 s) as ([[new_lat new_lon] arrived] & ->);
      [now destruct (bool_decide _)|]
  end.
  rewrite bind_lift_ok. unfold Random.uniform, Random.random. run.
  assert (Hgen : forall (a' : Asset) (g2 : Rng),
            0 <= route_idx a' ->
            exists w0,
              (Ok tt,
               mkWorld
                 (R.ltrim_updates
                    (R.rpush_updates (R.set (redis w1) ("asset:" +:+ aid) (RAsset a'))
                                     (mkUpdate "asset_updated" (DAsset a')))
                    (-500) (-1)) g2)
              = (Ok tt, w0) /\ well_typed (redis w0)).
  { intros a' g2 Ha'. eexists. split; [reflexivity|]. cbn [redis].
    unfold R.ltrim_updates, R.rpush_updates, R.set. cbn [strs lists updates].
    rewrite Hr1. apply well_typed_insert; [exact Hw| |].
    - intros id _. now exists a'.
    - intros id. cbn. intros [=]. }
  assert (Hnext : 0 <= (if arrived then idx + 1 else idx)) by (destruct arrived; lia).
  destruct (Py.lt _ 0.015%float); run; [now apply Hgen|].
  destruct (Py.lt _ 0.020%float); run; [now apply Hgen|].
  destruct (status a); run; now apply Hgen.
Qed.

Lemma update_assets_ok (pow_half : float -> float) (now : Z) (w : World) :
  well_typed (redis w) ->
  exists w', update_assets pow_half now w = (Ok tt, w') /\ well_typed (redis w').
Proof.
  intros Hw. unfold update_assets, Random.randint, Random.sample. rewrite bind_query.
  destruct (R.lrange _ _ _ _) as [|x ids]; [now exists w|].
  rewrite !bind_draw. cbn beta iota.
  match goal with |- context [for_each ?l _ ?w1] => generalize l; set (w0 := w1) end.
  assert (Hw0 : well_typed (redis w0)) by exact Hw. clearbody w0.
  intros chosen. revert w0 Hw0.
  induction chosen as [|aid chosen IH]; intros w0 Hw0; cbn [for_each].
  - now exists w0.
  - destruct (update_asset_ok pow_half now aid w0 Hw0) as (w1 & E & Hw1).
    unfold bind at 1. rewrite E. now apply IH.
Qed.

Lemma well_typed_put (m : gmap string entry) (key : string) (e : entry)
    (l : gmap string (list string)) (u : list Update) :
  well_typed (mkRedis m ∅ []) ->
  (forall id, key = "asset:" +:+ id -> exists a, e_val e = RAsset a /\ 0 <= route_idx a) ->
  (forall id, key = "event:" +:+ id -> exists ev, e_val e = REvent ev) ->
  well_typed (mkRedis (<[key := e]> m) l u).
Proof. intros Hm. exact (well_typed_insert (mkRedis m ∅ []) key e l u Hm). Qed.

(** The alert tick on a well-typed store. *)
Lemma generate_alert_ok (py_hash : string -> Z) (now : Z) (w : World) :
  well_typed (redis w) ->
  exists w', generate_alert py_hash now w = (Ok tt, w') /\ well_typed (redis w').
Proof.
  intros Hw. unfold generate_alert. run.
  destruct (R.llen (redis w) K_EVENTS =? 0); [now exists w|]. run.
  destruct (truthy _) as [raw|] eqn:Hraw; [|now exists w].
  apply truthy_Some in Hraw.
  destruct (well_typed_get_event _ _ _ _ Hw Hraw) as (evt & ->).
  cbn [loads_event]. run.
  destruct (_event_to_priority evt) as [prio|]; [|now exists w].
  run. destruct (R.exists_ now (redis w) _); [now exists w|].
  run. unfold uid. run. rewrite bind_store_json_ttl by lia. run.
  eexists. split; [reflexivity|]. cbn [redis].
  unfold R.ltrim_updates, R.rpush_updates, R.ltrim, R.rpush, R.setex, R.set.
  cbn [strs lists updates].
  eapply well_typed_put; [eapply well_typed_put; [eapply well_typed_put| |]| |].
  - apply (well_typed_strs (redis w)); [reflexivity|exact Hw].
  - intros id. cbn [String.append]. discriminate.
  - intros id. cbn [String.append]. discriminate.
  - intros id. cbn [String.append]. discriminate.
  - intros id. cbn [String.append]. discriminate.
  - intros id. cbn [String.append]. discriminate.
  - intros id. cbn [String.append]. discriminate.
Qed.

(** The event tick on a well-typed store, with a random source and a
    [round] that keep their promises. *)
Lemma generate_event_ok (py_round : float -> Z -> float) (now : Z) (w : World) :
  well_typed (redis w) ->
  uniform_ok (rng w) -> pick_ok (rng w) -> round_ok py_round ->
  exists w', generate_event py_round now w = (Ok tt, w') /\ well_typed (redis w').
Proof.
  intros Hw Hu Hp Hround.
  assert (Hconf : forall k,
            negb (Py.ge (py_round (rnd_uniform (rng w) k 0.60%float 0.95%float) 2) 0%float
                  && Py.le (py_round (rnd_uniform (rng w) k 0.60%float 0.95%float) 2)
                           1%float) = false).
  { intros k. destruct (Hu k 0.60%float 0.95%float eq_refl) as [H1 H2].
    destruct (Hround _ H1 H2) as [-> ->]. reflexivity. }
  unfold generate_event, Random.randint, Random.uniform. run.
  destruct (R.llen (redis w) K_ASSETS =? 0); [now exists w|]. run.
  destruct (truthy _) as [raw|] eqn:Hraw; run; [|now eexists].
  apply truthy_Some in Hraw.
  destruct (well_typed_get_asset _ _ _ _ Hw Hraw) as (a & -> & _).
  cbn [loads_asset]. run. unfold Random.choices, Random.choice.
  assert (Hend : forall (evt : Event) (g2 : Rng),
            exists w0,
              (Ok tt,
               mkWorld
                 (R.ltrim_updates
                    (R.rpush_updates
                       (R.ltrim (R.rpush (R.set (redis w) ("event:" +:+ event_id evt)
                                                (REvent evt))
                                         K_EVENTS (event_id evt))
                                K_EVENTS (-300) (-1))
                       (mkUpdate "event_created" (DEvent evt)))
                    (-500) (-1)) g2)
              = (Ok tt, w0) /\ well_typed (redis w0)).
  { intros evt g2. eexists. split; [reflexivity|]. cbn [redis].
    unfold R.ltrim_updates, R.rpush_updates, R.ltrim, R.rpush, R.set.
    cbn [strs lists updates].
    apply well_typed_insert; [exact Hw| |].
    - intros id. cbn. discriminate.
    - intros id _. now eexists. }
  destruct (String.eqb (asset_type a) "relay");
    [|destruct (String.eqb (asset_type a) "vehicle");
      [|destruct (String.eqb (asset_type a) "drone")]].
  all: run;
    match goal with
    | |- context [match ?seq !! rnd_pick ?g ?k (length ?seq) with _ => _ end] =>
        destruct (pick_some g k seq Hp ltac:(done)) as (etype & -> & _)
    end; run.
  all: destruct (status a); run.
  all: try match goal with
    | |- context [match ?seq !! rnd_pick ?g ?k (length ?seq) with _ => _ end] =>
        destruct (pick_some g k seq Hp ltac:(done)) as (etype2 & -> & _)
    end; run.
  all: unfold uid; run; rewrite Hconf; run.
  all: match goal with
       | |- context [REvent ?e] => apply (Hend e)
       end.
Qed.

(** Rounding that changes nothing keeps the promise of [round]. *)
Lemma round_ok_id : round_ok (fun x _ => x).
Proof.
  intros x H1 H2. unfold Py.ge, Py.le in *.
  rewrite FloatAxioms.leb_spec in H1, H2. rewrite !FloatAxioms.leb_spec.
  set (sx := Prim2SF x) in *. clearbody sx.
  let v := eval vm_compute in (Prim2SF 0.60%float) in
    change (Prim2SF 0.60%float) with v in H1.
  let v := eval vm_compute in (Prim2SF 0.95%float) in
    change (Prim2SF 0.95%float) with v in H2.
  let v := eval vm_compute in (Prim2SF 0%float) in change (Prim2SF 0%float) with v.
  let v := eval vm_compute in (Prim2SF 1%float) in change (Prim2SF 1%float) with v.
  unfold SFleb, SFcompare in *.
  destruct sx as [s|s| |s m e]; try discriminate.
  - destruct s; discriminate.
  - destruct s; try discriminate. split; [reflexivity|].
    destruct (Z.compare_spec e (-53)) as [->|Hlt|Hgt]; try discriminate.
    + reflexivity.
    + replace (e ?= -52) with Lt by (symmetry; apply Z.compare_lt_iff; lia). reflexivity.
Qed.

(** Every store the simulation reaches is well typed. *)
Lemma sim_state_well_typed (pow_half : float -> float) (py_round : float -> Z -> float)
    (w : World) :
  sim_state pow_half py_round w -> well_typed (redis w).
Proof.
  induction 1 as [g Hg|now n w _ IH|now w _ IH|now w _ IH|py_hash now w _ IH].
  - apply well_typed_empty.
  - now apply wt_bootstrap_assets.
  - destruct (update_assets_ok pow_half now w IH) as (w' & -> & Hw'). exact Hw'.
  - destruct (generate_event_effect py_round now w)
      as [->|(aid & asset & evt & _ & _ & -> & _)]; [exact IH|].
    unfold event_stored, R.ltrim_updates, R.rpush_updates, R.ltrim, R.rpush, R.set.
    cbn [strs lists updates].
    apply well_typed_insert; [exact IH| |].
    + intros id. cbn [String.append]. discriminate.
    + intros id _. now eexists.
  - destruct (generate_alert_ok py_hash now w IH) as (w' & -> & Hw'). exact Hw'.
Qed.

(** X18: on every store the simulation reaches (from an empty store, by
    bootstraps and motion, event and alert ticks in any order and at any
    instants, a tick that failed included), the motion tick and the alert
    tick end without error, whatever the random source answers; so do the
    event tick and the bootstrap when [choice] returns an item of its
    sequence, and for the event tick when rounding keeps a confidence
    drawn in [0.60, 0.95] inside [0, 1]. The store stays well typed: the
    payload keys hold payloads of their kind and no route index is
    negative. *)
Theorem ticks_never_fail (pow_half : float -> float) (py_round : float -> Z -> float)
    (py_hash : string -> Z) (now n : Z) (w : World) :
  sim_state pow_half py_round w ->
  well_typed (redis w) /\
  fst (update_assets pow_half now w) = Ok tt /\
  fst (generate_alert py_hash now w) = Ok tt /\
  (pick_ok (rng w) ->
   fst (bootstrap_assets py_round now n w) = Ok tt /\
   (round_ok py_round -> fst (generate_event py_round now w) = Ok tt)).
Proof.
  intros Hsim.
  pose proof (sim_state_well_typed _ _ _ Hsim) as Hw.
  destruct (sim_state_inv _ _ _ Hsim) as [Hu _].
  split; [exact Hw|]. split.
  { destruct (update_assets_ok pow_half now w Hw) as (w' & -> & _). reflexivity. }
  split.
  { destruct (generate_alert_ok py_hash now w Hw) as (w' & -> & _). reflexivity. }
  intros Hp. split.
  - unfold bootstrap_assets. rewrite bind_query.
    destruct (0 <? R.llen (redis w) K_ASSETS) eqn:Hlen; [reflexivity|].
    assert (Hempty : R.items (redis w) K_ASSETS = []).
    { apply Z.ltb_ge in Hlen. unfold R.llen in Hlen.
      destruct (R.items (redis w) K_ASSETS); [reflexivity|cbn in Hlen; lia]. }
    assert (Hf : fleet_fresh now (redis w)).
    { intros id. rewrite Hempty. now intros ?%elem_of_nil. }
    destruct (bootstrap_loop py_round now (seqZ 0 n) w Hu Hp Hf) as (w1 & E & _).
    unfold bind at 1. rewrite E. now rewrite push_update_run.
  - intros Hround.
    destruct (generate_event_ok py_round now w Hw Hu Hp Hround) as (w' & -> & _).
    reflexivity.
Qed.

Lemma ticks_never_fail_witness :
  fst (update_assets PrimFloat.sqrt 5000
         (snd (bootstrap_assets (fun x _ => x) 1000 3 (mkWorld redis_empty rng_least))))
  = Ok tt /\
  fst (generate_event (fun x _ => x) 5000
         (snd (bootstrap_assets (fun x _ => x) 1000 3 (mkWorld redis_empty rng_least))))
  = Ok tt.
Proof.
  assert (Hsim : sim_state PrimFloat.sqrt (fun x _ => x)
                   (snd (bootstrap_assets (fun x _ => x) 1000 3
                           (mkWorld redis_empty rng_least)))).
  { apply sim_bootstrap, sim_fresh, rng_least_uniform_ok. }
  assert (Hp : pick_ok (rng (snd (bootstrap_assets (fun x _ => x) 1000 3
                                    (mkWorld redis_empty rng_least))))).
  { intros k len Hlen. vm_compute. exact Hlen. }
  destruct (ticks_never_fail PrimFloat.sqrt (fun x _ => x) (fun _ => 42) 5000 3 _ Hsim)
    as (_ & Hmove & _ & Hrest).
  split; [exact Hmove|]. apply (Hrest Hp), round_ok_id.
Defined.
